(** * Retrieval-and-decision pipeline of agentic-rag-aws

    A shallow embedding of [app/graph.py] (the LangGraph pipeline behind
    [run_qa]) and of the [/ask] handler of [app/main.py], followed by the
    properties of document selection, narrowing, gating and response
    assembly.

    Modelling conventions.
    - A Python [float] that is finite is a rational number, and the pipeline
      only compares distances ([<], [==], [min], [sorted]); it never does
      arithmetic on them.  Distances are therefore values of [Q], compared
      with [Qcompare].  NaN and infinities are outside the model.
    - A Python [int] is a [Z]; a [str] is a [string] whose characters are
      the code points below 256.
    - A [dict] is an insertion-ordered association list: the order of
      [doc_min.keys()] decides which document wins a complete tie.
    - A [TypedDict(total=False)] is a record of optional fields; [d.get(k, v)]
      is a match on the option, [d[k]] raises [KeyError] on [None].
    - Exceptions are the [Err] branch of [result].
    - The three collaborators ([embed_texts], [retrieve_by_embedding],
      [generate_text]) are section variables. *)

From Stdlib Require Import QArith ZArith List String Ascii Bool Lia.
From Stdlib Require Import Permutation Sorted.
Import ListNotations.

Local Open Scope string_scope.
Local Open Scope Z_scope.

(** ** Python values *)

Inductive exn : Type :=
| KeyError (key : string)
| ValueError (msg : string)
| RuntimeError (msg : string)
| GraphRecursionError.

Inductive result (A : Type) : Type :=
| Ok (a : A)
| Err (e : exn).

Arguments Ok {A} a.
Arguments Err {A} e.

Definition bind {A B : Type} (c : result A) (f : A -> result B) : result B :=
  match c with
  | Ok a => f a
  | Err e => Err e
  end.

Notation "x <- c ;; f" := (bind c (fun x => f))
  (at level 61, c at next level, right associativity).

(** JSON-like values, as stored in [debug] and in response bodies. *)
#[local] Set Warnings "-register-all".
Inductive jval : Type :=
| JNull
| JBool (b : bool)
| JInt (n : Z)
| JFloat (x : Q)
| JStr (s : string)
| JList (l : list jval)
| JDict (d : list (string * jval)).

(** ** Insertion-ordered dictionaries with string keys *)

Section Dict.
Context {V : Type}.

Definition dict := list (string * V).

Fixpoint dict_get (d : dict) (key : string) : option V :=
  match d with
  | [] => None
  | (k', v) :: r => if String.eqb key k' then Some v else dict_get r key
  end.

(** [d.get(key, default)] *)
Definition dict_get_or (d : dict) (key : string) (default : V) : V :=
  match dict_get d key with
  | Some v => v
  | None => default
  end.

(** [d[key] = v]: an existing key keeps its position, a new key goes last. *)
Fixpoint dict_set (d : dict) (key : string) (v : V) : dict :=
  match d with
  | [] => [(key, v)]
  | (k', v') :: r =>
      if String.eqb key k' then (k', v) :: r else (k', v') :: dict_set r key v
  end.

(** [d.update(other)] *)
Definition dict_update (d other : dict) : dict :=
  fold_left (fun acc kv => dict_set acc (fst kv) (snd kv)) other d.

Definition dict_keys (d : dict) : list string := map fst d.

Definition dict_has (d : dict) (key : string) : bool :=
  match dict_get d key with
  | Some _ => true
  | None => false
  end.

End Dict.

Arguments dict V : clear implicits.

(** ** Floats and the built-ins used on them *)

(** [x < y] on finite floats. *)
Definition flt (x y : Q) : bool :=
  match (x ?= y)%Q with
  | Lt => true
  | _ => false
  end.

(** [x == y] on finite floats. *)
Definition feq (x y : Q) : bool := Qeq_bool x y.

(** The literal [1.0], the code's stand-in for an unknown distance. *)
Definition one_f : Q := 1%Q.

(** [min(a, b)]: the first argument unless the second is strictly smaller. *)
Definition fmin2 (a b : Q) : Q := if flt b a then b else a.

(** [min(xs, default=d)] on floats: first minimal element. *)
Definition fmin_default (xs : list Q) (d : Q) : Q :=
  match xs with
  | [] => d
  | x :: r => fold_left (fun best y => if flt y best then y else best) r x
  end.

(** [<] on the tuples [(float, int)] used as selection keys: the first
    component that differs (by [==]) decides. *)
Definition key_lt (a b : Q * Z) : bool :=
  if negb (feq (fst a) (fst b)) then flt (fst a) (fst b)
  else if negb (snd a =? snd b) then snd a <? snd b
  else false.

(** [min(xs, key=key)]: the first element whose key is minimal;
    [ValueError] on an empty iterable. *)
Definition py_min_by {A K : Type} (lt : K -> K -> bool) (key : A -> K)
    (xs : list A) : result A :=
  match xs with
  | [] => Err (ValueError "min() arg is an empty sequence")
  | x :: r =>
      Ok (fold_left (fun best y => if lt (key y) (key best) then y else best) r x)
  end.

(** [Counter(xs)]: occurrences per element, keys in order of first
    occurrence; a missing key counts 0. *)
Definition Counter (xs : list string) : dict Z :=
  fold_left (fun c x => dict_set c x (dict_get_or c x 0 + 1)) xs [].

Definition counter_get (c : dict Z) (key : string) : Z := dict_get_or c key 0.

(** [len(xs)] *)
Definition len {A : Type} (xs : list A) : Z := Z.of_nat (List.length xs).

(** ** Strings *)

(** The characters below 256 for which [str.isspace] holds, which are the
    ones [str.strip()] removes and the regex class [\s] matches: the
    controls 9 to 13 and 28 to 31, the space, the next-line control 133 and
    the no-break space 160. *)
Definition is_space (c : ascii) : bool :=
  let n := nat_of_ascii c in
  ((9 <=? n) && (n <=? 13) || (28 <=? n) && (n <=? 32)
   || (n =? 133) || (n =? 160))%nat.

Fixpoint lstrip (s : string) : string :=
  match s with
  | EmptyString => EmptyString
  | String c r => if is_space c then lstrip r else s
  end.

Fixpoint string_rev_onto (s acc : string) : string :=
  match s with
  | EmptyString => acc
  | String c r => string_rev_onto r (String c acc)
  end.

Definition string_rev (s : string) : string := string_rev_onto s EmptyString.

Definition rstrip (s : string) : string := string_rev (lstrip (string_rev s)).

(** [s.strip()] *)
Definition strip (s : string) : string := rstrip (lstrip s).

(** [sep.join(xs)] *)
Fixpoint join (sep : string) (xs : list string) : string :=
  match xs with
  | [] => EmptyString
  | [x] => x
  | x :: r => x ++ sep ++ join sep r
  end.

Definition nl : string := String "010"%char EmptyString.
Definition dquote : string := String "034"%char EmptyString.

(** ** Retrieved chunks *)

(** A row of [retrieve_by_embedding]:
    [{"doc_uri": .., "chunk": .., "meta": .., "dist": float(dist)}]. *)
Record Hit : Type := mkHit {
  doc_uri : string;
  chunk : string;
  meta : jval;
  dist : Q
}.

(** [sorted(hits, key=lambda h: h["dist"])]: a stable sort that compares
    keys with [<] only. *)
Fixpoint insert_by_dist (x : Hit) (l : list Hit) : list Hit :=
  match l with
  | [] => [x]
  | y :: t => if flt (dist y) (dist x) then y :: insert_by_dist x t else x :: l
  end.

Fixpoint sorted_by_dist (l : list Hit) : list Hit :=
  match l with
  | [] => []
  | x :: t => insert_by_dist x (sorted_by_dist t)
  end.

(** [xs[:n]] for the non-negative bounds used here. *)
Definition take {A : Type} (n : Z) (xs : list A) : list A :=
  firstn (Z.to_nat n) xs.

(** The per-document minimum built by the loop
    [doc_min[d] = min(doc_min.get(d, 1.0), float(h.get("dist", 1.0)))]. *)
Definition build_doc_min (hits : list Hit) : dict Q :=
  fold_left
    (fun doc_min h =>
       let d := doc_uri h in
       dict_set doc_min d (fmin2 (dict_get_or doc_min d one_f) (dist h)))
    hits [].

(** [min(doc_min.keys(), key=lambda d: (doc_min[d], -doc_counts[d]))] *)
Definition pick_best_doc (doc_min : dict Q) (doc_counts : dict Z) : result string :=
  py_min_by key_lt
    (fun d => (dict_get_or doc_min d one_f, - counter_get doc_counts d))
    (dict_keys doc_min).

(** The comprehension [[h for h in hits if h["doc_uri"] == best_doc]]. *)
Definition hits_of_doc (best_doc : string) (hits : list Hit) : list Hit :=
  filter (fun h => String.eqb (doc_uri h) best_doc) hits.

(** ** The pipeline state of [app/graph.py] *)

(** [class QAState(TypedDict, total=False)]: every key may be absent. *)
Record QAState : Type := mkQAState {
  st_q : option string;
  st_k : option Z;
  st_max_cosine_dist : option Q;
  st_min_hits : option Z;
  st_doc_ctx_chunks : option Z;
  st_coarse_k : option Z;
  st_query_emb : option (list Q);
  st_coarse_hits : option (list Hit);
  st_best_doc : option string;
  st_doc_hits : option (list Hit);
  st_best_dist : option Q;
  st_abstain : option bool;
  st_answer : option string;
  st_citations : option (list (dict string));
  st_debug : option (dict jval)
}.

Definition set_coarse_k (s : QAState) (v : Z) : QAState :=
  mkQAState (st_q s) (st_k s) (st_max_cosine_dist s) (st_min_hits s)
    (st_doc_ctx_chunks s) (Some v) (st_query_emb s) (st_coarse_hits s)
    (st_best_doc s) (st_doc_hits s) (st_best_dist s) (st_abstain s)
    (st_answer s) (st_citations s) (st_debug s).

Definition set_query_emb (s : QAState) (v : list Q) : QAState :=
  mkQAState (st_q s) (st_k s) (st_max_cosine_dist s) (st_min_hits s)
    (st_doc_ctx_chunks s) (st_coarse_k s) (Some v) (st_coarse_hits s)
    (st_best_doc s) (st_doc_hits s) (st_best_dist s) (st_abstain s)
    (st_answer s) (st_citations s) (st_debug s).

Definition set_coarse_hits (s : QAState) (v : list Hit) : QAState :=
  mkQAState (st_q s) (st_k s) (st_max_cosine_dist s) (st_min_hits s)
    (st_doc_ctx_chunks s) (st_coarse_k s) (st_query_emb s) (Some v)
    (st_best_doc s) (st_doc_hits s) (st_best_dist s) (st_abstain s)
    (st_answer s) (st_citations s) (st_debug s).

Definition set_best_doc (s : QAState) (v : string) : QAState :=
  mkQAState (st_q s) (st_k s) (st_max_cosine_dist s) (st_min_hits s)
    (st_doc_ctx_chunks s) (st_coarse_k s) (st_query_emb s) (st_coarse_hits s)
    (Some v) (st_doc_hits s) (st_best_dist s) (st_abstain s)
    (st_answer s) (st_citations s) (st_debug s).

Definition set_doc_hits (s : QAState) (v : list Hit) : QAState :=
  mkQAState (st_q s) (st_k s) (st_max_cosine_dist s) (st_min_hits s)
    (st_doc_ctx_chunks s) (st_coarse_k s) (st_query_emb s) (st_coarse_hits s)
    (st_best_doc s) (Some v) (st_best_dist s) (st_abstain s)
    (st_answer s) (st_citations s) (st_debug s).

Definition set_best_dist (s : QAState) (v : Q) : QAState :=
  mkQAState (st_q s) (st_k s) (st_max_cosine_dist s) (st_min_hits s)
    (st_doc_ctx_chunks s) (st_coarse_k s) (st_query_emb s) (st_coarse_hits s)
    (st_best_doc s) (st_doc_hits s) (Some v) (st_abstain s)
    (st_answer s) (st_citations s) (st_debug s).

Definition set_abstain (s : QAState) (v : bool) : QAState :=
  mkQAState (st_q s) (st_k s) (st_max_cosine_dist s) (st_min_hits s)
    (st_doc_ctx_chunks s) (st_coarse_k s) (st_query_emb s) (st_coarse_hits s)
    (st_best_doc s) (st_doc_hits s) (st_best_dist s) (Some v)
    (st_answer s) (st_citations s) (st_debug s).

Definition set_answer (s : QAState) (v : string) : QAState :=
  mkQAState (st_q s) (st_k s) (st_max_cosine_dist s) (st_min_hits s)
    (st_doc_ctx_chunks s) (st_coarse_k s) (st_query_emb s) (st_coarse_hits s)
    (st_best_doc s) (st_doc_hits s) (st_best_dist s) (st_abstain s)
    (Some v) (st_citations s) (st_debug s).

Definition set_citations (s : QAState) (v : list (dict string)) : QAState :=
  mkQAState (st_q s) (st_k s) (st_max_cosine_dist s) (st_min_hits s)
    (st_doc_ctx_chunks s) (st_coarse_k s) (st_query_emb s) (st_coarse_hits s)
    (st_best_doc s) (st_doc_hits s) (st_best_dist s) (st_abstain s)
    (st_answer s) (Some v) (st_debug s).

Definition set_debug (s : QAState) (v : dict jval) : QAState :=
  mkQAState (st_q s) (st_k s) (st_max_cosine_dist s) (st_min_hits s)
    (st_doc_ctx_chunks s) (st_coarse_k s) (st_query_emb s) (st_coarse_hits s)
    (st_best_doc s) (st_doc_hits s) (st_best_dist s) (st_abstain s)
    (st_answer s) (st_citations s) (Some v).

(** [state[key]] *)
Definition item {A : Type} (key : string) (field : option A) : result A :=
  match field with
  | Some v => Ok v
  | None => Err (KeyError key)
  end.

(** [state.get(key, default)] *)
Definition get_or {A : Type} (field : option A) (default : A) : A :=
  match field with
  | Some v => v
  | None => default
  end.

(** [state.get(key) or []] *)
Definition get_or_nil {A : Type} (field : option (list A)) : list A :=
  match field with
  | Some l => l
  | None => []
  end.

Definition opt_float (x : option Q) : jval :=
  match x with
  | Some v => JFloat v
  | None => JNull
  end.

Definition opt_str (x : option string) : jval :=
  match x with
  | Some v => JStr v
  | None => JNull
  end.

(** [len(set(xs))] over strings. *)
Definition count_distinct (xs : list string) : Z :=
  len (nodup string_dec xs).

Definition ABSTAIN_MESSAGE : string :=
  "I don't know that yet based on the current knowledge base.".

(** The f-string prompt shared by [_reason_node] and [ask]. *)
Definition build_prompt (context question : string) : string :=
  "You are a careful assistant. Answer ONLY from the context below." ++ nl ++
  "If the answer is not present, reply exactly: " ++ dquote ++
  "I don't know." ++ dquote ++ nl ++
  nl ++
  "Context:" ++ nl ++
  context ++ nl ++
  nl ++
  "Question: " ++ question ++ nl ++
  "Answer concisely. Provide a short phrase or sentence." ++ nl.

(** [generate_text(prompt) or ""] followed by [.strip()]. *)
Definition or_empty (r : option string) : string :=
  match r with
  | Some s => s
  | None => EmptyString
  end.

(** [sorted(doc_hits, key=...)[: max(2, doc_ctx_chunks)]] applied to the
    selected document's hits. *)
Definition narrow (best_doc : string) (hits : list Hit) (doc_ctx_chunks : Z)
    : list Hit :=
  take (Z.max 2 doc_ctx_chunks) (sorted_by_dist (hits_of_doc best_doc hits)).

(** [min((float(h.get("dist", 1.0)) for h in doc_hits), default=1.0)] *)
Definition best_dist_of (doc_hits : list Hit) : Q :=
  fmin_default (map dist doc_hits) one_f.

(** [[x] = xs] *)
Definition unpack1 {A : Type} (xs : list A) : result A :=
  match xs with
  | [x] => Ok x
  | [] => Err (ValueError "not enough values to unpack (expected 1, got 0)")
  | _ => Err (ValueError "too many values to unpack (expected 1)")
  end.

(** [str(e)] *)
Definition exn_str (e : exn) : string :=
  match e with
  | KeyError key => "'" ++ key ++ "'"
  | ValueError msg => msg
  | RuntimeError msg => msg
  | GraphRecursionError => "Recursion limit reached"
  end.

Definition citation (d : string) : dict string := [("doc_uri", d)].

Definition citation_json (c : dict string) : jval :=
  JDict (map (fun kv => (fst kv, JStr (snd kv))) c).

(** Nodes of the graph, and [END]. *)
Inductive Node : Type :=
| embed
| retrieve
| select_doc
| gate
| reason
| abstain_out
| END.

(** An HTTP response: a JSON body and a status code. *)
Record Response : Type := mkResponse {
  status_code : Z;
  body : dict jval
}.

Definition JSONResponse (content : dict jval) (status : Z) : Response :=
  mkResponse status content.

(** The knobs [/ask] reads from the environment, already parsed by
    [float(..)] and [int(..)]; [None] when the variable is unset. *)
Record Env : Type := mkEnv {
  MAX_COSINE_DIST : option Q;
  MIN_CTX_HITS : option Z;
  DOC_CTX_CHUNKS : option Z
}.

Section Pipeline.

(** The external collaborators of [bedrock.py] and [retrieval.py]. *)
Variable embed_texts : list string -> result (list (list Q)).
Variable retrieve_by_embedding : list Q -> Z -> result (list Hit).
Variable generate_text : string -> result (option string).

(** *** [app/graph.py] *)

Definition _embed_node (state : QAState) : result QAState :=
  q <- item "q" (st_q state) ;;
  embs <- embed_texts [q] ;;
  emb <- unpack1 embs ;;
  let state := set_query_emb state emb in
  Ok (set_coarse_k state (Z.max (get_or (st_k state) 6) 12)).

Definition _retrieve_node (state : QAState) : result QAState :=
  query_emb <- item "query_emb" (st_query_emb state) ;;
  coarse_k <- item "coarse_k" (st_coarse_k state) ;;
  hits <- retrieve_by_embedding query_emb coarse_k ;;
  Ok (set_coarse_hits state hits).

Definition _select_doc_node (state : QAState) : result QAState :=
  let hits := get_or_nil (st_coarse_hits state) in
  match hits with
  | [] =>
      let state := set_abstain state true in
      Ok (set_debug state [("reason", JStr "no_hits")])
  | _ :: _ =>
      let doc_counts := Counter (map doc_uri hits) in
      let doc_min := build_doc_min hits in
      best_doc <- pick_best_doc doc_min doc_counts ;;
      let state := set_best_doc state best_doc in
      let doc_hits := narrow best_doc hits (get_or (st_doc_ctx_chunks state) 4) in
      let state := set_doc_hits state doc_hits in
      Ok (set_best_dist state (best_dist_of doc_hits))
  end.

Definition _gate_node (state : QAState) : result QAState :=
  if flt (get_or (st_max_cosine_dist state) 0.65%Q)
         (get_or (st_best_dist state) one_f)
     || (len (get_or_nil (st_doc_hits state)) <? get_or (st_min_hits state) 1)
  then Ok (set_abstain state true)
  else Ok (set_abstain state false).

Definition _reason_node (state : QAState) : result QAState :=
  doc_hits <- item "doc_hits" (st_doc_hits state) ;;
  let context := join (nl ++ nl) (map (fun h => strip (chunk h)) doc_hits) in
  q <- item "q" (st_q state) ;;
  let prompt := build_prompt context q in
  generated <- generate_text prompt ;;
  let answer := strip (or_empty generated) in
  let state := set_answer state answer in
  best_doc <- item "best_doc" (st_best_doc state) ;;
  let state := set_citations state [citation best_doc] in
  Ok (set_debug state
        [("best_dist", opt_float (st_best_dist state));
         ("hits", JInt (len (get_or_nil (st_coarse_hits state))));
         ("unique_docs",
          JInt (count_distinct (map doc_uri (get_or_nil (st_coarse_hits state)))));
         ("selected_doc", opt_str (st_best_doc state));
         ("chunks_used", JInt (len (get_or_nil (st_doc_hits state))))]).

Definition _abstain_out_node (state : QAState) : result QAState :=
  let state := set_answer state ABSTAIN_MESSAGE in
  let state := set_citations state [] in
  let debug := get_or (st_debug state) [] in
  Ok (set_debug state
        (dict_update debug
           [("best_dist", opt_float (st_best_dist state));
            ("hits", JInt (len (get_or_nil (st_coarse_hits state))));
            ("selected_doc", opt_str (st_best_doc state))])).

(** The body of a node. *)
Definition run_node (n : Node) (state : QAState) : result QAState :=
  match n with
  | embed => _embed_node state
  | retrieve => _retrieve_node state
  | select_doc => _select_doc_node state
  | gate => _gate_node state
  | reason => _reason_node state
  | abstain_out => _abstain_out_node state
  | END => Ok state
  end.

(** The edges added to [_builder]; the one out of [gate] is conditional:
    ["reason" if not s.get("abstain") else "abstain_out"]. *)
Definition next_node (n : Node) (state : QAState) : Node :=
  match n with
  | embed => retrieve
  | retrieve => select_doc
  | select_doc => gate
  | gate => if get_or (st_abstain state) false then abstain_out else reason
  | reason => END
  | abstain_out => END
  | END => END
  end.

(** Running the compiled graph from a node, within a step budget. *)
Fixpoint run_from (limit : nat) (n : Node) (state : QAState) : result QAState :=
  match n with
  | END => Ok state
  | _ =>
      match limit with
      | O => Err GraphRecursionError
      | S limit' =>
          state' <- run_node n state ;;
          run_from limit' (next_node n state') state'
      end
  end.

(** [qa_graph.invoke(state)], entry point [embed].  The bound stands for
    the default recursion limit 25, which a run of at most five nodes never
    reaches; it is not a model of other limits. *)
Definition qa_graph_invoke (state : QAState) : result QAState :=
  run_from 25 embed state.

Definition initial_state (q : string) (k : Z) (max_cosine_dist : Q)
    (min_hits doc_ctx_chunks : Z) : QAState :=
  mkQAState (Some q) (Some k) (Some max_cosine_dist) (Some min_hits)
    (Some doc_ctx_chunks) None None None None None None None None None None.

Definition run_qa (q : string) (k : Z) (max_cosine_dist : Q)
    (min_hits doc_ctx_chunks : Z) : result (dict jval) :=
  let state := initial_state q k max_cosine_dist min_hits doc_ctx_chunks in
  out <- qa_graph_invoke state ;;
  answer <- item "answer" (st_answer out) ;;
  citations <- item "citations" (st_citations out) ;;
  Ok [("answer", JStr answer);
      ("citations", JList (map citation_json citations));
      ("debug", JDict (get_or (st_debug out) []))].

(** *** [app/main.py] *)

(** The [try] block of [ask] for a request whose numbers have been read:
    [payload_q] and [payload_k] are the ["q"] and ["k"] entries of the
    request body when present, a string and an integer.  The conversions
    [str(..)], [int(..)] and [float(..)] and their failures are modelled in
    [ask_request_try]. *)
Definition ask_try (env : Env) (payload_q : option string)
    (payload_k : option Z) : result Response :=
  let q := strip (get_or payload_q "") in
  let k := get_or payload_k 6 in
  if String.eqb q "" then
    Ok (JSONResponse [("error", JStr "Missing 'q' in body")] 400)
  else
    let max_cosine_dist := get_or (MAX_COSINE_DIST env) 0.65%Q in
    let min_hits := get_or (MIN_CTX_HITS env) 1 in
    let coarse_k := Z.max k 12 in
    let doc_ctx_chunks := get_or (DOC_CTX_CHUNKS env) 4 in
    embs <- embed_texts [q] ;;
    emb <- unpack1 embs ;;
    coarse_hits <- retrieve_by_embedding emb coarse_k ;;
    match coarse_hits with
    | [] =>
        Ok (JSONResponse
              [("answer", JStr ABSTAIN_MESSAGE);
               ("citations", JList []);
               ("abstained", JBool true);
               ("debug", JDict [("reason", JStr "no_hits")])] 200)
    | _ :: _ =>
        let doc_counts := Counter (map doc_uri coarse_hits) in
        let doc_min := build_doc_min coarse_hits in
        best_doc <- pick_best_doc doc_min doc_counts ;;
        let doc_hits := narrow best_doc coarse_hits doc_ctx_chunks in
        let best_dist := best_dist_of doc_hits in
        if flt max_cosine_dist best_dist || (len doc_hits <? min_hits) then
          Ok (JSONResponse
                [("answer", JStr ABSTAIN_MESSAGE);
                 ("citations", JList []);
                 ("abstained", JBool true);
                 ("debug", JDict
                    [("best_dist", JFloat best_dist);
                     ("hits", JInt (len coarse_hits));
                     ("unique_docs", JInt (len doc_counts));
                     ("selected_doc", JStr best_doc)])] 200)
        else
          let context := join (nl ++ nl) (map (fun h => strip (chunk h)) doc_hits) in
          let prompt := build_prompt context q in
          generated <- generate_text prompt ;;
          let answer := strip (or_empty generated) in
          let citations := [citation best_doc] in
          Ok (mkResponse 200
                [("answer", JStr answer);
                 ("citations", JList (map citation_json citations));
                 ("debug", JDict
                    [("best_dist", JFloat best_dist);
                     ("hits", JInt (len coarse_hits));
                     ("unique_docs", JInt (len doc_counts));
                     ("selected_doc", JStr best_doc);
                     ("chunks_used", JInt (len doc_hits))])])
    end.

(** [ask]: any exception becomes a 500 response carrying [str(e)]. *)
Definition ask (env : Env) (payload_q : option string) (payload_k : option Z)
    : Response :=
  match ask_try env payload_q payload_k with
  | Ok r => r
  | Err e => JSONResponse [("detail", JStr (exn_str e))] 500
  end.

End Pipeline.

(** * Properties *)

(** ** Comparisons *)

Lemma flt_true_iff (x y : Q) : flt x y = true <-> (x < y)%Q.
Proof.
  unfold flt. rewrite Qlt_alt. destruct (x ?= y)%Q; split; congruence.
Qed.

Lemma flt_false_iff (x y : Q) : flt x y = false <-> (y <= x)%Q.
Proof.
  split; intro H.
  - apply Qnot_lt_le. intro L. apply flt_true_iff in L. congruence.
  - destruct (flt x y) eqn:E; [|reflexivity].
    apply flt_true_iff in E. exfalso. exact (Qlt_not_le _ _ E H).
Qed.

Lemma fmin2_le_l (a b : Q) : (fmin2 a b <= a)%Q.
Proof.
  unfold fmin2. destruct (flt b a) eqn:E.
  - apply Qlt_le_weak, flt_true_iff, E.
  - apply Qle_refl.
Qed.

Lemma fmin2_le_r (a b : Q) : (fmin2 a b <= b)%Q.
Proof.
  unfold fmin2. destruct (flt b a) eqn:E.
  - apply Qle_refl.
  - apply flt_false_iff, E.
Qed.

Lemma fmin2_cases (a b : Q) : fmin2 a b = a \/ fmin2 a b = b.
Proof. unfold fmin2. destruct (flt b a); auto. Qed.

(** ** Dictionaries *)

Section DictFacts.
Context {V : Type}.
Implicit Types (d : dict V) (k : string) (v : V).

Lemma dict_get_set_eq d k v : dict_get (dict_set d k v) k = Some v.
Proof.
  induction d as [|[k' v'] r IH]; simpl.
  - now rewrite String.eqb_refl.
  - destruct (String.eqb k k') eqn:E; simpl; rewrite E; auto.
Qed.

Lemma dict_get_set_neq d k k' v :
  k' <> k -> dict_get (dict_set d k v) k' = dict_get d k'.
Proof.
  intro N. induction d as [|[k0 v0] r IH]; simpl.
  - apply String.eqb_neq in N. now rewrite N.
  - destruct (String.eqb k k0) eqn:E; simpl.
    + apply String.eqb_eq in E. subst k0.
      apply String.eqb_neq in N. now rewrite N.
    + destruct (String.eqb k' k0); auto.
Qed.

Lemma dict_keys_set d k v :
  dict_keys (dict_set d k v) =
  if dict_has d k then dict_keys d else (dict_keys d ++ [k])%list.
Proof.
  unfold dict_has, dict_keys.
  induction d as [|[k0 v0] r IH]; simpl; [reflexivity|].
  destruct (String.eqb k k0) eqn:E; simpl; [reflexivity|].
  rewrite IH. destruct (dict_get r k); reflexivity.
Qed.

Lemma dict_has_in_keys d k : dict_has d k = true <-> In k (dict_keys d).
Proof.
  unfold dict_has, dict_keys.
  induction d as [|[k0 v0] r IH]; simpl.
  - split; [discriminate | tauto].
  - destruct (String.eqb k k0) eqn:E.
    + apply String.eqb_eq in E. subst. tauto.
    + apply String.eqb_neq in E. rewrite IH. split; [tauto|].
      intros [H|H]; [congruence | exact H].
Qed.

Lemma dict_keys_set_in d k v k' :
  In k' (dict_keys (dict_set d k v)) <-> k' = k \/ In k' (dict_keys d).
Proof.
  rewrite dict_keys_set. destruct (dict_has d k) eqn:E.
  - apply dict_has_in_keys in E. split; [tauto|]. intros [->|H]; auto.
  - rewrite in_app_iff. simpl. split; [intros [H|[H|[]]]; auto|].
    intros [H|H]; auto.
Qed.

End DictFacts.

(** ** Votes and per-document minima *)

(** The number of coarse hits of document [d]. *)
Definition vote_count (d : string) (hits : list Hit) : Z :=
  len (hits_of_doc d hits).

(** [m] is the smallest distance among the hits of document [d]. *)
Definition is_min_distance (d : string) (hits : list Hit) (m : Q) : Prop :=
  (exists h, In h hits /\ doc_uri h = d /\ (dist h == m)%Q) /\
  (forall h, In h hits -> doc_uri h = d -> (m <= dist h)%Q).

Lemma Counter_fold (hits : list Hit) (c : dict Z) (d : string) :
  counter_get
    (fold_left (fun c x => dict_set c x (dict_get_or c x 0 + 1))
       (map doc_uri hits) c) d
  = counter_get c d + vote_count d hits.
Proof.
  unfold vote_count, len, hits_of_doc. revert c.
  induction hits as [|h r IH]; intros c; simpl.
  - lia.
  - rewrite IH. unfold counter_get, dict_get_or.
    destruct (String.eqb (doc_uri h) d) eqn:E.
    + apply String.eqb_eq in E. subst d. rewrite dict_get_set_eq.
      simpl Datatypes.length. lia.
    + apply String.eqb_neq in E. rewrite dict_get_set_neq by congruence. lia.
Qed.

(** [doc_counts[d]] is the number of hits of [d]. *)
Lemma doc_counts_spec (hits : list Hit) (d : string) :
  counter_get (Counter (map doc_uri hits)) d = vote_count d hits.
Proof. unfold Counter. rewrite Counter_fold. reflexivity. Qed.

(** The value the loop leaves in [doc_min[d]]: the seed [1.0] folded with
    [min] over the distances of the hits of [d], in order. *)
Definition capped_min (d : string) (hits : list Hit) (seed : Q) : Q :=
  fold_left (fun m h => if String.eqb (doc_uri h) d then fmin2 m (dist h) else m)
    hits seed.

Lemma build_doc_min_fold (hits : list Hit) (dm : dict Q) (d : string) :
  dict_get_or
    (fold_left
       (fun doc_min h =>
          let d := doc_uri h in
          dict_set doc_min d (fmin2 (dict_get_or doc_min d one_f) (dist h)))
       hits dm) d one_f
  = capped_min d hits (dict_get_or dm d one_f).
Proof.
  unfold capped_min. revert dm.
  induction hits as [|h r IH]; intros dm; simpl; [reflexivity|].
  rewrite IH. f_equal. unfold dict_get_or at 1.
  destruct (String.eqb (doc_uri h) d) eqn:E.
  - apply String.eqb_eq in E. subst d. now rewrite dict_get_set_eq.
  - apply String.eqb_neq in E. rewrite dict_get_set_neq by congruence.
    reflexivity.
Qed.

Lemma doc_min_value (hits : list Hit) (d : string) :
  dict_get_or (build_doc_min hits) d one_f = capped_min d hits one_f.
Proof. unfold build_doc_min. now rewrite build_doc_min_fold. Qed.

Lemma build_doc_min_keys_fold (hits : list Hit) (dm : dict Q) (d : string) :
  In d (dict_keys
          (fold_left
             (fun doc_min h =>
                let d := doc_uri h in
                dict_set doc_min d (fmin2 (dict_get_or doc_min d one_f) (dist h)))
             hits dm))
  <-> In d (dict_keys dm) \/ exists h, In h hits /\ doc_uri h = d.
Proof.
  revert dm. induction hits as [|h r IH]; intros dm; simpl.
  - split; [auto | intros [H|[h [[] _]]]; exact H].
  - rewrite IH, dict_keys_set_in. split.
    + intros [[->|H]|[h' [H1 H2]]]; eauto.
    + intros [H|[h' [[->|H1] H2]]]; eauto.
Qed.

(** The keys of [doc_min] are the documents that have a hit. *)
Lemma doc_min_keys (hits : list Hit) (d : string) :
  In d (dict_keys (build_doc_min hits)) <-> exists h, In h hits /\ doc_uri h = d.
Proof.
  unfold build_doc_min. rewrite build_doc_min_keys_fold. simpl. tauto.
Qed.

Lemma capped_min_le_seed (d : string) (hits : list Hit) (seed : Q) :
  (capped_min d hits seed <= seed)%Q.
Proof.
  unfold capped_min. revert seed.
  induction hits as [|h r IH]; intros seed; simpl; [apply Qle_refl|].
  destruct (String.eqb (doc_uri h) d).
  - eapply Qle_trans; [apply IH | apply fmin2_le_l].
  - apply IH.
Qed.

Lemma capped_min_le_hit (d : string) (hits : list Hit) (seed : Q) (h : Hit) :
  In h hits -> doc_uri h = d -> (capped_min d hits seed <= dist h)%Q.
Proof.
  unfold capped_min. revert seed.
  induction hits as [|h0 r IH]; intros seed [].
  - subst h0. intros E. simpl. apply String.eqb_eq in E. rewrite E.
    eapply Qle_trans; [apply capped_min_le_seed | apply fmin2_le_r].
  - intros E. simpl. now apply IH.
Qed.

Lemma capped_min_attained (d : string) (hits : list Hit) (seed : Q) :
  capped_min d hits seed = seed \/
  exists h, In h hits /\ doc_uri h = d /\ dist h = capped_min d hits seed.
Proof.
  unfold capped_min. revert seed.
  induction hits as [|h r IH]; intros seed; simpl; [auto|].
  destruct (String.eqb (doc_uri h) d) eqn:E.
  - apply String.eqb_eq in E.
    destruct (IH (fmin2 seed (dist h))) as [H|[h' [H1 [H2 H3]]]].
    + rewrite H. destruct (fmin2_cases seed (dist h)) as [F|F]; rewrite F.
      * now left.
      * right. exists h. auto.
    + right. exists h'. auto.
  - destruct (IH seed) as [H|[h' [H1 [H2 H3]]]]; [now left|].
    right. exists h'. auto.
Qed.

(** When no distance exceeds [1.0], [doc_min[d]] is the smallest distance of
    the hits of [d]. *)
Lemma doc_min_spec_le_one (hits : list Hit) (d : string) :
  (forall h, In h hits -> (dist h <= one_f)%Q) ->
  (exists h, In h hits /\ doc_uri h = d) ->
  is_min_distance d hits (dict_get_or (build_doc_min hits) d one_f).
Proof.
  intros Hle [h0 [Hin Hd]]. rewrite doc_min_value. split.
  - destruct (capped_min_attained d hits one_f) as [E|[h [H1 [H2 H3]]]].
    + exists h0. repeat split; auto. rewrite E. apply Qle_antisym.
      * now apply Hle.
      * rewrite <- E. now apply capped_min_le_hit.
    + exists h. repeat split; auto. rewrite H3. reflexivity.
  - intros h H1 H2. now apply capped_min_le_hit.
Qed.

(** ** [min] with a key *)

Section MinBy.
Context {A K : Type}.
Variable lt : K -> K -> bool.
Variable key : A -> K.
Hypothesis lt_irrefl : forall a, lt a a = false.
Hypothesis lt_trans :
  forall a b c, lt a b = true -> lt b c = true -> lt a c = true.

Let step (best y : A) : A := if lt (key y) (key best) then y else best.

Lemma min_fold_in (r : list A) (x : A) :
  fold_left step r x = x \/ In (fold_left step r x) r.
Proof.
  revert x. induction r as [|y r IH]; intros x; simpl; [now left|].
  destruct (IH (step x y)) as [H|H]; [|now right; right].
  rewrite H. unfold step. destruct (lt (key y) (key x)); auto.
Qed.

Lemma min_fold_keeps (r : list A) (x z : A) :
  lt (key z) (key x) = false ->
  lt (key z) (key (fold_left step r x)) = false.
Proof.
  revert x. induction r as [|y r IH]; intros x Hz; simpl; [exact Hz|].
  apply IH. unfold step. destruct (lt (key y) (key x)) eqn:E; [|exact Hz].
  destruct (lt (key z) (key y)) eqn:E'; [|reflexivity].
  rewrite (lt_trans _ _ _ E' E) in Hz. discriminate.
Qed.

Lemma lt_asym (a b : K) : lt a b = true -> lt b a = false.
Proof.
  intro H. destruct (lt b a) eqn:E; [|reflexivity].
  rewrite <- (lt_irrefl a). symmetry. now apply lt_trans with b.
Qed.

Lemma min_fold_minimal (r : list A) (x z : A) :
  In z (x :: r) -> lt (key z) (key (fold_left step r x)) = false.
Proof.
  revert x. induction r as [|y r IH]; intros x Hin; simpl.
  - destruct Hin as [->|[]]. apply lt_irrefl.
  - destruct Hin as [->|[->|Hin]].
    + apply min_fold_keeps. unfold step.
      destruct (lt (key y) (key z)) eqn:E; [now apply lt_asym | apply lt_irrefl].
    + apply min_fold_keeps. unfold step.
      destruct (lt (key z) (key x)) eqn:E; [apply lt_irrefl | exact E].
    + apply IH. now right.
Qed.

(** [min(xs, key=key)] returns an element of [xs] that no element beats. *)
Lemma py_min_by_spec (xs : list A) (m : A) :
  py_min_by lt key xs = Ok m ->
  In m xs /\ forall z, In z xs -> lt (key z) (key m) = false.
Proof.
  destruct xs as [|x r]; simpl; [discriminate|].
  intros E. injection E as <-. split.
  - pose proof (min_fold_in r x) as H. unfold step in H.
    destruct H as [H|H]; [left; now rewrite H | now right].
  - intros z Hz. pose proof (min_fold_minimal r x z Hz) as H. exact H.
Qed.

Lemma py_min_by_total (xs : list A) :
  xs <> [] -> exists m, py_min_by lt key xs = Ok m.
Proof. destruct xs; [congruence | simpl; eauto]. Qed.

End MinBy.

(** ** The order on selection keys *)

(** [(m1, -c1) < (m2, -c2)] as the lexicographic order on [float * int]. *)
Definition key_less (a b : Q * Z) : Prop :=
  (fst a < fst b)%Q \/ ((fst a == fst b)%Q /\ snd a < snd b).

Lemma key_lt_iff (a b : Q * Z) : key_lt a b = true <-> key_less a b.
Proof.
  unfold key_lt, key_less, feq. destruct a as [a1 a2], b as [b1 b2]; simpl.
  destruct (Qeq_bool a1 b1) eqn:E; simpl.
  - apply Qeq_bool_iff in E. destruct (a2 =? b2) eqn:E2; simpl.
    + apply Z.eqb_eq in E2. split; [discriminate|].
      intros [H|[_ H]]; [|lia]. rewrite E in H. now apply Qlt_irrefl in H.
    + rewrite Z.ltb_lt. split; [auto|].
      intros [H|[_ H]]; [|exact H]. rewrite E in H. now apply Qlt_irrefl in H.
  - apply Qeq_bool_neq in E. rewrite flt_true_iff. split; [auto|].
    intros [H|[H _]]; [exact H | contradiction].
Qed.

Lemma key_lt_irrefl (a : Q * Z) : key_lt a a = false.
Proof.
  destruct (key_lt a a) eqn:E; [|reflexivity].
  apply key_lt_iff in E. destruct E as [H|[_ H]].
  - now apply Qlt_irrefl in H.
  - lia.
Qed.

Lemma key_lt_trans (a b c : Q * Z) :
  key_lt a b = true -> key_lt b c = true -> key_lt a c = true.
Proof.
  rewrite !key_lt_iff. unfold key_less.
  intros [H1|[H1 H1']] [H2|[H2 H2']].
  - left. now apply Qlt_trans with (fst b).
  - left. now rewrite <- H2.
  - left. now rewrite H1.
  - right. split; [now rewrite H1 | lia].
Qed.

(** No key beats the other exactly when it is at most the other. *)
Lemma key_lt_false_iff (a b : Q * Z) :
  key_lt a b = false <->
  (fst b < fst a)%Q \/ ((fst b == fst a)%Q /\ snd b <= snd a).
Proof.
  split.
  - intros H.
    destruct (Q_dec (fst a) (fst b)) as [[L|G]|E].
    + assert (key_lt a b = true) by (apply key_lt_iff; now left). congruence.
    + now left.
    + right. split; [now symmetry|].
      destruct (Z_lt_le_dec (snd a) (snd b)) as [L|G]; [|exact G].
      assert (key_lt a b = true) by (apply key_lt_iff; right; now split).
      congruence.
  - intros H. destruct (key_lt a b) eqn:E; [|reflexivity].
    apply key_lt_iff in E. exfalso.
    destruct H as [H|[H H']], E as [E|[E E']].
    + exact (Qlt_irrefl _ (Qlt_trans _ _ _ H E)).
    + rewrite E in H. exact (Qlt_irrefl _ H).
    + rewrite H in E. exact (Qlt_irrefl _ E).
    + lia.
Qed.

(** ** Sorting by distance *)

Definition dist_le (a b : Hit) : Prop := (dist a <= dist b)%Q.

Lemma dist_le_trans (a b c : Hit) : dist_le a b -> dist_le b c -> dist_le a c.
Proof. unfold dist_le. apply Qle_trans. Qed.

Lemma insert_by_dist_perm (x : Hit) (l : list Hit) :
  Permutation (insert_by_dist x l) (x :: l).
Proof.
  induction l as [|y t IH]; simpl; [reflexivity|].
  destruct (flt (dist y) (dist x)); [|reflexivity].
  rewrite IH. apply perm_swap.
Qed.

Lemma sorted_by_dist_perm (l : list Hit) : Permutation (sorted_by_dist l) l.
Proof.
  induction l as [|x t IH]; simpl; [reflexivity|].
  rewrite insert_by_dist_perm. now constructor.
Qed.

Lemma insert_by_dist_hdrel (a x : Hit) (l : list Hit) :
  dist_le a x -> HdRel dist_le a l -> HdRel dist_le a (insert_by_dist x l).
Proof.
  intros Hax H. destruct l as [|y t]; simpl.
  - now constructor.
  - inversion H; subst. destruct (flt (dist y) (dist x)); now constructor.
Qed.

Lemma insert_by_dist_sorted (x : Hit) (l : list Hit) :
  Sorted dist_le l -> Sorted dist_le (insert_by_dist x l).
Proof.
  induction l as [|y t IH]; intros H; simpl.
  - repeat constructor.
  - inversion H; subst. destruct (flt (dist y) (dist x)) eqn:E.
    + constructor; [now apply IH|].
      apply insert_by_dist_hdrel; [|assumption].
      apply Qlt_le_weak, flt_true_iff, E.
    + constructor; [assumption|]. constructor. apply flt_false_iff, E.
Qed.

Lemma sorted_by_dist_sorted (l : list Hit) :
  StronglySorted dist_le (sorted_by_dist l).
Proof.
  apply Sorted_StronglySorted; [exact dist_le_trans|].
  induction l as [|x t IH]; simpl; [constructor|].
  now apply insert_by_dist_sorted.
Qed.

(** Stability: hits of equal distance keep their relative order. *)
Lemma insert_by_dist_stable (v : Q) (x : Hit) (l : list Hit) :
  filter (fun h => feq (dist h) v) (insert_by_dist x l)
  = filter (fun h => feq (dist h) v) (x :: l).
Proof.
  induction l as [|y t IH]; [reflexivity|].
  simpl insert_by_dist. destruct (flt (dist y) (dist x)) eqn:E; [|reflexivity].
  simpl. simpl in IH. rewrite IH.
  destruct (feq (dist x) v) eqn:Ex; [|reflexivity].
  destruct (feq (dist y) v) eqn:Ey; [|reflexivity].
  unfold feq in *. apply Qeq_bool_iff in Ex, Ey. apply flt_true_iff in E.
  rewrite Ex, Ey in E. now apply Qlt_irrefl in E.
Qed.

Lemma sorted_by_dist_stable (v : Q) (l : list Hit) :
  filter (fun h => feq (dist h) v) (sorted_by_dist l)
  = filter (fun h => feq (dist h) v) l.
Proof.
  induction l as [|x t IH]; [reflexivity|].
  simpl sorted_by_dist. rewrite insert_by_dist_stable. simpl. now rewrite IH.
Qed.

Lemma in_firstn {A : Type} (n : nat) (l : list A) (x : A) :
  In x (firstn n l) -> In x l.
Proof.
  intros H. rewrite <- (firstn_skipn n l). apply in_or_app. now left.
Qed.

Lemma in_skipn {A : Type} (n : nat) (l : list A) (x : A) :
  In x (skipn n l) -> In x l.
Proof.
  intros H. rewrite <- (firstn_skipn n l). apply in_or_app. now right.
Qed.

(** In a sorted list every kept hit is at most as far as every dropped one. *)
Lemma sorted_firstn_skipn (n : nat) (l : list Hit) (a b : Hit) :
  StronglySorted dist_le l ->
  In a (firstn n l) -> In b (skipn n l) -> dist_le a b.
Proof.
  intros H. revert n. induction H as [|x t Hs IH Hall]; intros n Ha Hb.
  - rewrite firstn_nil in Ha. destruct Ha.
  - destruct n as [|n]; simpl in *; [destruct Ha|].
    destruct Ha as [->|Ha].
    + rewrite Forall_forall in Hall. apply Hall. exact (in_skipn n t b Hb).
    + now apply (IH n).
Qed.

(** ** Narrowing and the best distance *)

Lemma hits_of_doc_in (d : string) (hits : list Hit) (h : Hit) :
  In h (hits_of_doc d hits) <-> In h hits /\ doc_uri h = d.
Proof.
  unfold hits_of_doc. rewrite filter_In, String.eqb_eq. reflexivity.
Qed.

Lemma narrow_in (d : string) (hits : list Hit) (n : Z) (h : Hit) :
  In h (narrow d hits n) -> In h hits /\ doc_uri h = d.
Proof.
  unfold narrow, take. intros H. apply in_firstn in H.
  apply (Permutation_in _ (sorted_by_dist_perm _)) in H.
  now apply hits_of_doc_in.
Qed.

Lemma narrow_length (d : string) (hits : list Hit) (n : Z) :
  len (narrow d hits n) = Z.min (Z.max 2 n) (len (hits_of_doc d hits)).
Proof.
  unfold narrow, take, len. rewrite length_firstn.
  rewrite (Permutation_length (sorted_by_dist_perm _)). lia.
Qed.

Lemma narrow_nonempty (d : string) (hits : list Hit) (n : Z) :
  (exists h, In h hits /\ doc_uri h = d) -> narrow d hits n <> [].
Proof.
  intros [h H] E. apply hits_of_doc_in in H.
  pose proof (narrow_length d hits n) as L. rewrite E in L.
  unfold len in L. simpl in L.
  destruct (hits_of_doc d hits); [destruct H|]. simpl Datatypes.length in L. lia.
Qed.

Lemma flt_irrefl (x : Q) : flt x x = false.
Proof. apply flt_false_iff, Qle_refl. Qed.

Lemma flt_trans (a b c : Q) : flt a b = true -> flt b c = true -> flt a c = true.
Proof. rewrite !flt_true_iff. apply Qlt_trans. Qed.

Lemma fmin_default_py_min (xs : list Q) (d : Q) :
  fmin_default xs d =
  match py_min_by flt (fun x => x) xs with
  | Ok m => m
  | Err _ => d
  end.
Proof. destruct xs; reflexivity. Qed.

(** [best_dist] is the distance of a kept hit and no kept hit is closer;
    it is [1.0] when nothing is kept. *)
Lemma best_dist_of_spec (doc_hits : list Hit) :
  (doc_hits = [] -> best_dist_of doc_hits = one_f) /\
  (doc_hits <> [] ->
   (exists h, In h doc_hits /\ dist h = best_dist_of doc_hits) /\
   (forall h, In h doc_hits -> (best_dist_of doc_hits <= dist h)%Q)).
Proof.
  split; [intros ->; reflexivity|]. intros N.
  unfold best_dist_of. rewrite fmin_default_py_min.
  destruct (py_min_by_total flt (fun x => x) (map dist doc_hits)) as [m Hm].
  { destruct doc_hits; [congruence | discriminate]. }
  rewrite Hm.
  apply (py_min_by_spec flt (fun x => x) flt_irrefl flt_trans) in Hm.
  destruct Hm as [Hin Hmin]. split.
  - apply in_map_iff in Hin. destruct Hin as [h [E Hh]]. eauto.
  - intros h Hh. apply flt_false_iff, Hmin, in_map, Hh.
Qed.

(** ** Document selection *)

Lemma pick_best_doc_total (hits : list Hit) :
  hits <> [] ->
  exists d, pick_best_doc (build_doc_min hits) (Counter (map doc_uri hits)) = Ok d.
Proof.
  intros N. apply py_min_by_total. intros E.
  destruct hits as [|h r]; [congruence|].
  assert (In (doc_uri h) (dict_keys (build_doc_min (h :: r)))) as H.
  { apply doc_min_keys. exists h. split; [now left | reflexivity]. }
  rewrite E in H. destruct H.
Qed.

(** The selected document has a hit, and no document with a hit has a
    smaller key [(doc_min[d], -doc_counts[d])]. *)
Lemma pick_best_doc_spec (hits : list Hit) (d : string) :
  pick_best_doc (build_doc_min hits) (Counter (map doc_uri hits)) = Ok d ->
  (exists h, In h hits /\ doc_uri h = d) /\
  forall d', (exists h, In h hits /\ doc_uri h = d') ->
    key_lt (capped_min d' hits one_f, - vote_count d' hits)
           (capped_min d hits one_f, - vote_count d hits) = false.
Proof.
  intros E.
  apply (py_min_by_spec key_lt _ key_lt_irrefl key_lt_trans) in E.
  destruct E as [Hin Hmin]. split; [now apply doc_min_keys|].
  intros d' Hd'. apply doc_min_keys in Hd'. specialize (Hmin d' Hd').
  now rewrite !doc_min_value, !doc_counts_spec in Hmin.
Qed.

Lemma is_min_distance_unique (d : string) (hits : list Hit) (m m' : Q) :
  is_min_distance d hits m -> is_min_distance d hits m' -> (m == m')%Q.
Proof.
  intros [[h [H1 [H2 H3]]] L] [[h' [H1' [H2' H3']]] L'].
  apply Qle_antisym.
  - rewrite <- H3'. now apply L.
  - rewrite <- H3. now apply L'.
Qed.

(** When no coarse distance exceeds [1.0], selection minimizes
    [(min_distance, -vote_count)]: the closest document wins and, among
    equally close documents, the one with more hits. *)
Lemma select_minimizes_le_one (hits : list Hit) (d : string) :
  (forall h, In h hits -> (dist h <= one_f)%Q) ->
  pick_best_doc (build_doc_min hits) (Counter (map doc_uri hits)) = Ok d ->
  exists m, is_min_distance d hits m /\
    forall d' m', is_min_distance d' hits m' ->
      (m < m')%Q \/ ((m == m')%Q /\ vote_count d' hits <= vote_count d hits).
Proof.
  intros Hle E. apply pick_best_doc_spec in E. destruct E as [Hd Hmin].
  exists (capped_min d hits one_f). split.
  - rewrite <- doc_min_value. now apply doc_min_spec_le_one.
  - intros d' m' Hm'.
    assert (exists h, In h hits /\ doc_uri h = d') as Hd'.
    { destruct Hm' as [[h [H1 [H2 _]]] _]. eauto. }
    assert (m' == capped_min d' hits one_f)%Q as Em.
    { apply (is_min_distance_unique d' hits); [exact Hm'|].
      rewrite <- doc_min_value. now apply doc_min_spec_le_one. }
    specialize (Hmin d' Hd'). apply key_lt_false_iff in Hmin. simpl in Hmin.
    rewrite Em. destruct Hmin as [H|[H H']]; [now left|].
    right. split; [exact H | lia].
Qed.

Lemma select_doc_node_hits (s : QAState) (hits : list Hit) :
  st_coarse_hits s = Some hits -> hits <> [] ->
  exists d,
    pick_best_doc (build_doc_min hits) (Counter (map doc_uri hits)) = Ok d /\
    _select_doc_node s =
    Ok (set_best_dist
          (set_doc_hits (set_best_doc s d)
             (narrow d hits (get_or (st_doc_ctx_chunks s) 4)))
          (best_dist_of (narrow d hits (get_or (st_doc_ctx_chunks s) 4)))).
Proof.
  intros E N. destruct (pick_best_doc_total hits N) as [d Hd].
  exists d. split; [exact Hd|].
  unfold _select_doc_node. rewrite E. simpl get_or_nil.
  destruct hits as [|h r]; [congruence|]. rewrite Hd. reflexivity.
Qed.

Lemma select_doc_node_no_hits (s : QAState) :
  get_or_nil (st_coarse_hits s) = [] ->
  _select_doc_node s = Ok (set_debug (set_abstain s true) [("reason", JStr "no_hits")]).
Proof. intros E. unfold _select_doc_node. now rewrite E. Qed.

(** A chunk of document [d] at distance [x]. *)
Definition hit (d : string) (x : Q) : Hit := mkHit d ("text of " ++ d) JNull x.

(** The hits of Example 1. *)
Definition example1_hits : list Hit := [hit "A" 0.40; hit "A" 0.50; hit "B" 0.30].

Example example1_select :
  exists s',
    _select_doc_node (set_coarse_hits (initial_state "q" 6 0.65 1 4) example1_hits)
    = Ok s' /\
    st_best_doc s' = Some "B" /\
    st_doc_hits s' = Some [hit "B" 0.30] /\
    st_best_dist s' = Some 0.30%Q.
Proof. eexists. split; [reflexivity|]. repeat split. Qed.

(** Settles [is_min_distance d hits m] on a literal hit list, given the hit
    [w] that attains the minimum. *)
Ltac solve_is_min w :=
  split;
  [ exists w; split; [simpl; tauto | split; reflexivity]
  | let h := fresh "h" in
    let Hin := fresh "Hin" in
    let E := fresh "E" in
    intros h Hin E; simpl in Hin;
    repeat (destruct Hin as [<-|Hin]);
    try contradiction; try discriminate E;
    apply Qle_bool_iff; reflexivity ].

(** Three hits farther than [1.0]: one chunk of B at 1.1, two of A. *)
Definition far_hits : list Hit := [hit "A" 1.2; hit "A" 1.3; hit "B" 1.1].

(** C1 (the code departs from the claim).  On [far_hits] document B has the
    smallest per-document minimum distance (1.1 against 1.2), yet the
    select-document stage picks A: both entries of [doc_min] are stuck at
    the seed [1.0], so the vote count decides. *)
Theorem select_doc_far_hits_picks_farther_doc :
  is_min_distance "A" far_hits 1.2 /\
  is_min_distance "B" far_hits 1.1 /\
  (1.1 < 1.2)%Q /\
  build_doc_min far_hits = [("A", one_f); ("B", one_f)] /\
  exists s',
    _select_doc_node (set_coarse_hits (initial_state "q" 6 1.5 1 4) far_hits)
    = Ok s' /\
    st_best_doc s' = Some "A" /\
    st_best_dist s' = Some 1.2%Q.
Proof.
  split; [solve_is_min (hit "A" 1.2)|].
  split; [solve_is_min (hit "B" 1.1)|].
  split; [reflexivity|].
  split; [reflexivity|].
  eexists. split; [reflexivity|]. split; reflexivity.
Qed.

(** One hit farther than [1.0]. *)
Definition lone_far_hit : list Hit := [hit "A" 1.5].

(** C4 (the code departs from the claim).  For the single hit of A at
    distance 1.5 the smallest distance of A's hits is 1.5, but the computed
    [doc_min["A"]] is the seed [1.0]; the vote count is right.  The
    narrowed [best_dist] of the same stage is 1.5. *)
Theorem doc_min_capped_at_seed :
  is_min_distance "A" lone_far_hit 1.5 /\
  dict_get (build_doc_min lone_far_hit) "A" = Some one_f /\
  ~ is_min_distance "A" lone_far_hit one_f /\
  counter_get (Counter (map doc_uri lone_far_hit)) "A" = vote_count "A" lone_far_hit /\
  best_dist_of (narrow "A" lone_far_hit 4) = 1.5%Q.
Proof.
  split; [solve_is_min (hit "A" 1.5)|].
  split; [reflexivity|].
  split.
  - intros [[h [[<-|[]] [_ E]]] _]. revert E. simpl. discriminate.
  - split; reflexivity.
Qed.

(** C5.  After the select-document stage on a non-empty coarse hit list,
    [doc_hits] is the first [max(2, doc_ctx_chunks)] entries
    ([doc_ctx_chunks] read with default 4, so the bound is never below 2) of
    the selected document's hits sorted ascending by distance, equal
    distances in retrieval order: every kept hit is a coarse hit whose
    [doc_uri] is the selected document, no kept hit is farther than a
    dropped one, and [best_dist] is the smallest distance among the kept
    hits.  On an empty kept list the minimum falls back to [1.0]. *)
Theorem select_doc_narrows_and_records_best_dist (s : QAState) (hits : list Hit) :
  st_coarse_hits s = Some hits ->
  hits <> [] ->
  let n := Z.max 2 (get_or (st_doc_ctx_chunks s) 4) in
  exists s' d dh bd,
    _select_doc_node s = Ok s' /\
    st_best_doc s' = Some d /\
    st_doc_hits s' = Some dh /\
    st_best_dist s' = Some bd /\
    (let of_d := filter (fun h => String.eqb (doc_uri h) d) hits in
     exists l,
       Permutation l of_d /\
       (forall h, In h l <-> In h hits /\ doc_uri h = d) /\
       StronglySorted dist_le l /\
       (forall v, filter (fun h => feq (dist h) v) l
                  = filter (fun h => feq (dist h) v) of_d) /\
       dh = firstn (Z.to_nat n) l /\
       (forall a b, In a dh -> In b (skipn (Z.to_nat n) l) -> dist_le a b) /\
       len dh = Z.min n (len of_d)) /\
    Forall (fun h => In h hits /\ doc_uri h = d) dh /\
    2 <= n /\
    (get_or (st_doc_ctx_chunks s) 4 <= 2 -> n = 2) /\
    (st_doc_ctx_chunks s = None -> n = 4) /\
    dh <> [] /\
    (exists h, In h dh /\ dist h = bd) /\
    (forall h, In h dh -> (bd <= dist h)%Q) /\
    best_dist_of [] = 1%Q.
Proof.
  intros E N n.
  destruct (select_doc_node_hits s hits E N) as [d [Hd Hs]].
  pose proof (pick_best_doc_spec hits d Hd) as [Hhas _].
  set (dh := narrow d hits (get_or (st_doc_ctx_chunks s) 4)) in *.
  assert (dh <> []) as Hne by now apply narrow_nonempty.
  destruct (best_dist_of_spec dh) as [_ Hbd]. destruct (Hbd Hne) as [Hatt Hmin].
  exists (set_best_dist (set_doc_hits (set_best_doc s d) dh) (best_dist_of dh)),
    d, dh, (best_dist_of dh).
  split; [exact Hs|]. do 3 (split; [reflexivity|]).
  split.
  { cbv zeta. exists (sorted_by_dist (hits_of_doc d hits)).
    split; [apply sorted_by_dist_perm|].
    split.
    { intros h. split.
      - intros H. apply (Permutation_in _ (sorted_by_dist_perm _)) in H.
        now apply hits_of_doc_in.
      - intros H. apply hits_of_doc_in in H.
        exact (Permutation_in _ (Permutation_sym (sorted_by_dist_perm _)) H). }
    split; [apply sorted_by_dist_sorted|].
    split; [intros v; apply sorted_by_dist_stable|].
    split; [reflexivity|].
    split.
    { intros a b Ha Hb.
      exact (sorted_firstn_skipn _ _ a b (sorted_by_dist_sorted _) Ha Hb). }
    apply narrow_length. }
  split.
  { apply Forall_forall. intros h H. exact (narrow_in _ _ _ _ H). }
  split; [subst n; lia|].
  split; [subst n; lia|].
  split; [intros H; subst n; rewrite H; reflexivity|].
  split; [exact Hne|].
  split; [exact Hatt|].
  split; [exact Hmin | reflexivity].
Qed.

(** Four hits over two documents, with [doc_ctx_chunks = 1]. *)
Definition mixed_hits : list Hit :=
  [hit "A" 0.50; hit "B" 0.45; hit "A" 0.20; hit "A" 0.30].

Definition mixed_state : QAState :=
  set_coarse_hits (initial_state "q" 6 0.65 1 1) mixed_hits.

Lemma select_doc_narrows_example :
  exists s' d dh bd,
    _select_doc_node mixed_state = Ok s' /\
    st_best_doc s' = Some d /\
    st_doc_hits s' = Some dh /\
    st_best_dist s' = Some bd /\
    (let of_d := filter (fun h => String.eqb (doc_uri h) d) mixed_hits in
     exists l,
       Permutation l of_d /\
       (forall h, In h l <-> In h mixed_hits /\ doc_uri h = d) /\
       StronglySorted dist_le l /\
       (forall v, filter (fun h => feq (dist h) v) l
                  = filter (fun h => feq (dist h) v) of_d) /\
       dh = firstn (Z.to_nat (Z.max 2 1)) l /\
       (forall a b, In a dh -> In b (skipn (Z.to_nat (Z.max 2 1)) l) -> dist_le a b) /\
       len dh = Z.min (Z.max 2 1) (len of_d)) /\
    Forall (fun h => In h mixed_hits /\ doc_uri h = d) dh /\
    2 <= Z.max 2 1 /\
    (1 <= 2 -> Z.max 2 1 = 2) /\
    (Some 1 = None -> Z.max 2 1 = 4) /\
    dh <> [] /\
    (exists h, In h dh /\ dist h = bd) /\
    (forall h, In h dh -> (bd <= dist h)%Q) /\
    best_dist_of [] = 1%Q.
Proof.
  apply (select_doc_narrows_and_records_best_dist mixed_state mixed_hits).
  - reflexivity.
  - discriminate.
Defined.

Example mixed_state_select :
  exists s',
    _select_doc_node mixed_state = Ok s' /\
    st_best_doc s' = Some "A" /\
    st_doc_hits s' = Some [hit "A" 0.20; hit "A" 0.30] /\
    st_best_dist s' = Some 0.20%Q.
Proof. eexists. split; [reflexivity|]. repeat split. Qed.

(** ** The gate *)

(** The condition tested by [_gate_node]. *)
Definition gate_abstains (s : QAState) : bool :=
  flt (get_or (st_max_cosine_dist s) 0.65%Q) (get_or (st_best_dist s) one_f)
  || (len (get_or_nil (st_doc_hits s)) <? get_or (st_min_hits s) 1).

Lemma gate_node_eq (s : QAState) :
  _gate_node s = Ok (set_abstain s (gate_abstains s)).
Proof.
  unfold _gate_node, gate_abstains.
  destruct (flt _ _ || _); reflexivity.
Qed.

Lemma gate_abstains_iff (s : QAState) :
  gate_abstains s = true <->
  (get_or (st_max_cosine_dist s) 0.65 < get_or (st_best_dist s) one_f)%Q \/
  len (get_or_nil (st_doc_hits s)) < get_or (st_min_hits s) 1.
Proof.
  unfold gate_abstains. rewrite orb_true_iff, flt_true_iff, Z.ltb_lt. tauto.
Qed.




(** C9.  Gate monotonicity.  Take two states with the same [best_dist] and
    the same [doc_hits].  If the gate lets the first through, it lets the
    second through whenever the second has a threshold [max_cosine_dist] at
    least as large and a [min_hits] at most as large: raising the threshold
    or lowering [min_hits] never turns a pass into an abstention. *)
Theorem gate_monotone (s s' : QAState) :
  st_best_dist s' = st_best_dist s ->
  st_doc_hits s' = st_doc_hits s ->
  (get_or (st_max_cosine_dist s) 0.65 <= get_or (st_max_cosine_dist s') 0.65)%Q ->
  get_or (st_min_hits s') 1 <= get_or (st_min_hits s) 1 ->
  _gate_node s = Ok (set_abstain s false) ->
  _gate_node s' = Ok (set_abstain s' false).
Proof.
  intros Hb Hd Ht Hm. rewrite !gate_node_eq. intros E.
  assert (gate_abstains s = false) as F.
  { destruct (gate_abstains s) eqn:G; [|reflexivity].
    injection E as E. discriminate E. }
  f_equal. f_equal.
  destruct (gate_abstains s') eqn:G; [|reflexivity]. exfalso.
  apply gate_abstains_iff in G.
  assert (~ ((get_or (st_max_cosine_dist s) 0.65 < get_or (st_best_dist s) one_f)%Q \/
             len (get_or_nil (st_doc_hits s)) < get_or (st_min_hits s) 1)) as NF.
  { rewrite <- gate_abstains_iff. congruence. }
  apply NF. rewrite Hb, Hd in G.
  destruct G as [G|G]; [left|right].
  - eapply Qle_lt_trans; eassumption.
  - lia.
Qed.

(** A selected state: two hits of A, the best at distance 0.60. *)
Definition selected_state (max_cosine_dist : Q) (min_hits : Z) : QAState :=
  set_best_dist
    (set_doc_hits
       (set_best_doc (initial_state "q" 6 max_cosine_dist min_hits 4) "A")
       [hit "A" 0.60; hit "A" 0.64])
    0.60.

Lemma gate_monotone_example :
  _gate_node (selected_state 0.70 1) = Ok (set_abstain (selected_state 0.70 1) false).
Proof.
  apply (gate_monotone (selected_state 0.65 2) (selected_state 0.70 1)).
  - reflexivity.
  - reflexivity.
  - apply Qle_bool_iff. reflexivity.
  - simpl. lia.
  - reflexivity.
Defined.

(** ** Runs of the graph and of [/ask] *)

Section PipelineFacts.

Variable embed_texts : list string -> result (list (list Q)).
Variable retrieve_by_embedding : list Q -> Z -> result (list Hit).
Variable generate_text : string -> result (option string).

Lemma run_from_step (limit : nat) (n : Node) (s : QAState) :
  n <> END ->
  run_from embed_texts retrieve_by_embedding generate_text (S limit) n s =
  (s' <- run_node embed_texts retrieve_by_embedding generate_text n s ;;
   run_from embed_texts retrieve_by_embedding generate_text limit
     (next_node n s') s').
Proof. destruct n; intros N; try reflexivity. congruence. Qed.

Lemma run_from_END (limit : nat) (s : QAState) :
  run_from embed_texts retrieve_by_embedding generate_text limit END s = Ok s.
Proof. destruct limit; reflexivity. Qed.

Lemma bind_ret_r {A : Type} (c : result A) : (x <- c ;; Ok x) = c.
Proof. destruct c; reflexivity. Qed.

(** The path taken through the graph: the four leading nodes in sequence,
    then one of the two terminal nodes; the step budget is never reached. *)
Lemma qa_graph_invoke_unfold (s : QAState) :
  qa_graph_invoke embed_texts retrieve_by_embedding generate_text s =
  (s1 <- _embed_node embed_texts s ;;
   s2 <- _retrieve_node retrieve_by_embedding s1 ;;
   s3 <- _select_doc_node s2 ;;
   if gate_abstains s3
   then _abstain_out_node (set_abstain s3 true)
   else _reason_node generate_text (set_abstain s3 false)).
Proof.
  unfold qa_graph_invoke.
  rewrite run_from_step by discriminate. cbn [run_node].
  destruct (_embed_node embed_texts s) as [s1|e]; cbn [bind next_node];
    [|reflexivity].
  rewrite run_from_step by discriminate. cbn [run_node].
  destruct (_retrieve_node retrieve_by_embedding s1) as [s2|e];
    cbn [bind next_node]; [|reflexivity].
  rewrite run_from_step by discriminate. cbn [run_node].
  destruct (_select_doc_node s2) as [s3|e]; cbn [bind next_node]; [|reflexivity].
  rewrite run_from_step by discriminate. cbn [run_node].
  rewrite gate_node_eq. cbn [bind next_node].
  replace (get_or (st_abstain (set_abstain s3 (gate_abstains s3))) false)
    with (gate_abstains s3) by reflexivity.
  destruct (gate_abstains s3).
  - rewrite run_from_step by discriminate. cbn [run_node].
    destruct (_abstain_out_node (set_abstain s3 true)); cbn [bind next_node];
      [apply run_from_END | reflexivity].
  - rewrite run_from_step by discriminate. cbn [run_node].
    destruct (_reason_node generate_text (set_abstain s3 false));
      cbn [bind next_node]; [apply run_from_END | reflexivity].
Qed.

Lemma embed_node_inv (s s1 : QAState) :
  _embed_node embed_texts s = Ok s1 ->
  exists q emb,
    st_q s = Some q /\
    embed_texts [q] = Ok [emb] /\
    s1 = set_coarse_k (set_query_emb s emb) (Z.max (get_or (st_k s) 6) 12).
Proof.
  unfold _embed_node. destruct (st_q s) as [q|]; [|discriminate].
  cbn [item bind]. destruct (embed_texts [q]) as [embs|e] eqn:E; [|discriminate].
  cbn [bind]. destruct embs as [|emb [|? ?]]; try discriminate.
  cbn. intros H. injection H as <-. eauto.
Qed.

Lemma retrieve_node_inv (s s2 : QAState) :
  _retrieve_node retrieve_by_embedding s = Ok s2 ->
  exists emb coarse_k hits,
    st_query_emb s = Some emb /\
    st_coarse_k s = Some coarse_k /\
    retrieve_by_embedding emb coarse_k = Ok hits /\
    s2 = set_coarse_hits s hits.
Proof.
  unfold _retrieve_node. destruct (st_query_emb s) as [emb|]; [|discriminate].
  destruct (st_coarse_k s) as [ck|]; [|discriminate]. cbn [item bind].
  destruct (retrieve_by_embedding emb ck) as [hits|e] eqn:E; [|discriminate].
  cbn. intros H. injection H as <-. eauto 10.
Qed.

(** The context block of the prompt. *)
Definition context_of (doc_hits : list Hit) : string :=
  join (nl ++ nl) (map (fun h => strip (chunk h)) doc_hits).

Definition reason_debug (s : QAState) : dict jval :=
  [("best_dist", opt_float (st_best_dist s));
   ("hits", JInt (len (get_or_nil (st_coarse_hits s))));
   ("unique_docs",
    JInt (count_distinct (map doc_uri (get_or_nil (st_coarse_hits s)))));
   ("selected_doc", opt_str (st_best_doc s));
   ("chunks_used", JInt (len (get_or_nil (st_doc_hits s))))].

Lemma reason_node_inv (s out : QAState) :
  _reason_node generate_text s = Ok out ->
  exists dh q r d,
    st_doc_hits s = Some dh /\
    st_q s = Some q /\
    generate_text (build_prompt (context_of dh) q) = Ok r /\
    st_best_doc s = Some d /\
    out = set_debug
            (set_citations (set_answer s (strip (or_empty r))) [citation d])
            (reason_debug s).
Proof.
  unfold _reason_node. destruct (st_doc_hits s) as [dh|] eqn:Edh; [|discriminate].
  destruct (st_q s) as [q|] eqn:Eq; [|discriminate]. cbn [item bind].
  fold (context_of dh).
  destruct (generate_text (build_prompt (context_of dh) q)) as [r|e] eqn:E;
    [|discriminate].
  cbn [bind]. cbn [st_best_doc set_answer].
  destruct (st_best_doc s) as [d|] eqn:Ed; [|discriminate].
  cbn [item bind]. intros H. injection H as <-.
  exists dh, q, r, d. repeat split; assumption.
Qed.

Lemma reason_node_run (s : QAState) (dh : list Hit) (q d : string)
    (r : option string) :
  st_doc_hits s = Some dh ->
  st_q s = Some q ->
  generate_text (build_prompt (context_of dh) q) = Ok r ->
  st_best_doc s = Some d ->
  _reason_node generate_text s =
  Ok (set_debug
        (set_citations (set_answer s (strip (or_empty r))) [citation d])
        (reason_debug s)).
Proof.
  intros Edh Eq E Ed. unfold _reason_node. rewrite Edh, Eq. cbn [item bind].
  fold (context_of dh). rewrite E. cbn [bind st_best_doc set_answer].
  rewrite Ed. reflexivity.
Qed.

(** The state after the embed and retrieve nodes of a run of [run_qa]. *)
Definition fetched_state (q : string) (k : Z) (max_cosine_dist : Q)
    (min_hits doc_ctx_chunks : Z) (emb : list Q) (hits : list Hit) : QAState :=
  set_coarse_hits
    (set_coarse_k
       (set_query_emb
          (initial_state q k max_cosine_dist min_hits doc_ctx_chunks) emb)
       (Z.max k 12))
    hits.

(** The state after the select-document node chose [d]. *)
Definition chosen_state (q : string) (k : Z) (max_cosine_dist : Q)
    (min_hits doc_ctx_chunks : Z) (emb : list Q) (hits : list Hit)
    (d : string) : QAState :=
  let dh := narrow d hits doc_ctx_chunks in
  set_best_dist
    (set_doc_hits
       (set_best_doc
          (fetched_state q k max_cosine_dist min_hits doc_ctx_chunks emb hits) d)
       dh)
    (best_dist_of dh).

Lemma invoke_fetched (q : string) (k : Z) (t : Q) (m n : Z)
    (emb : list Q) (hits : list Hit) :
  embed_texts [q] = Ok [emb] ->
  retrieve_by_embedding emb (Z.max k 12) = Ok hits ->
  qa_graph_invoke embed_texts retrieve_by_embedding generate_text
    (initial_state q k t m n) =
  (s3 <- _select_doc_node (fetched_state q k t m n emb hits) ;;
   if gate_abstains s3
   then _abstain_out_node (set_abstain s3 true)
   else _reason_node generate_text (set_abstain s3 false)).
Proof.
  intros He Hr. rewrite qa_graph_invoke_unfold.
  unfold _embed_node. cbn [initial_state st_q item bind]. rewrite He.
  cbn [bind unpack1]. unfold _retrieve_node.
  cbn [set_coarse_k set_query_emb st_query_emb st_coarse_k st_k item bind get_or
       initial_state].
  rewrite Hr. reflexivity.
Qed.

Lemma invoke_inv_fetched (q : string) (k : Z) (t : Q) (m n : Z) (out : QAState) :
  qa_graph_invoke embed_texts retrieve_by_embedding generate_text
    (initial_state q k t m n) = Ok out ->
  exists emb hits,
    embed_texts [q] = Ok [emb] /\
    retrieve_by_embedding emb (Z.max k 12) = Ok hits.
Proof.
  rewrite qa_graph_invoke_unfold.
  destruct (_embed_node embed_texts (initial_state q k t m n)) as [s1|e] eqn:E1;
    [|discriminate].
  cbn [bind].
  destruct (_retrieve_node retrieve_by_embedding s1) as [s2|e] eqn:E2;
    [|discriminate].
  intros _. apply embed_node_inv in E1. destruct E1 as [q' [emb [Hq [He ->]]]].
  injection Hq as <-.
  apply retrieve_node_inv in E2. destruct E2 as [emb' [ck [hits [H1 [H2 [H3 _]]]]]].
  injection H1 as <-. injection H2 as <-. eauto.
Qed.

(** With no coarse hit the gate still runs, on the defaults
    [best_dist = 1.0] and [len(doc_hits) = 0]. *)
Lemma invoke_no_hits (q : string) (k : Z) (t : Q) (m n : Z) (emb : list Q) :
  embed_texts [q] = Ok [emb] ->
  retrieve_by_embedding emb (Z.max k 12) = Ok [] ->
  qa_graph_invoke embed_texts retrieve_by_embedding generate_text
    (initial_state q k t m n) =
  if flt t one_f || (0 <? m)
  then _abstain_out_node
         (set_abstain
            (set_debug (set_abstain (fetched_state q k t m n emb []) true)
               [("reason", JStr "no_hits")])
            true)
  else Err (KeyError "doc_hits").
Proof.
  intros He Hr. rewrite (invoke_fetched q k t m n emb [] He Hr).
  rewrite select_doc_node_no_hits by reflexivity. cbn [bind].
  replace (gate_abstains _) with (flt t one_f || (0 <? m)) by reflexivity.
  destruct (flt t one_f || (0 <? m)); reflexivity.
Qed.

Lemma invoke_hits (q : string) (k : Z) (t : Q) (m n : Z) (emb : list Q)
    (hits : list Hit) (d : string) :
  embed_texts [q] = Ok [emb] ->
  retrieve_by_embedding emb (Z.max k 12) = Ok hits ->
  hits <> [] ->
  pick_best_doc (build_doc_min hits) (Counter (map doc_uri hits)) = Ok d ->
  qa_graph_invoke embed_texts retrieve_by_embedding generate_text
    (initial_state q k t m n) =
  if flt t (best_dist_of (narrow d hits n)) || (len (narrow d hits n) <? m)
  then _abstain_out_node (set_abstain (chosen_state q k t m n emb hits d) true)
  else _reason_node generate_text
         (set_abstain (chosen_state q k t m n emb hits d) false).
Proof.
  intros He Hr N Hd. rewrite (invoke_fetched q k t m n emb hits He Hr).
  destruct (select_doc_node_hits (fetched_state q k t m n emb hits) hits
              eq_refl N) as [d' [Hd' Hs]].
  rewrite Hd in Hd'. injection Hd' as <-. rewrite Hs. cbn [bind].
  reflexivity.
Qed.

(** The four response bodies of [/ask]. *)
Definition missing_q_body : dict jval := [("error", JStr "Missing 'q' in body")].

Definition no_hits_body : dict jval :=
  [("answer", JStr ABSTAIN_MESSAGE);
   ("citations", JList []);
   ("abstained", JBool true);
   ("debug", JDict [("reason", JStr "no_hits")])].

Definition low_confidence_body (coarse_hits doc_hits : list Hit)
    (best_doc : string) : dict jval :=
  [("answer", JStr ABSTAIN_MESSAGE);
   ("citations", JList []);
   ("abstained", JBool true);
   ("debug", JDict
      [("best_dist", JFloat (best_dist_of doc_hits));
       ("hits", JInt (len coarse_hits));
       ("unique_docs", JInt (len (Counter (map doc_uri coarse_hits))));
       ("selected_doc", JStr best_doc)])].

Definition answer_body (coarse_hits doc_hits : list Hit) (best_doc : string)
    (answer : string) : dict jval :=
  [("answer", JStr answer);
   ("citations", JList [JDict [("doc_uri", JStr best_doc)]]);
   ("debug", JDict
      [("best_dist", JFloat (best_dist_of doc_hits));
       ("hits", JInt (len coarse_hits));
       ("unique_docs", JInt (len (Counter (map doc_uri coarse_hits))));
       ("selected_doc", JStr best_doc);
       ("chunks_used", JInt (len doc_hits))])].

(** The question [/ask] works with. *)
Definition ask_q (payload_q : option string) : string :=
  strip (get_or payload_q "").

Lemma ask_try_missing_q (env : Env) (pq : option string) (pk : option Z) :
  ask_q pq = "" ->
  ask_try embed_texts retrieve_by_embedding generate_text env pq pk =
  Ok (JSONResponse missing_q_body 400).
Proof.
  unfold ask_q, ask_try. intros ->. reflexivity.
Qed.

Lemma ask_try_no_hits (env : Env) (pq : option string) (pk : option Z)
    (emb : list Q) :
  ask_q pq <> "" ->
  embed_texts [ask_q pq] = Ok [emb] ->
  retrieve_by_embedding emb (Z.max (get_or pk 6) 12) = Ok [] ->
  ask_try embed_texts retrieve_by_embedding generate_text env pq pk =
  Ok (JSONResponse no_hits_body 200).
Proof.
  unfold ask_q, ask_try. intros Nq He Hr.
  apply String.eqb_neq in Nq. rewrite Nq, He. cbn [bind unpack1].
  rewrite Hr. reflexivity.
Qed.

Lemma ask_try_hits (env : Env) (pq : option string) (pk : option Z)
    (emb : list Q) (hits : list Hit) (d : string) :
  ask_q pq <> "" ->
  embed_texts [ask_q pq] = Ok [emb] ->
  retrieve_by_embedding emb (Z.max (get_or pk 6) 12) = Ok hits ->
  hits <> [] ->
  pick_best_doc (build_doc_min hits) (Counter (map doc_uri hits)) = Ok d ->
  let dh := narrow d hits (get_or (DOC_CTX_CHUNKS env) 4) in
  ask_try embed_texts retrieve_by_embedding generate_text env pq pk =
  if flt (get_or (MAX_COSINE_DIST env) 0.65%Q) (best_dist_of dh)
     || (len dh <? get_or (MIN_CTX_HITS env) 1)
  then Ok (JSONResponse (low_confidence_body hits dh d) 200)
  else
    generated <- generate_text (build_prompt (context_of dh) (ask_q pq)) ;;
    Ok (mkResponse 200 (answer_body hits dh d (strip (or_empty generated)))).
Proof.
  intros Nq He Hr N Hd dh. unfold ask_q in *. unfold ask_try.
  apply String.eqb_neq in Nq. rewrite Nq, He. cbn [bind unpack1].
  rewrite Hr. cbn [bind]. destruct hits as [|h0 r0]; [congruence|].
  rewrite Hd. cbn [bind]. fold dh.
  destruct (flt _ _ || _); reflexivity.
Qed.

(** Every response of [/ask] is one of five. *)
Inductive ask_outcome (env : Env) (pq : option string) (pk : option Z)
    : Response -> Prop :=
| ask_missing_q :
    ask_q pq = "" ->
    ask_outcome env pq pk (JSONResponse missing_q_body 400)
| ask_failed (e : exn) :
    ask_q pq <> "" ->
    ask_outcome env pq pk (JSONResponse [("detail", JStr (exn_str e))] 500)
| ask_no_hits (emb : list Q) :
    ask_q pq <> "" ->
    embed_texts [ask_q pq] = Ok [emb] ->
    retrieve_by_embedding emb (Z.max (get_or pk 6) 12) = Ok [] ->
    ask_outcome env pq pk (JSONResponse no_hits_body 200)
| ask_low_confidence (emb : list Q) (hits : list Hit) (d : string) :
    ask_q pq <> "" ->
    embed_texts [ask_q pq] = Ok [emb] ->
    retrieve_by_embedding emb (Z.max (get_or pk 6) 12) = Ok hits ->
    hits <> [] ->
    pick_best_doc (build_doc_min hits) (Counter (map doc_uri hits)) = Ok d ->
    flt (get_or (MAX_COSINE_DIST env) 0.65%Q)
        (best_dist_of (narrow d hits (get_or (DOC_CTX_CHUNKS env) 4)))
    || (len (narrow d hits (get_or (DOC_CTX_CHUNKS env) 4))
        <? get_or (MIN_CTX_HITS env) 1) = true ->
    ask_outcome env pq pk
      (JSONResponse
         (low_confidence_body hits
            (narrow d hits (get_or (DOC_CTX_CHUNKS env) 4)) d) 200)
| ask_answered (emb : list Q) (hits : list Hit) (d : string)
    (generated : option string) :
    ask_q pq <> "" ->
    embed_texts [ask_q pq] = Ok [emb] ->
    retrieve_by_embedding emb (Z.max (get_or pk 6) 12) = Ok hits ->
    hits <> [] ->
    pick_best_doc (build_doc_min hits) (Counter (map doc_uri hits)) = Ok d ->
    flt (get_or (MAX_COSINE_DIST env) 0.65%Q)
        (best_dist_of (narrow d hits (get_or (DOC_CTX_CHUNKS env) 4)))
    || (len (narrow d hits (get_or (DOC_CTX_CHUNKS env) 4))
        <? get_or (MIN_CTX_HITS env) 1) = false ->
    generate_text
      (build_prompt
         (context_of (narrow d hits (get_or (DOC_CTX_CHUNKS env) 4)))
         (ask_q pq)) = Ok generated ->
    ask_outcome env pq pk
      (mkResponse 200
         (answer_body hits (narrow d hits (get_or (DOC_CTX_CHUNKS env) 4)) d
            (strip (or_empty generated)))).

Lemma ask_outcome_total (env : Env) (pq : option string) (pk : option Z) :
  ask_outcome env pq pk
    (ask embed_texts retrieve_by_embedding generate_text env pq pk).
Proof.
  unfold ask.
  destruct (string_dec (ask_q pq) "") as [Eq|Nq].
  { rewrite ask_try_missing_q by exact Eq. now constructor. }
  destruct (ask_try embed_texts retrieve_by_embedding generate_text env pq pk)
    as [r|e] eqn:E; [|now constructor].
  destruct (embed_texts [ask_q pq]) as [embs|e] eqn:He.
  2:{ exfalso. revert E. unfold ask_try. fold (ask_q pq).
      apply String.eqb_neq in Nq. rewrite Nq, He. discriminate. }
  destruct embs as [|emb [|emb' embs]].
  1,3: exfalso; revert E; unfold ask_try; fold (ask_q pq);
       apply String.eqb_neq in Nq; rewrite Nq, He; discriminate.
  destruct (retrieve_by_embedding emb (Z.max (get_or pk 6) 12))
    as [hits|e] eqn:Hr.
  2:{ exfalso. revert E. unfold ask_try. fold (ask_q pq).
      apply String.eqb_neq in Nq. rewrite Nq, He. cbn [bind unpack1].
      rewrite Hr. discriminate. }
  destruct hits as [|h0 r0].
  { rewrite (ask_try_no_hits env pq pk emb Nq He Hr) in E.
    injection E as <-. now apply ask_no_hits with emb. }
  assert (h0 :: r0 <> []) as N by discriminate.
  destruct (pick_best_doc_total (h0 :: r0) N) as [d Hd].
  rewrite (ask_try_hits env pq pk emb (h0 :: r0) d Nq He Hr N Hd) in E.
  destruct (flt _ _ || _) eqn:G.
  - injection E as <-. now apply ask_low_confidence with emb.
  - destruct (generate_text _) as [g|e] eqn:Hg; [|discriminate].
    cbn [bind] in E. injection E as <-. now apply ask_answered with emb.
Qed.

(** The state [_abstain_out_node] leaves. *)
Definition abstained_of (s : QAState) : QAState :=
  set_debug (set_citations (set_answer s ABSTAIN_MESSAGE) [])
    (dict_update (get_or (st_debug s) [])
       [("best_dist", opt_float (st_best_dist s));
        ("hits", JInt (len (get_or_nil (st_coarse_hits s))));
        ("selected_doc", opt_str (st_best_doc s))]).

(** The state [_reason_node] leaves when the generator returned [r]. *)
Definition answered_of (s : QAState) (d : string) (r : option string) : QAState :=
  set_debug (set_citations (set_answer s (strip (or_empty r))) [citation d])
    (reason_debug s).

Lemma abstain_out_node_eq (s : QAState) :
  _abstain_out_node s = Ok (abstained_of s).
Proof. reflexivity. Qed.

(** The state of a run that found no hit and abstained. *)
Definition no_hits_state (q : string) (k : Z) (t : Q) (m n : Z)
    (emb : list Q) : QAState :=
  abstained_of
    (set_abstain
       (set_debug (set_abstain (fetched_state q k t m n emb []) true)
          [("reason", JStr "no_hits")])
       true).

(** Every completed run of the graph from the state [run_qa] builds ends in
    one of three states. *)
Lemma invoke_cases (q : string) (k : Z) (t : Q) (m n : Z) (out : QAState) :
  qa_graph_invoke embed_texts retrieve_by_embedding generate_text
    (initial_state q k t m n) = Ok out ->
  exists emb hits,
    embed_texts [q] = Ok [emb] /\
    retrieve_by_embedding emb (Z.max k 12) = Ok hits /\
    ((hits = [] /\ flt t one_f || (0 <? m) = true /\
      out = no_hits_state q k t m n emb) \/
     (exists d,
        hits <> [] /\
        pick_best_doc (build_doc_min hits) (Counter (map doc_uri hits)) = Ok d /\
        ((flt t (best_dist_of (narrow d hits n)) || (len (narrow d hits n) <? m)
          = true /\
          out = abstained_of (set_abstain (chosen_state q k t m n emb hits d) true)) \/
         (flt t (best_dist_of (narrow d hits n)) || (len (narrow d hits n) <? m)
          = false /\
          exists r,
            generate_text (build_prompt (context_of (narrow d hits n)) q) = Ok r /\
            out = answered_of
                    (set_abstain (chosen_state q k t m n emb hits d) false) d r)))).
Proof.
  intros E. destruct (invoke_inv_fetched q k t m n out E) as [emb [hits [He Hr]]].
  exists emb, hits. split; [exact He|]. split; [exact Hr|].
  destruct hits as [|h0 r0].
  - left. rewrite (invoke_no_hits q k t m n emb He Hr) in E.
    destruct (flt t one_f || (0 <? m)); [|discriminate].
    rewrite abstain_out_node_eq in E. injection E as <-. auto.
  - right. assert (h0 :: r0 <> []) as N by discriminate.
    destruct (pick_best_doc_total (h0 :: r0) N) as [d Hd].
    exists d. split; [exact N|]. split; [exact Hd|].
    rewrite (invoke_hits q k t m n emb (h0 :: r0) d He Hr N Hd) in E.
    destruct (flt _ _ || _).
    + left. rewrite abstain_out_node_eq in E. injection E as <-. auto.
    + right. split; [reflexivity|].
      apply reason_node_inv in E.
      destruct E as [dh [q' [r [d' [H1 [H2 [H3 [H4 ->]]]]]]]].
      injection H1 as <-. injection H2 as <-. injection H4 as <-.
      exists r. split; [exact H3 | reflexivity].
Qed.

Lemma run_qa_of_invoke (q : string) (k : Z) (t : Q) (m n : Z) (out : QAState)
    (a : string) (c : list (dict string)) :
  qa_graph_invoke embed_texts retrieve_by_embedding generate_text
    (initial_state q k t m n) = Ok out ->
  st_answer out = Some a ->
  st_citations out = Some c ->
  run_qa embed_texts retrieve_by_embedding generate_text q k t m n =
  Ok [("answer", JStr a);
      ("citations", JList (map citation_json c));
      ("debug", JDict (get_or (st_debug out) []))].
Proof.
  intros E Ha Hc. unfold run_qa. rewrite E. cbn [bind]. rewrite Ha, Hc.
  reflexivity.
Qed.

(** C6.  An abstaining answer carries the fixed message, the literal
    text beginning [I don't know that yet], and no citation.
    For the graph: a completed run whose final [abstain] flag is true has
    [answer] equal to the abstain message and [citations] empty, and so has
    the dictionary [run_qa] returns.  For [/ask]: a response whose body has
    [abstained = true] has that same answer and an empty citation list.
    Both cover the no-hits path and the gate-failure path. *)
Theorem abstained_answer_is_fixed_and_uncited
    (q : string) (k : Z) (t : Q) (m n : Z) (out : QAState)
    (env : Env) (pq : option string) (pk : option Z) :
  let message := "I don't know that yet based on the current knowledge base." in
  (qa_graph_invoke embed_texts retrieve_by_embedding generate_text
     (initial_state q k t m n) = Ok out ->
   st_abstain out = Some true ->
   st_answer out = Some message /\
   st_citations out = Some [] /\
   run_qa embed_texts retrieve_by_embedding generate_text q k t m n =
   Ok [("answer", JStr message);
       ("citations", JList []);
       ("debug", JDict (get_or (st_debug out) []))]) /\
  (let r := ask embed_texts retrieve_by_embedding generate_text env pq pk in
   dict_get (body r) "abstained" = Some (JBool true) ->
   dict_get (body r) "answer" = Some (JStr message) /\
   dict_get (body r) "citations" = Some (JList [])).
Proof.
  intros message. subst message.
  split.
  - intros E Ha.
    assert (st_answer out = Some ABSTAIN_MESSAGE /\ st_citations out = Some [])
      as [H1 H2].
    { destruct (invoke_cases q k t m n out E)
        as [emb [hits [_ [_ [[_ [_ ->]]|[d [_ [_ [[_ ->]|[_ [r [_ ->]]]]]]]]]]]].
      - split; reflexivity.
      - split; reflexivity.
      - discriminate Ha. }
    split; [exact H1|]. split; [exact H2|].
    exact (run_qa_of_invoke q k t m n out _ _ E H1 H2).
  - intros r. subst r.
    destruct (ask_outcome_total env pq pk); intros Hb;
      try discriminate Hb; split; reflexivity.
Qed.

(** C8.  A non-abstaining answer rests on hits of the cited document only.
    For the graph: a completed run whose final [abstain] flag is false has a
    non-empty [doc_hits], every entry of which carries [best_doc], and its
    single citation names [best_doc].  For [/ask]: a 200 response without
    the [abstained] flag cites the one document whose narrowed hits, a
    non-empty list of hits of that document, made the context. *)
Theorem answered_hits_share_cited_document
    (q : string) (k : Z) (t : Q) (m n : Z) (out : QAState)
    (env : Env) (pq : option string) (pk : option Z) :
  (qa_graph_invoke embed_texts retrieve_by_embedding generate_text
     (initial_state q k t m n) = Ok out ->
   st_abstain out = Some false ->
   exists d dh,
     st_best_doc out = Some d /\
     st_doc_hits out = Some dh /\
     dh <> [] /\
     Forall (fun h => doc_uri h = d) dh /\
     st_citations out = Some [citation d]) /\
  (let r := ask embed_texts retrieve_by_embedding generate_text env pq pk in
   status_code r = 200 ->
   dict_get (body r) "abstained" = None ->
   exists emb hits d,
     embed_texts [ask_q pq] = Ok [emb] /\
     retrieve_by_embedding emb (Z.max (get_or pk 6) 12) = Ok hits /\
     let dh := narrow d hits (get_or (DOC_CTX_CHUNKS env) 4) in
     dh <> [] /\
     Forall (fun h => doc_uri h = d) dh /\
     dict_get (body r) "citations" = Some (JList [JDict [("doc_uri", JStr d)]]) /\
     exists a, body r = answer_body hits dh d a).
Proof.
  split.
  - intros E Ha.
    destruct (invoke_cases q k t m n out E)
      as [emb [hits [_ [_ [[_ [_ ->]]|[d [N [Hd [[_ ->]|[_ [r [_ ->]]]]]]]]]]]];
      try discriminate Ha.
    exists d, (narrow d hits n).
    split; [reflexivity|]. split; [reflexivity|].
    split; [apply narrow_nonempty; now apply pick_best_doc_spec|].
    split; [|reflexivity].
    apply Forall_forall. intros h Hh. now apply narrow_in in Hh.
  - intros r. subst r.
    destruct (ask_outcome_total env pq pk)
      as [ | | | |emb hits d g Nq He Hr N Hd G Hg]; intros Hs Hb;
      try discriminate Hs; try discriminate Hb.
    exists emb, hits, d. split; [exact He|]. split; [exact Hr|].
    intros dh. split; [apply narrow_nonempty; now apply pick_best_doc_spec|].
    split.
    + apply Forall_forall. intros h Hh. now apply narrow_in in Hh.
    + split; [reflexivity|]. eexists. reflexivity.
Qed.

(** C10.  An empty generation is answered, not turned into an abstention or
    an error.  When retrieval returns hits, the gate passes on the narrowed
    hits of the selected document [d], and the generator returns [None] or
    the empty string for the prompt, then the graph completes with
    [abstain = false], the empty [answer] and the single citation of [d],
    [run_qa] returns that answer and citation, and [/ask] returns status 200
    with the empty answer, the citation of [d] and no [abstained] flag. *)
Theorem empty_generation_is_answered
    (q : string) (k : Z) (t : Q) (m n : Z)
    (env : Env) (pq : option string) (pk : option Z)
    (emb : list Q) (hits : list Hit) (d : string) (r : option string) :
  hits <> [] ->
  pick_best_doc (build_doc_min hits) (Counter (map doc_uri hits)) = Ok d ->
  r = None \/ r = Some "" ->
  (embed_texts [q] = Ok [emb] ->
   retrieve_by_embedding emb (Z.max k 12) = Ok hits ->
   flt t (best_dist_of (narrow d hits n)) || (len (narrow d hits n) <? m) = false ->
   generate_text (build_prompt (context_of (narrow d hits n)) q) = Ok r ->
   exists out,
     qa_graph_invoke embed_texts retrieve_by_embedding generate_text
       (initial_state q k t m n) = Ok out /\
     st_abstain out = Some false /\
     st_answer out = Some "" /\
     st_citations out = Some [citation d] /\
     run_qa embed_texts retrieve_by_embedding generate_text q k t m n =
     Ok [("answer", JStr "");
         ("citations", JList [JDict [("doc_uri", JStr d)]]);
         ("debug", JDict (get_or (st_debug out) []))]) /\
  (let dh := narrow d hits (get_or (DOC_CTX_CHUNKS env) 4) in
   ask_q pq <> "" ->
   embed_texts [ask_q pq] = Ok [emb] ->
   retrieve_by_embedding emb (Z.max (get_or pk 6) 12) = Ok hits ->
   flt (get_or (MAX_COSINE_DIST env) 0.65%Q) (best_dist_of dh)
   || (len dh <? get_or (MIN_CTX_HITS env) 1) = false ->
   generate_text (build_prompt (context_of dh) (ask_q pq)) = Ok r ->
   ask embed_texts retrieve_by_embedding generate_text env pq pk =
   mkResponse 200 (answer_body hits dh d "") /\
   dict_get (answer_body hits dh d "") "abstained" = None).
Proof.
  intros N Hd Hr0.
  assert (strip (or_empty r) = "") as Es by (destruct Hr0 as [->| ->]; reflexivity).
  split.
  - intros He Hr G Hg.
    pose proof (invoke_hits q k t m n emb hits d He Hr N Hd) as E.
    rewrite G in E.
    rewrite (reason_node_run
               (set_abstain (chosen_state q k t m n emb hits d) false)
               (narrow d hits n) q d r eq_refl eq_refl Hg eq_refl) in E.
    rewrite Es in E.
    eexists. split; [exact E|].
    split; [reflexivity|]. split; [reflexivity|]. split; [reflexivity|].
    exact (run_qa_of_invoke q k t m n _ "" [citation d] E eq_refl eq_refl).
  - intros dh Nq He Hr G Hg. split; [|reflexivity].
    unfold ask. rewrite (ask_try_hits env pq pk emb hits d Nq He Hr N Hd).
    fold dh. rewrite G, Hg. cbn [bind]. rewrite Es. reflexivity.
Qed.

(** With no coarse hit, [run_qa] abstains only if the gate, run on the
    defaults [best_dist = 1.0] and no [doc_hits], abstains as well. *)
Lemma run_qa_no_hits_gate_agrees (q : string) (k : Z) (t : Q) (m n : Z)
    (emb : list Q) :
  embed_texts [q] = Ok [emb] ->
  retrieve_by_embedding emb (Z.max k 12) = Ok [] ->
  (t < one_f)%Q \/ 0 < m ->
  run_qa embed_texts retrieve_by_embedding generate_text q k t m n =
  Ok [("answer", JStr ABSTAIN_MESSAGE);
      ("citations", JList []);
      ("debug", JDict [("reason", JStr "no_hits");
                       ("best_dist", JNull);
                       ("hits", JInt 0);
                       ("selected_doc", JNull)])].
Proof.
  intros He Hr G.
  assert (flt t one_f || (0 <? m) = true) as Gb.
  { apply orb_true_iff. destruct G as [G|G]; [left|right].
    - now apply flt_true_iff.
    - now apply Z.ltb_lt. }
  pose proof (invoke_no_hits q k t m n emb He Hr) as E. rewrite Gb in E.
  rewrite abstain_out_node_eq in E.
  exact (run_qa_of_invoke q k t m n _ _ _ E eq_refl eq_refl).
Qed.

(** With no coarse hit, a threshold of at least [1.0] and [min_hits <= 0],
    the gate does not abstain and the reason node fails on
    [state["doc_hits"]]. *)
Lemma run_qa_no_hits_gate_passes (q : string) (k : Z) (t : Q) (m n : Z)
    (emb : list Q) :
  embed_texts [q] = Ok [emb] ->
  retrieve_by_embedding emb (Z.max k 12) = Ok [] ->
  (one_f <= t)%Q ->
  m <= 0 ->
  run_qa embed_texts retrieve_by_embedding generate_text q k t m n =
  Err (KeyError "doc_hits").
Proof.
  intros He Hr Ht Hm.
  assert (flt t one_f || (0 <? m) = false) as Gb.
  { apply orb_false_iff. split.
    - now apply flt_false_iff.
    - apply Z.ltb_ge. exact Hm. }
  unfold run_qa. rewrite (invoke_no_hits q k t m n emb He Hr), Gb. reflexivity.
Qed.

(** With no coarse hit, [/ask] abstains whatever the knobs are. *)
Lemma ask_no_hits_abstains (env : Env) (pq : option string) (pk : option Z)
    (emb : list Q) :
  ask_q pq <> "" ->
  embed_texts [ask_q pq] = Ok [emb] ->
  retrieve_by_embedding emb (Z.max (get_or pk 6) 12) = Ok [] ->
  ask embed_texts retrieve_by_embedding generate_text env pq pk =
  JSONResponse no_hits_body 200.
Proof.
  intros Nq He Hr. unfold ask. now rewrite (ask_try_no_hits env pq pk emb Nq He Hr).
Qed.

(** C7 (amended).  Every 200 response of [/ask] has [answer], [citations]
    and [debug].  It either abstains (retrieval returned no hit, or the
    gate failed on the selected document) and then carries
    [abstained = true], the abstain message and no citation; or it answers
    (the gate passed and the generator returned) and then carries no
    [abstained] field at all, the trimmed generator output and one
    citation.  The dictionary [run_qa] returns has [answer], [citations]
    and [debug]. *)
Theorem response_fields
    (q : string) (k : Z) (t : Q) (m n : Z) (res : dict jval)
    (env : Env) (pq : option string) (pk : option Z) :
  (let r := ask embed_texts retrieve_by_embedding generate_text env pq pk in
   status_code r = 200 ->
   dict_has (body r) "answer" = true /\
   dict_has (body r) "citations" = true /\
   dict_has (body r) "debug" = true /\
   exists emb hits,
     embed_texts [ask_q pq] = Ok [emb] /\
     retrieve_by_embedding emb (Z.max (get_or pk 6) 12) = Ok hits /\
     ((dict_get (body r) "abstained" = Some (JBool true) /\
       dict_get (body r) "answer" = Some (JStr ABSTAIN_MESSAGE) /\
       dict_get (body r) "citations" = Some (JList []) /\
       (hits = [] \/
        exists d,
          pick_best_doc (build_doc_min hits) (Counter (map doc_uri hits)) = Ok d /\
          flt (get_or (MAX_COSINE_DIST env) 0.65%Q)
              (best_dist_of (narrow d hits (get_or (DOC_CTX_CHUNKS env) 4)))
          || (len (narrow d hits (get_or (DOC_CTX_CHUNKS env) 4))
              <? get_or (MIN_CTX_HITS env) 1) = true)) \/
      (dict_get (body r) "abstained" = None /\
       hits <> [] /\
       exists d g,
         pick_best_doc (build_doc_min hits) (Counter (map doc_uri hits)) = Ok d /\
         flt (get_or (MAX_COSINE_DIST env) 0.65%Q)
             (best_dist_of (narrow d hits (get_or (DOC_CTX_CHUNKS env) 4)))
         || (len (narrow d hits (get_or (DOC_CTX_CHUNKS env) 4))
             <? get_or (MIN_CTX_HITS env) 1) = false /\
         generate_text
           (build_prompt
              (context_of (narrow d hits (get_or (DOC_CTX_CHUNKS env) 4)))
              (ask_q pq)) = Ok g /\
         body r =
         answer_body hits (narrow d hits (get_or (DOC_CTX_CHUNKS env) 4)) d
           (strip (or_empty g))))) /\
  (run_qa embed_texts retrieve_by_embedding generate_text q k t m n = Ok res ->
   dict_has res "answer" = true /\
   dict_has res "citations" = true /\
   dict_has res "debug" = true).
Proof.
  split.
  - intros r. subst r.
    destruct (ask_outcome_total env pq pk)
      as [ | |emb Nq He Hr|emb hits d Nq He Hr N Hd G
          |emb hits d g Nq He Hr N Hd G Hg]; intros Hs;
      try discriminate Hs.
    + repeat (split; [reflexivity|]). exists emb, [].
      split; [exact He|]. split; [exact Hr|]. left.
      repeat (split; [reflexivity|]). now left.
    + repeat (split; [reflexivity|]). exists emb, hits.
      split; [exact He|]. split; [exact Hr|]. left.
      repeat (split; [reflexivity|]). right. exists d. now split.
    + repeat (split; [reflexivity|]). exists emb, hits.
      split; [exact He|]. split; [exact Hr|]. right.
      split; [reflexivity|]. split; [exact N|].
      exists d, g. repeat split; assumption.
  - unfold run_qa.
    destruct (qa_graph_invoke _ _ _ _) as [out|e]; [|discriminate].
    cbn [bind]. destruct (st_answer out); [|discriminate].
    destruct (st_citations out); [|discriminate].
    cbn [item bind]. intros E. injection E as <-. repeat split.
Qed.

End PipelineFacts.

(** ** Runs with stub collaborators *)

(** An embedder that returns one fixed vector per text, an index that
    returns the given hits, and a generator that returns the given result. *)
Definition stub_embed (texts : list string) : result (list (list Q)) :=
  Ok (map (fun _ => [0.1%Q; 0.2%Q]) texts).

Definition stub_retrieve (hits : list Hit) (query_emb : list Q) (k : Z)
    : result (list Hit) :=
  Ok hits.

Definition stub_generate (r : option string) (prompt : string)
    : result (option string) :=
  Ok r.

(** The final state of a completed run. *)
Definition final_state (r : result QAState) : QAState :=
  match r with
  | Ok out => out
  | Err _ => initial_state "" 0 0 0 0
  end.

(** C3 (the code departs from the claim).  No coarse hit,
    [max_cosine_dist = 1.0], [min_hits = 0]: in the graph the gate node
    still runs after the select-document node, finds neither
    [1.0 > 1.0] nor [0 < 0], resets [abstain] to false, and the reason node
    raises [KeyError] on [state["doc_hits"]]; [run_qa] returns no answer.
    [/ask] on the same knobs returns the abstaining no-hits response, and
    so does [run_qa] on the default knobs. *)
Theorem run_qa_no_hits_permissive_gate_fails :
  run_qa stub_embed (stub_retrieve []) (stub_generate (Some "text"))
    "What is the capital of France?" 6 1 0 4
  = Err (KeyError "doc_hits") /\
  ask stub_embed (stub_retrieve []) (stub_generate (Some "text"))
    (mkEnv (Some 1%Q) (Some 0) (Some 4))
    (Some "What is the capital of France?") (Some 6)
  = JSONResponse no_hits_body 200 /\
  run_qa stub_embed (stub_retrieve []) (stub_generate (Some "text"))
    "What is the capital of France?" 6 0.65 1 4
  = Ok [("answer", JStr ABSTAIN_MESSAGE);
        ("citations", JList []);
        ("debug", JDict [("reason", JStr "no_hits");
                         ("best_dist", JNull);
                         ("hits", JInt 0);
                         ("selected_doc", JNull)])].
Proof.
  split; [|split].
  - apply (run_qa_no_hits_gate_passes stub_embed (stub_retrieve [])
             (stub_generate (Some "text")) _ 6 1 0 4 [0.1%Q; 0.2%Q]).
    + reflexivity.
    + reflexivity.
    + apply Qle_refl.
    + lia.
  - vm_compute. reflexivity.
  - vm_compute. reflexivity.
Qed.

(** A run on Example 1 with an answering generator. *)
Definition answering_run : result QAState :=
  qa_graph_invoke stub_embed (stub_retrieve example1_hits)
    (stub_generate (Some " Paris. "))
    (initial_state "What is the capital of France?" 6 0.65 1 4).

(** A run that fails the gate: the only hit is at distance 0.70. *)
Definition low_confidence_run : result QAState :=
  qa_graph_invoke stub_embed (stub_retrieve [hit "A" 0.70])
    (stub_generate (Some " Paris. "))
    (initial_state "What is the capital of France?" 6 0.65 1 4).

Definition default_env : Env := mkEnv None None None.

(** C7 (the claim as stated fails).  An answering run on Example 1: the
    200 response of [/ask] and the dictionary of [run_qa] have the fields
    [answer], [citations] and [debug] and no [abstained] field; on a run
    that fails the gate [run_qa] has no [abstained] field either. *)
Lemma answering_result_has_no_abstained_field :
  (let r := ask stub_embed (stub_retrieve example1_hits)
              (stub_generate (Some " Paris. ")) default_env
              (Some "What is the capital of France?") None in
   status_code r = 200 /\
   dict_keys (body r) = ["answer"; "citations"; "debug"] /\
   dict_get (body r) "answer" = Some (JStr "Paris.") /\
   dict_get (body r) "abstained" = None) /\
  (exists res,
     run_qa stub_embed (stub_retrieve example1_hits)
       (stub_generate (Some " Paris. "))
       "What is the capital of France?" 6 0.65 1 4 = Ok res /\
     dict_keys res = ["answer"; "citations"; "debug"] /\
     dict_get res "abstained" = None) /\
  (exists res,
     run_qa stub_embed (stub_retrieve [hit "A" 0.70])
       (stub_generate (Some " Paris. "))
       "What is the capital of France?" 6 0.65 1 4 = Ok res /\
     dict_get res "answer" = Some (JStr ABSTAIN_MESSAGE) /\
     dict_get res "abstained" = None).
Proof.
  split; [|split].
  - vm_compute. repeat split.
  - eexists. split; [vm_compute; reflexivity|]. split; reflexivity.
  - eexists. split; [vm_compute; reflexivity|]. split; reflexivity.
Qed.

(** The [/ask] response on a single hit at distance 0.70. *)
Definition low_confidence_response : Response :=
  ask stub_embed (stub_retrieve [hit "A" 0.70])
    (stub_generate (Some " Paris. ")) default_env
    (Some "What is the capital of France?") None.

Lemma response_fields_example :
  dict_has (body low_confidence_response) "answer" = true /\
  dict_has (body low_confidence_response) "citations" = true /\
  dict_has (body low_confidence_response) "debug" = true /\
  dict_get (body low_confidence_response) "abstained" = Some (JBool true).
Proof.
  destruct (response_fields stub_embed (stub_retrieve [hit "A" 0.70])
              (stub_generate (Some " Paris. "))
              "q" 6 0.65 1 4 [] default_env
              (Some "What is the capital of France?") None) as [H _].
  destruct (H eq_refl) as [H1 [H2 [H3 _]]].
  split; [exact H1|]. split; [exact H2|]. split; [exact H3|].
  vm_compute. reflexivity.
Defined.

Lemma abstained_answer_example :
  st_answer (final_state low_confidence_run)
  = Some "I don't know that yet based on the current knowledge base." /\
  st_citations (final_state low_confidence_run) = Some [] /\
  run_qa stub_embed (stub_retrieve [hit "A" 0.70])
    (stub_generate (Some " Paris. "))
    "What is the capital of France?" 6 0.65 1 4 =
  Ok [("answer",
       JStr "I don't know that yet based on the current knowledge base.");
      ("citations", JList []);
      ("debug", JDict (get_or (st_debug (final_state low_confidence_run)) []))].
Proof.
  destruct (abstained_answer_is_fixed_and_uncited stub_embed
              (stub_retrieve [hit "A" 0.70]) (stub_generate (Some " Paris. "))
              "What is the capital of France?" 6 0.65 1 4
              (final_state low_confidence_run)
              default_env None None) as [H _].
  apply H.
  - vm_compute. reflexivity.
  - vm_compute. reflexivity.
Defined.

Lemma answered_hits_example :
  exists d dh,
    st_best_doc (final_state answering_run) = Some d /\
    st_doc_hits (final_state answering_run) = Some dh /\
    dh <> [] /\
    Forall (fun h => doc_uri h = d) dh /\
    st_citations (final_state answering_run) = Some [citation d].
Proof.
  destruct (answered_hits_share_cited_document stub_embed
              (stub_retrieve example1_hits) (stub_generate (Some " Paris. "))
              "What is the capital of France?" 6 0.65 1 4
              (final_state answering_run)
              default_env None None) as [H _].
  apply H.
  - vm_compute. reflexivity.
  - vm_compute. reflexivity.
Defined.

Lemma empty_generation_example :
  exists out,
    qa_graph_invoke stub_embed (stub_retrieve example1_hits) (stub_generate None)
      (initial_state "What is the capital of France?" 6 0.65 1 4) = Ok out /\
    st_abstain out = Some false /\
    st_answer out = Some "" /\
    st_citations out = Some [citation "B"] /\
    run_qa stub_embed (stub_retrieve example1_hits) (stub_generate None)
      "What is the capital of France?" 6 0.65 1 4 =
    Ok [("answer", JStr "");
        ("citations", JList [JDict [("doc_uri", JStr "B")]]);
        ("debug", JDict (get_or (st_debug out) []))].
Proof.
  destruct (empty_generation_is_answered stub_embed
              (stub_retrieve example1_hits) (stub_generate None)
              "What is the capital of France?" 6 0.65 1 4
              default_env (Some "What is the capital of France?") None
              [0.1%Q; 0.2%Q] example1_hits "B" None) as [H _].
  - discriminate.
  - vm_compute. reflexivity.
  - now left.
  - apply H.
    + reflexivity.
    + reflexivity.
    + vm_compute. reflexivity.
    + reflexivity.
Defined.

(** * Further properties of selection and narrowing *)

Lemma insert_by_dist_head (x : Hit) (l : list Hit) :
  HdRel dist_le x l -> insert_by_dist x l = x :: l.
Proof.
  intros H. destruct l as [|y t]; [reflexivity|]. simpl.
  inversion H; subst.
  assert (flt (dist y) (dist x) = false) as E by now apply flt_false_iff.
  now rewrite E.
Qed.

(** Sorting a list that is already in ascending order changes nothing. *)
Lemma sorted_by_dist_id (l : list Hit) :
  Sorted dist_le l -> sorted_by_dist l = l.
Proof.
  induction 1 as [|x t Hs IH Hd]; [reflexivity|].
  simpl. rewrite IH. now apply insert_by_dist_head.
Qed.

Lemma hits_of_doc_id (d : string) (l : list Hit) :
  Forall (fun h => doc_uri h = d) l -> hits_of_doc d l = l.
Proof.
  unfold hits_of_doc. induction 1 as [|x t Hx Ht IH]; [reflexivity|].
  simpl. apply String.eqb_eq in Hx. now rewrite Hx, IH.
Qed.

Lemma StronglySorted_firstn (n : nat) (l : list Hit) :
  StronglySorted dist_le l -> StronglySorted dist_le (firstn n l).
Proof.
  intros H. revert n. induction H as [|x t Hs IH Hall]; intros n.
  - rewrite firstn_nil. constructor.
  - destruct n as [|n]; simpl; constructor.
    + apply IH.
    + rewrite Forall_forall in *. intros y Hy. apply Hall.
      exact (in_firstn n t y Hy).
Qed.

(** X2.  Narrowing is idempotent: narrowing the narrowed hits again, with
    the same document and the same [doc_ctx_chunks], returns them
    unchanged. *)
Theorem narrow_idempotent (d : string) (hits : list Hit) (n : Z) :
  narrow d (narrow d hits n) n = narrow d hits n.
Proof.
  assert (Forall (fun h => doc_uri h = d) (narrow d hits n)) as Hd.
  { apply Forall_forall. intros h Hh. now apply narrow_in in Hh. }
  unfold narrow at 1. rewrite (hits_of_doc_id d _ Hd).
  unfold narrow, take.
  rewrite sorted_by_dist_id.
  - rewrite firstn_firstn. f_equal. lia.
  - apply StronglySorted_Sorted, StronglySorted_firstn, sorted_by_dist_sorted.
Qed.

(** X1.  The recorded best distance is the smallest distance among all
    coarse hits of the selected document, kept or dropped, for every
    document that has a hit, whatever [doc_ctx_chunks] is and however far
    the hits are. *)
Theorem best_dist_is_min_over_coarse_hits (d : string) (hits : list Hit) (n : Z) :
  (exists h, In h hits /\ doc_uri h = d) ->
  is_min_distance d hits (best_dist_of (narrow d hits n)).
Proof.
  intros Hex.
  pose proof (narrow_nonempty d hits n Hex) as Hne.
  destruct (best_dist_of_spec (narrow d hits n)) as [_ Hb].
  destruct (Hb Hne) as [[h0 [Hin0 E0]] Hmin]. split.
  - exists h0. apply narrow_in in Hin0 as Hh0.
    destruct Hh0 as [H1 H2]. repeat split; auto. rewrite E0. reflexivity.
  - intros h Hh Hd.
    assert (In h (sorted_by_dist (hits_of_doc d hits))) as HinS.
    { apply (Permutation_in _ (Permutation_sym (sorted_by_dist_perm _))).
      now apply hits_of_doc_in. }
    unfold narrow, take in *.
    set (S := sorted_by_dist (hits_of_doc d hits)) in *.
    set (k := Z.to_nat (Z.max 2 n)) in *.
    rewrite <- (firstn_skipn k S) in HinS. apply in_app_or in HinS.
    destruct HinS as [Hk|Hdrop]; [now apply Hmin|].
    eapply Qle_trans; [apply (Hmin h0 Hin0)|].
    exact (sorted_firstn_skipn k S h0 h (sorted_by_dist_sorted _) Hin0 Hdrop).
Qed.

Lemma best_dist_is_min_example :
  is_min_distance "A" mixed_hits (best_dist_of (narrow "A" mixed_hits 1)).
Proof.
  apply (best_dist_is_min_over_coarse_hits "A" mixed_hits 1).
  exists (hit "A" 0.50). split; [now left | reflexivity].
Defined.

(** ** Ties: the first minimal element wins *)

Section MinByFirst.
Context {A K : Type}.
Variable lt : K -> K -> bool.
Variable key : A -> K.
Hypothesis lt_trans :
  forall a b c, lt a b = true -> lt b c = true -> lt a c = true.
Hypothesis lt_cotrans :
  forall a b c, lt a b = true -> lt a c = true \/ lt c b = true.

Lemma min_fold_first (r : list A) (x : A) (before since : list A) :
  (forall z, In z before -> lt (key x) (key z) = true) ->
  (forall z, In z since -> lt (key z) (key x) = false) ->
  exists pre post,
    (before ++ x :: since ++ r)%list
    = (pre ++
       fold_left (fun best y => if lt (key y) (key best) then y else best) r x
       :: post)%list /\
    forall z, In z pre ->
      lt (key (fold_left (fun best y => if lt (key y) (key best) then y else best) r x))
         (key z) = true.
Proof.
  revert x before since. induction r as [|y r IH]; intros x before since Hb Hs.
  - exists before, since. simpl. rewrite app_nil_r. auto.
  - simpl. destruct (lt (key y) (key x)) eqn:E.
    + destruct (IH y (before ++ x :: since)%list []) as [pre [post [H1 H2]]].
      * intros z Hz. apply in_app_or in Hz. destruct Hz as [Hz|[<-|Hz]].
        -- apply lt_trans with (key x); auto.
        -- exact E.
        -- destruct (lt_cotrans _ _ (key z) E) as [H|H]; [exact H|].
           rewrite (Hs z Hz) in H. discriminate.
      * intros z [].
      * exists pre, post. split; [|exact H2].
        rewrite <- H1. simpl. rewrite <- !app_assoc. reflexivity.
    + destruct (IH x before (since ++ [y])%list) as [pre [post [H1 H2]]].
      * exact Hb.
      * intros z Hz. apply in_app_or in Hz. destruct Hz as [Hz|[<-|[]]]; auto.
      * exists pre, post. split; [|exact H2].
        rewrite <- H1. rewrite <- !app_assoc. reflexivity.
Qed.

(** [min(xs, key=key)] returns the first of the elements with a minimal
    key: everything before it has a strictly larger key. *)
Lemma py_min_by_first (xs : list A) (m : A) :
  py_min_by lt key xs = Ok m ->
  exists pre post,
    xs = (pre ++ m :: post)%list /\
    forall z, In z pre -> lt (key m) (key z) = true.
Proof.
  destruct xs as [|x r]; simpl; [discriminate|].
  intros E. injection E as <-.
  destruct (min_fold_first r x [] []) as [pre [post [H1 H2]]].
  - intros z [].
  - intros z [].
  - exists pre, post. split; [exact H1 | exact H2].
Qed.

End MinByFirst.

Lemma key_lt_cotrans (a b c : Q * Z) :
  key_lt a b = true -> key_lt a c = true \/ key_lt c b = true.
Proof.
  intros H. destruct (key_lt a c) eqn:E; [now left|right].
  apply key_lt_false_iff in E. apply key_lt_iff in H. apply key_lt_iff.
  unfold key_less in *.
  destruct E as [E|[E E']], H as [H|[H H']].
  - left. now apply Qlt_trans with (fst a).
  - left. now rewrite <- H.
  - left. now rewrite E.
  - right. split; [now rewrite E | lia].
Qed.

(** The loop over the hits, started from a partly filled [doc_min]. *)
Definition build_doc_min_from (dm : dict Q) (hits : list Hit) : dict Q :=
  fold_left
    (fun doc_min h =>
       let d := doc_uri h in
       dict_set doc_min d (fmin2 (dict_get_or doc_min d one_f) (dist h)))
    hits dm.

Lemma dict_set_keys_nodup {V : Type} (d : dict V) (k : string) (v : V) :
  NoDup (dict_keys d) -> NoDup (dict_keys (dict_set d k v)).
Proof.
  intros H. rewrite dict_keys_set. destruct (dict_has d k) eqn:E; [exact H|].
  apply NoDup_app; [exact H | repeat constructor; intros [] |].
  intros x Hx [<-|[]]. apply dict_has_in_keys in Hx. congruence.
Qed.

Lemma build_doc_min_from_nodup (dm : dict Q) (hits : list Hit) :
  NoDup (dict_keys dm) -> NoDup (dict_keys (build_doc_min_from dm hits)).
Proof.
  unfold build_doc_min_from. revert dm.
  induction hits as [|h r IH]; intros dm H; simpl; [exact H|].
  apply IH. now apply dict_set_keys_nodup.
Qed.

Lemma build_doc_min_from_prefix (dm : dict Q) (hits : list Hit) :
  exists ext,
    dict_keys (build_doc_min_from dm hits) = (dict_keys dm ++ ext)%list.
Proof.
  unfold build_doc_min_from. revert dm.
  induction hits as [|h r IH]; intros dm; simpl.
  - exists []. now rewrite app_nil_r.
  - destruct (IH (dict_set dm (doc_uri h)
                    (fmin2 (dict_get_or dm (doc_uri h) one_f) (dist h))))
      as [ext E].
    rewrite E, dict_keys_set. destruct (dict_has dm (doc_uri h)).
    + now exists ext.
    + exists (doc_uri h :: ext). now rewrite <- app_assoc.
Qed.

(** In a duplicate-free list, what stands before an element that stands
    before [b] lies inside every prefix that ends just before [b]. *)
Lemma nodup_split_order {T : Type} (l1 ext kpre kpost : list T) (a b : T) :
  (l1 ++ b :: ext = kpre ++ a :: kpost)%list ->
  NoDup (kpre ++ a :: kpost) ->
  In b kpost ->
  In a l1.
Proof.
  revert l1. induction kpre as [|c kpre IH]; intros l1 E N Hb.
  - destruct l1 as [|x l1]; simpl in *.
    + injection E as -> _. inversion N; subst. contradiction.
    + injection E as -> _. now left.
  - destruct l1 as [|x l1]; simpl in *.
    + injection E as -> _. inversion N; subst.
      exfalso. apply H1. apply in_or_app. right. now right.
    + injection E as -> E. right. inversion N; subst. now apply IH.
Qed.

Lemma doc_min_keys_order (hits : list Hit) (dm : dict Q)
    (kpre kpost : list string) (d d' : string) :
  NoDup (dict_keys dm) ->
  dict_keys (build_doc_min_from dm hits) = (kpre ++ d :: kpost)%list ->
  In d' kpost ->
  ~ In d' (dict_keys dm) ->
  In d (dict_keys dm) \/
  exists pre h post,
    hits = (pre ++ h :: post)%list /\
    doc_uri h = d /\
    forall x, In x pre -> doc_uri x <> d'.
Proof.
  revert dm. induction hits as [|h r IH]; intros dm N E Hd' Hn.
  - simpl in E. exfalso. apply Hn. rewrite E. apply in_or_app. right. now right.
  - change (build_doc_min_from dm (h :: r))
      with (build_doc_min_from
              (dict_set dm (doc_uri h)
                 (fmin2 (dict_get_or dm (doc_uri h) one_f) (dist h))) r) in E.
    set (dm' := dict_set dm (doc_uri h)
                  (fmin2 (dict_get_or dm (doc_uri h) one_f) (dist h))) in *.
    assert (NoDup (dict_keys dm')) as N' by now apply dict_set_keys_nodup.
    destruct (string_dec d' (doc_uri h)) as [Eh|Nh].
    + left. destruct (build_doc_min_from_prefix dm' r) as [ext Ex].
      assert (dict_keys dm' = (dict_keys dm ++ [d'])%list) as Ek.
      { unfold dm'. rewrite dict_keys_set.
        destruct (dict_has dm (doc_uri h)) eqn:Eh'.
        - apply dict_has_in_keys in Eh'. rewrite <- Eh in Eh'. contradiction.
        - now rewrite Eh. }
      rewrite Ek, <- app_assoc in Ex. simpl in Ex.
      apply (nodup_split_order (dict_keys dm) ext kpre kpost d d').
      * now rewrite <- Ex, <- E.
      * rewrite <- E. now apply build_doc_min_from_nodup.
      * exact Hd'.
    + assert (~ In d' (dict_keys dm')) as Hn'.
      { unfold dm'. rewrite dict_keys_set_in. intros [H|H]; contradiction. }
      destruct (IH dm' N' E Hd' Hn') as [H|[pre [h0 [post [H1 [H2 H3]]]]]].
      * unfold dm' in H. apply dict_keys_set_in in H. destruct H as [->|H].
        -- right. exists [], h, r. repeat split. intros x [].
        -- now left.
      * right. exists (h :: pre), h0, post. subst r. repeat split; auto.
        intros x [<-|Hx]; [congruence | now apply H3].
Qed.

(** X3.  Ties go to the document retrieved first.  If the selected document
    [d] does not strictly beat another document [d'] that has a hit (their
    keys [(doc_min, -doc_counts)] are equal, since nothing beats [d]), then
    a hit of [d] comes before every hit of [d'] in the coarse hit list. *)
Theorem select_tie_goes_to_first_retrieved (hits : list Hit) (d d' : string) :
  pick_best_doc (build_doc_min hits) (Counter (map doc_uri hits)) = Ok d ->
  (exists h, In h hits /\ doc_uri h = d') ->
  d' <> d ->
  key_lt (dict_get_or (build_doc_min hits) d one_f,
          - counter_get (Counter (map doc_uri hits)) d)
         (dict_get_or (build_doc_min hits) d' one_f,
          - counter_get (Counter (map doc_uri hits)) d') = false ->
  exists pre h post,
    hits = (pre ++ h :: post)%list /\
    doc_uri h = d /\
    forall x, In x pre -> doc_uri x <> d'.
Proof.
  intros E Hd' Nd T.
  apply (py_min_by_first key_lt _ key_lt_trans key_lt_cotrans) in E.
  destruct E as [kpre [kpost [Ek Hpre]]].
  assert (In d' kpost) as Hpost.
  { apply doc_min_keys in Hd'. rewrite Ek in Hd'. apply in_app_or in Hd'.
    destruct Hd' as [H|[H|H]]; [|congruence|exact H].
    rewrite (Hpre d' H) in T. discriminate. }
  destruct (doc_min_keys_order hits [] kpre kpost d d') as [[]|H]; auto.
  constructor.
Qed.

(** Two documents at the same distance with one hit each. *)
Definition tied_hits : list Hit := [hit "B" 0.30; hit "A" 0.30; hit "C" 0.40].

Lemma select_tie_example :
  exists pre h post,
    tied_hits = (pre ++ h :: post)%list /\
    doc_uri h = "B" /\
    forall x, In x pre -> doc_uri x <> "A".
Proof.
  apply (select_tie_goes_to_first_retrieved tied_hits "B" "A").
  - reflexivity.
  - exists (hit "A" 0.30). split; [right; now left | reflexivity].
  - discriminate.
  - reflexivity.
Defined.

(** * Further properties of the graph and of [/ask] *)

Section PipelineMore.

Variable embed_texts : list string -> result (list (list Q)).
Variable retrieve_by_embedding : list Q -> Z -> result (list Hit).
Variable generate_text : string -> result (option string).

(** X4.  A run of the graph, as [qa_graph.invoke] starts it, is the chain
    embed, retrieve, select_doc, gate and then exactly one of abstain_out
    and reason, chosen by the [abstain] flag the gate left: its result is
    the sequential composition of these five nodes, the first exception of
    a node is the exception of the run, and the recursion limit is never
    what ends it. *)
Theorem graph_runs_five_nodes (s : QAState) :
  qa_graph_invoke embed_texts retrieve_by_embedding generate_text s =
  (s1 <- _embed_node embed_texts s ;;
   s2 <- _retrieve_node retrieve_by_embedding s1 ;;
   s3 <- _select_doc_node s2 ;;
   s4 <- _gate_node s3 ;;
   if get_or (st_abstain s4) false
   then _abstain_out_node s4
   else _reason_node generate_text s4).
Proof.
  unfold qa_graph_invoke.
  rewrite run_from_step by discriminate. cbn [run_node].
  destruct (_embed_node embed_texts s) as [s1|e]; cbn [bind next_node];
    [|reflexivity].
  rewrite run_from_step by discriminate. cbn [run_node].
  destruct (_retrieve_node retrieve_by_embedding s1) as [s2|e];
    cbn [bind next_node]; [|reflexivity].
  rewrite run_from_step by discriminate. cbn [run_node].
  destruct (_select_doc_node s2) as [s3|e]; cbn [bind next_node];
    [|reflexivity].
  rewrite run_from_step by discriminate. cbn [run_node].
  destruct (_gate_node s3) as [s4|e]; cbn [bind next_node]; [|reflexivity].
  destruct (get_or (st_abstain s4) false).
  - rewrite run_from_step by discriminate. cbn [run_node].
    destruct (_abstain_out_node s4); cbn [bind next_node];
      [apply run_from_END | reflexivity].
  - rewrite run_from_step by discriminate. cbn [run_node].
    destruct (_reason_node generate_text s4); cbn [bind next_node];
      [apply run_from_END | reflexivity].
Qed.

End PipelineMore.

Section GeneratorIndependence.

Variable embed_texts : list string -> result (list (list Q)).
Variable retrieve_by_embedding : list Q -> Z -> result (list Hit).

(** X5.  An abstention never consults the generator.  If [/ask] abstains
    with one generator it returns the very same response with any other
    generator, and a run of the graph that ends with [abstain = true] ends
    in the very same state with any other generator. *)
Theorem abstention_ignores_generator
    (g1 g2 : string -> result (option string))
    (q : string) (k : Z) (t : Q) (m n : Z) (out : QAState)
    (env : Env) (pq : option string) (pk : option Z) :
  (dict_get (body (ask embed_texts retrieve_by_embedding g1 env pq pk))
     "abstained" = Some (JBool true) ->
   ask embed_texts retrieve_by_embedding g2 env pq pk
   = ask embed_texts retrieve_by_embedding g1 env pq pk) /\
  (qa_graph_invoke embed_texts retrieve_by_embedding g1
     (initial_state q k t m n) = Ok out ->
   st_abstain out = Some true ->
   qa_graph_invoke embed_texts retrieve_by_embedding g2
     (initial_state q k t m n) = Ok out).
Proof.
  split.
  - destruct (ask_outcome_total embed_texts retrieve_by_embedding g1 env pq pk)
      as [ | |emb Nq He Hr|emb hits d Nq He Hr N Hd G
          |emb hits d g Nq He Hr N Hd G Hg]; intros Hb; try discriminate Hb.
    + exact (ask_no_hits_abstains embed_texts retrieve_by_embedding g2
               env pq pk emb Nq He Hr).
    + unfold ask.
      rewrite (ask_try_hits embed_texts retrieve_by_embedding g2
                 env pq pk emb hits d Nq He Hr N Hd).
      now rewrite G.
  - intros E Ha.
    destruct (invoke_cases embed_texts retrieve_by_embedding g1 q k t m n out E)
      as [emb [hits [He [Hr [[-> [G ->]]|[d [N [Hd [[G ->]|[_ [r [_ ->]]]]]]]]]]]].
    + rewrite (invoke_no_hits embed_texts retrieve_by_embedding g2
                 q k t m n emb He Hr), G.
      apply abstain_out_node_eq.
    + rewrite (invoke_hits embed_texts retrieve_by_embedding g2
                 q k t m n emb hits d He Hr N Hd), G.
      apply abstain_out_node_eq.
    + discriminate Ha.
Qed.

End GeneratorIndependence.

Lemma abstention_ignores_generator_example :
  ask stub_embed (stub_retrieve [hit "A" 0.70])
    (fun _ => Err (RuntimeError "generator down")) default_env
    (Some "What is the capital of France?") None
  = low_confidence_response.
Proof.
  destruct (abstention_ignores_generator stub_embed (stub_retrieve [hit "A" 0.70])
              (stub_generate (Some " Paris. "))
              (fun _ => Err (RuntimeError "generator down"))
              "q" 6 0.65 1 4 (initial_state "q" 6 0.65 1 4)
              default_env (Some "What is the capital of France?") None)
    as [H _].
  apply H. vm_compute. reflexivity.
Defined.

(** ** Blank strings *)

(** A string made of whitespace only. *)
Fixpoint blank (s : string) : bool :=
  match s with
  | EmptyString => true
  | String c r => is_space c && blank r
  end.

Lemma lstrip_blank (s : string) : blank s = true -> lstrip s = "".
Proof.
  induction s as [|c r IH]; simpl; [reflexivity|].
  intros H. apply andb_true_iff in H. destruct H as [Hc Hr].
  rewrite Hc. now apply IH.
Qed.

Lemma lstrip_empty_blank (s : string) : lstrip s = "" -> blank s = true.
Proof.
  induction s as [|c r IH]; simpl; [reflexivity|].
  destruct (is_space c); [exact IH | discriminate].
Qed.

(** What [lstrip] returns is empty or starts with a non-space. *)
Lemma lstrip_head (s : string) :
  lstrip s = "" \/ exists c r, lstrip s = String c r /\ is_space c = false.
Proof.
  induction s as [|c r IH]; simpl; [now left|].
  destruct (is_space c) eqn:E; [exact IH|]. right. eauto.
Qed.

Lemma lstrip_idempotent (s : string) : lstrip (lstrip s) = lstrip s.
Proof.
  destruct (lstrip_head s) as [E|[c [r [E Hc]]]]; rewrite E; [reflexivity|].
  simpl. now rewrite Hc.
Qed.

Lemma blank_rev_onto (s acc : string) :
  blank (string_rev_onto s acc) = blank s && blank acc.
Proof.
  revert acc. induction s as [|c r IH]; intros acc; simpl; [reflexivity|].
  rewrite IH. simpl. destruct (is_space c), (blank r); reflexivity.
Qed.

Lemma blank_rev (s : string) : blank (string_rev s) = blank s.
Proof. unfold string_rev. rewrite blank_rev_onto. simpl. apply andb_true_r. Qed.

Lemma string_rev_onto_empty (s acc : string) :
  string_rev_onto s acc = "" -> s = "" /\ acc = "".
Proof.
  revert acc. induction s as [|c r IH]; intros acc; simpl; [auto|].
  intros H. apply IH in H. destruct H as [_ H]. discriminate.
Qed.

Lemma string_rev_empty (s : string) : string_rev s = "" -> s = "".
Proof. intros H. now apply string_rev_onto_empty in H. Qed.

(** [s.strip()] is empty exactly when [s] is whitespace only. *)
Lemma strip_empty_iff (s : string) : strip s = "" <-> blank s = true.
Proof.
  unfold strip, rstrip. split.
  - intros H. apply string_rev_empty, lstrip_empty_blank in H.
    rewrite blank_rev in H. apply lstrip_blank in H.
    rewrite lstrip_idempotent in H. now apply lstrip_empty_blank.
  - intros H. rewrite (lstrip_blank s H). reflexivity.
Qed.

(** ** The number of distinct documents *)

Lemma Counter_keys_fold (xs : list string) (c : dict Z) (k : string) :
  In k (dict_keys
          (fold_left (fun c x => dict_set c x (dict_get_or c x 0 + 1)) xs c))
  <-> In k (dict_keys c) \/ In k xs.
Proof.
  revert c. induction xs as [|x r IH]; intros c; simpl.
  - tauto.
  - rewrite IH, dict_keys_set_in. split.
    + intros [[->|H]|H]; auto.
    + intros [H|[->|H]]; auto.
Qed.

Lemma Counter_keys_nodup_fold (xs : list string) (c : dict Z) :
  NoDup (dict_keys c) ->
  NoDup (dict_keys
           (fold_left (fun c x => dict_set c x (dict_get_or c x 0 + 1)) xs c)).
Proof.
  revert c. induction xs as [|x r IH]; intros c H; simpl; [exact H|].
  apply IH. now apply dict_set_keys_nodup.
Qed.

(** [len(Counter(xs))] is [len(set(xs))]. *)
Lemma Counter_len (xs : list string) : len (Counter xs) = count_distinct xs.
Proof.
  unfold count_distinct, len. f_equal.
  rewrite <- (length_map fst (Counter xs)).
  apply Permutation_length, NoDup_Permutation.
  - apply Counter_keys_nodup_fold. constructor.
  - apply NoDup_nodup.
  - intros k. fold (dict_keys (Counter xs)). unfold Counter.
    rewrite Counter_keys_fold, nodup_In. simpl. tauto.
Qed.

Section AskAndRunQa.

Variable embed_texts : list string -> result (list (list Q)).
Variable retrieve_by_embedding : list Q -> Z -> result (list Hit).
Variable generate_text : string -> result (option string).

(** With [k] and the knobs parsed, the response is the missing-q error
    exactly on a blank question. *)
Lemma ask_parsed_400_iff
    (env : Env) (pq : option string) (pk : option Z) :
  let r := ask embed_texts retrieve_by_embedding generate_text env pq pk in
  (status_code r = 400 <-> blank (get_or pq "") = true) /\
  (blank (get_or pq "") = true -> r = JSONResponse missing_q_body 400).
Proof.
  intros r. subst r.
  assert (blank (get_or pq "") = true -> ask_q pq = "") as B
    by (intros H; now apply strip_empty_iff).
  split; [split|].
  - destruct (ask_outcome_total embed_texts retrieve_by_embedding generate_text
                env pq pk) as [Eq| | | | ]; intros Hs; try discriminate Hs.
    now apply strip_empty_iff.
  - intros H. unfold ask. now rewrite ask_try_missing_q by auto.
  - intros H. unfold ask. now rewrite ask_try_missing_q by auto.
Qed.

(** The ways the [try] block of [/ask] can raise [e]. *)
Definition ask_failure (env : Env) (pq : option string) (pk : option Z)
    (e : exn) : Prop :=
  ask_q pq <> "" /\
  (embed_texts [ask_q pq] = Err e \/
   (exists embs, embed_texts [ask_q pq] = Ok embs /\ unpack1 embs = Err e) \/
   (exists emb,
      embed_texts [ask_q pq] = Ok [emb] /\
      retrieve_by_embedding emb (Z.max (get_or pk 6) 12) = Err e) \/
   (exists emb hits d,
      embed_texts [ask_q pq] = Ok [emb] /\
      retrieve_by_embedding emb (Z.max (get_or pk 6) 12) = Ok hits /\
      hits <> [] /\
      pick_best_doc (build_doc_min hits) (Counter (map doc_uri hits)) = Ok d /\
      flt (get_or (MAX_COSINE_DIST env) 0.65%Q)
          (best_dist_of (narrow d hits (get_or (DOC_CTX_CHUNKS env) 4)))
      || (len (narrow d hits (get_or (DOC_CTX_CHUNKS env) 4))
          <? get_or (MIN_CTX_HITS env) 1) = false /\
      generate_text
        (build_prompt
           (context_of (narrow d hits (get_or (DOC_CTX_CHUNKS env) 4)))
           (ask_q pq)) = Err e)).

Lemma ask_try_err_iff (env : Env) (pq : option string) (pk : option Z) (e : exn) :
  ask_try embed_texts retrieve_by_embedding generate_text env pq pk = Err e
  <-> ask_failure env pq pk e.
Proof.
  unfold ask_failure.
  destruct (string_dec (ask_q pq) "") as [Eq|Nq].
  { rewrite ask_try_missing_q by exact Eq. split; [discriminate|].
    intros [N _]. contradiction. }
  assert (ask_try embed_texts retrieve_by_embedding generate_text env pq pk =
          (embs <- embed_texts [ask_q pq] ;;
           emb <- unpack1 embs ;;
           coarse_hits <- retrieve_by_embedding emb (Z.max (get_or pk 6) 12) ;;
           match coarse_hits with
           | [] => Ok (JSONResponse no_hits_body 200)
           | _ :: _ =>
               ask_try embed_texts retrieve_by_embedding generate_text env pq pk
           end)) as U.
  { unfold ask_try at 1. fold (ask_q pq).
    pose proof Nq as Nb. apply String.eqb_neq in Nb. rewrite Nb.
    destruct (embed_texts [ask_q pq]) as [embs|e0] eqn:He; [|reflexivity].
    cbn [bind]. destruct (unpack1 embs) as [emb|e0] eqn:Hu; [|reflexivity].
    cbn [bind].
    destruct (retrieve_by_embedding emb (Z.max (get_or pk 6) 12))
      as [hits|e0] eqn:Hr; [|reflexivity].
    cbn [bind]. destruct hits as [|h0 r0]; [reflexivity|].
    unfold ask_try. fold (ask_q pq). rewrite Nb, He. cbn [bind]. rewrite Hu.
    cbn [bind]. rewrite Hr. reflexivity. }
  destruct (embed_texts [ask_q pq]) as [embs|e0] eqn:He.
  2:{ rewrite U. cbn [bind]. split.
      - intros H. injection H as ->. split; [exact Nq|]. now left.
      - intros [_ [H|[[x [H _]]|[[x [H _]]|[x [y [z [H _]]]]]]]];
          congruence. }
  destruct (unpack1 embs) as [emb|e0] eqn:Hu.
  2:{ rewrite U. cbn [bind]. rewrite Hu. cbn [bind]. split.
      - intros H. injection H as ->. split; [exact Nq|]. right. left. eauto.
      - intros [_ [H|[[x [H H']]|[[x [H _]]|[x [y [z [H _]]]]]]]];
          try discriminate H.
        + injection H as ->. congruence.
        + injection H as ->. discriminate Hu.
        + injection H as ->. discriminate Hu. }
  assert (embs = [emb]) as ->.
  { destruct embs as [|a [|b c]]; try discriminate Hu. now injection Hu as ->. }
  destruct (retrieve_by_embedding emb (Z.max (get_or pk 6) 12))
    as [hits|e0] eqn:Hr.
  2:{ rewrite U. cbn [bind unpack1]. rewrite Hr. cbn [bind]. split.
      - intros H. injection H as ->. split; [exact Nq|]. right. right. left. eauto.
      - intros [_ [H|[[x [H H']]|[[x [H H']]|[x [y [z [H [H' _]]]]]]]]];
          try discriminate H.
        + injection H as <-. discriminate H'.
        + injection H as <-. congruence.
        + injection H as <-. congruence. }
  destruct hits as [|h0 r0].
  { rewrite (ask_try_no_hits embed_texts retrieve_by_embedding generate_text
               env pq pk emb Nq He Hr). split; [discriminate|].
    intros [_ [H|[[x [H H']]|[[x [H H']]|[x [y [z [H [H' [N _]]]]]]]]]];
      try discriminate H.
    - injection H as <-. discriminate H'.
    - injection H as <-. congruence.
    - injection H as <-. rewrite Hr in H'. injection H' as <-. congruence. }
  assert (h0 :: r0 <> []) as N by discriminate.
  destruct (pick_best_doc_total (h0 :: r0) N) as [d Hd].
  rewrite (ask_try_hits embed_texts retrieve_by_embedding generate_text
             env pq pk emb (h0 :: r0) d Nq He Hr N Hd).
  split.
  - intros H. split; [exact Nq|]. right. right. right.
    exists emb, (h0 :: r0), d.
    destruct (flt _ _ || _) eqn:G; [discriminate H|].
    destruct (generate_text _) as [g|e0] eqn:Hg; [discriminate H|].
    injection H as ->. repeat split; auto.
  - intros [_ [H|[[x [H H']]|[[x [H H']]|[x [y [z [H [H' [_ [Hd' [G Hg]]]]]]]]]]]];
      try discriminate H.
    + injection H as <-. discriminate H'.
    + injection H as <-. congruence.
    + injection H as <-. rewrite Hr in H'. injection H' as <-.
      rewrite Hd in Hd'. injection Hd' as <-. rewrite G, Hg. reflexivity.
Qed.

(** With [k] and the knobs parsed, the status is 200, 400 or 500, and 500
    exactly on a failure of a collaborator. *)
Lemma ask_parsed_status_codes (env : Env) (pq : option string) (pk : option Z) :
  let r := ask embed_texts retrieve_by_embedding generate_text env pq pk in
  (status_code r = 200 \/ status_code r = 400 \/ status_code r = 500) /\
  (status_code r = 500 <-> exists e, ask_failure env pq pk e) /\
  (forall e, ask_failure env pq pk e ->
             r = JSONResponse [("detail", JStr (exn_str e))] 500).
Proof.
  intros r. subst r. split; [|split].
  - destruct (ask_outcome_total embed_texts retrieve_by_embedding generate_text
                env pq pk); simpl; auto.
  - split.
    + unfold ask.
      destruct (ask_try embed_texts retrieve_by_embedding generate_text env pq pk)
        as [r|e] eqn:E.
      * intros Hs. exfalso.
        assert (ask embed_texts retrieve_by_embedding generate_text env pq pk = r)
          as Er by (unfold ask; now rewrite E).
        pose proof (ask_outcome_total embed_texts retrieve_by_embedding
                      generate_text env pq pk) as O.
        rewrite Er in O.
        destruct O as [Eq| e Nq| | | ]; try discriminate Hs.
        (* a 500 response built by the [try] block itself does not exist *)
        clear Hs. revert E.
        destruct (ask_try embed_texts retrieve_by_embedding generate_text
                    env pq pk) as [r'|e'] eqn:E'; [|discriminate].
        intros E. injection E as E.
        pose proof E' as E2.
        unfold ask_try in E2. fold (ask_q pq) in E2.
        apply String.eqb_neq in Nq. rewrite Nq in E2.
        destruct (embed_texts [ask_q pq]) as [embs|?]; [|discriminate].
        cbn [bind] in E2. destruct (unpack1 embs) as [emb|?]; [|discriminate].
        cbn [bind] in E2.
        destruct (retrieve_by_embedding emb (Z.max (get_or pk 6) 12))
          as [hits|?]; [|discriminate].
        cbn [bind] in E2. destruct hits as [|h0 r0].
        { injection E2 as E2. rewrite <- E2 in E. discriminate E. }
        destruct (pick_best_doc _ _) as [d|?]; [|discriminate].
        cbn [bind] in E2. destruct (flt _ _ || _).
        { injection E2 as E2. rewrite <- E2 in E. discriminate E. }
        destruct (generate_text _); [|discriminate].
        cbn [bind] in E2. injection E2 as E2. rewrite <- E2 in E. discriminate E.
      * intros _. exists e. now apply ask_try_err_iff.
    + intros [e H]. apply ask_try_err_iff in H. unfold ask. now rewrite H.
  - intros e H. apply ask_try_err_iff in H. unfold ask. now rewrite H.
Qed.

End AskAndRunQa.

(** ** The request of [/ask] before its numbers are parsed *)

(** The knobs as [os.getenv] and the conversions [float(..)] and [int(..)]
    deliver them: [None] when the variable is unset, else the number read
    or the exception raised on a malformed value. *)
Record RawEnv : Type := mkRawEnv {
  RAW_MAX_COSINE_DIST : option (result Q);
  RAW_MIN_CTX_HITS : option (result Z);
  RAW_DOC_CTX_CHUNKS : option (result Z)
}.

Section AskRequest.

Variable embed_texts : list string -> result (list (list Q)).
Variable retrieve_by_embedding : list Q -> Z -> result (list Hit).
Variable generate_text : string -> result (option string).

(** [str(v)] of a JSON value that is not a string: [None], [True], a
    number, a list or a dictionary as Python prints it. *)
Variable py_repr : jval -> string.

(** [str(v)]: a string is itself. *)
Definition py_str (v : jval) : string :=
  match v with
  | JStr s => s
  | _ => py_repr v
  end.

(** The [try] block of [ask], conversions included.  [payload_q] is the
    ["q"] entry of the body when present; [payload_k] is the ["k"] entry
    when present, as [int(..)] reads it. *)
Definition ask_request_try (env : RawEnv) (payload_q : option jval)
    (payload_k : option (result Z)) : result Response :=
  let q := strip (py_str (get_or payload_q (JStr ""))) in
  k <- get_or payload_k (Ok 6) ;;
  if String.eqb q "" then
    Ok (JSONResponse [("error", JStr "Missing 'q' in body")] 400)
  else
    max_cosine_dist <- get_or (RAW_MAX_COSINE_DIST env) (Ok 0.65%Q) ;;
    min_hits <- get_or (RAW_MIN_CTX_HITS env) (Ok 1) ;;
    let coarse_k := Z.max k 12 in
    doc_ctx_chunks <- get_or (RAW_DOC_CTX_CHUNKS env) (Ok 4) ;;
    embs <- embed_texts [q] ;;
    emb <- unpack1 embs ;;
    coarse_hits <- retrieve_by_embedding emb coarse_k ;;
    match coarse_hits with
    | [] =>
        Ok (JSONResponse
              [("answer", JStr ABSTAIN_MESSAGE);
               ("citations", JList []);
               ("abstained", JBool true);
               ("debug", JDict [("reason", JStr "no_hits")])] 200)
    | _ :: _ =>
        let doc_counts := Counter (map doc_uri coarse_hits) in
        let doc_min := build_doc_min coarse_hits in
        best_doc <- pick_best_doc doc_min doc_counts ;;
        let doc_hits := narrow best_doc coarse_hits doc_ctx_chunks in
        let best_dist := best_dist_of doc_hits in
        if flt max_cosine_dist best_dist || (len doc_hits <? min_hits) then
          Ok (JSONResponse
                [("answer", JStr ABSTAIN_MESSAGE);
                 ("citations", JList []);
                 ("abstained", JBool true);
                 ("debug", JDict
                    [("best_dist", JFloat best_dist);
                     ("hits", JInt (len coarse_hits));
                     ("unique_docs", JInt (len doc_counts));
                     ("selected_doc", JStr best_doc)])] 200)
        else
          let context := join (nl ++ nl) (map (fun h => strip (chunk h)) doc_hits) in
          let prompt := build_prompt context q in
          generated <- generate_text prompt ;;
          let answer := strip (or_empty generated) in
          let citations := [citation best_doc] in
          Ok (mkResponse 200
                [("answer", JStr answer);
                 ("citations", JList (map citation_json citations));
                 ("debug", JDict
                    [("best_dist", JFloat best_dist);
                     ("hits", JInt (len coarse_hits));
                     ("unique_docs", JInt (len doc_counts));
                     ("selected_doc", JStr best_doc);
                     ("chunks_used", JInt (len doc_hits))])])
    end.

(** [ask] on the request as received. *)
Definition ask_request (env : RawEnv) (payload_q : option jval)
    (payload_k : option (result Z)) : Response :=
  match ask_request_try env payload_q payload_k with
  | Ok r => r
  | Err e => JSONResponse [("detail", JStr (exn_str e))] 500
  end.

(** The text of the question before it is stripped. *)
Definition question_text (payload_q : option jval) : string :=
  py_str (get_or payload_q (JStr "")).

(** The conversions that run once the question is known not to be blank,
    in the order of the source. *)
Definition parse_knobs (env : RawEnv) : result Env :=
  max_cosine_dist <- get_or (RAW_MAX_COSINE_DIST env) (Ok 0.65%Q) ;;
  min_hits <- get_or (RAW_MIN_CTX_HITS env) (Ok 1) ;;
  doc_ctx_chunks <- get_or (RAW_DOC_CTX_CHUNKS env) (Ok 4) ;;
  Ok (mkEnv (Some max_cosine_dist) (Some min_hits) (Some doc_ctx_chunks)).

(** Once its numbers are read, the request is handled as [ask_try] handles
    the parsed one. *)
Lemma ask_request_try_parsed (env : RawEnv) (pq : option jval)
    (pk : option (result Z)) :
  ask_request_try env pq pk =
  (k <- get_or pk (Ok 6) ;;
   if blank (question_text pq) then Ok (JSONResponse missing_q_body 400)
   else
     knobs <- parse_knobs env ;;
     ask_try embed_texts retrieve_by_embedding generate_text knobs
       (Some (question_text pq)) (Some k)).
Proof.
  unfold ask_request_try, parse_knobs. fold (question_text pq).
  destruct (get_or pk (Ok 6)) as [k|e]; cbn [bind]; [|reflexivity].
  assert (String.eqb (strip (question_text pq)) "" = blank (question_text pq))
    as Eb.
  { destruct (blank (question_text pq)) eqn:B.
    - apply String.eqb_eq. now apply strip_empty_iff.
    - apply String.eqb_neq. intros H. apply strip_empty_iff in H. congruence. }
  rewrite Eb.
  destruct (blank (question_text pq)) eqn:B; [reflexivity|].
  destruct (get_or (RAW_MAX_COSINE_DIST env) (Ok 0.65%Q)) as [t|e]; cbn [bind];
    [|reflexivity].
  destruct (get_or (RAW_MIN_CTX_HITS env) (Ok 1)) as [m|e]; cbn [bind];
    [|reflexivity].
  destruct (get_or (RAW_DOC_CTX_CHUNKS env) (Ok 4)) as [n|e]; cbn [bind];
    [|reflexivity].
  unfold ask_try. cbn [get_or]. rewrite Eb. reflexivity.
Qed.

(** The ways the [try] block of [/ask] can raise [e]: a conversion fails,
    or a collaborator does. *)
Definition ask_request_failure (env : RawEnv) (pq : option jval)
    (pk : option (result Z)) (e : exn) : Prop :=
  get_or pk (Ok 6) = Err e \/
  exists k,
    get_or pk (Ok 6) = Ok k /\
    blank (question_text pq) = false /\
    (parse_knobs env = Err e \/
     exists knobs,
       parse_knobs env = Ok knobs /\
       ask_failure embed_texts retrieve_by_embedding generate_text
         knobs (Some (question_text pq)) (Some k) e).

Lemma ask_request_try_err_iff (env : RawEnv) (pq : option jval)
    (pk : option (result Z)) (e : exn) :
  ask_request_try env pq pk = Err e <-> ask_request_failure env pq pk e.
Proof.
  rewrite ask_request_try_parsed. unfold ask_request_failure.
  destruct (get_or pk (Ok 6)) as [k|e0]; cbn [bind].
  2:{ split.
      - intros H. injection H as ->. now left.
      - intros [H|[k [H _]]]; [now injection H as -> | discriminate H]. }
  destruct (blank (question_text pq)) eqn:B.
  { split; [discriminate|]. intros [H|[k' [_ [H _]]]]; discriminate H. }
  destruct (parse_knobs env) as [knobs|e0]; cbn [bind].
  2:{ split.
      - intros H. injection H as ->. right. exists k. auto.
      - intros [H|[k' [_ [_ [H|[knobs [H _]]]]]]]; try discriminate H.
        now injection H as ->. }
  rewrite ask_try_err_iff. split.
  - intros H. right. exists k. split; [reflexivity|]. split; [reflexivity|].
    right. exists knobs. auto.
  - intros [H|[k' [Hk [_ [H|[knobs' [Hn H]]]]]]]; try discriminate H.
    injection Hk as <-. injection Hn as <-. exact H.
Qed.

(** X6.  [/ask] answers 400 exactly when [int(..)] accepts the ["k"] of
    the payload (an absent [k] is 6) and the text of its ["q"] (the empty
    text when absent) consists of whitespace only; the body is then the
    missing-q error, whatever the environment holds and the collaborators
    would do.  A [k] that [int(..)] rejects is answered with 500, blank
    question or not. *)
Theorem ask_rejects_exactly_blank_questions
    (env : RawEnv) (pq : option jval) (pk : option (result Z)) :
  let r := ask_request env pq pk in
  let text := match pq with
              | None => ""
              | Some (JStr s) => s
              | Some v => py_repr v
              end in
  (status_code r = 400 <->
   (exists k, get_or pk (Ok 6) = Ok k) /\ blank text = true) /\
  (status_code r = 400 ->
   r = JSONResponse [("error", JStr "Missing 'q' in body")] 400) /\
  (forall e, get_or pk (Ok 6) = Err e ->
             r = JSONResponse [("detail", JStr (exn_str e))] 500).
Proof.
  intros r text. subst r.
  assert (text = question_text pq) as ->.
  { unfold text, question_text. destruct pq as [[]|]; reflexivity. }
  unfold ask_request.
  rewrite ask_request_try_parsed.
  destruct (get_or pk (Ok 6)) as [k|e0]; cbn [bind].
  2:{ split; [|split].
      - split; [discriminate|]. intros [[k H] _]. discriminate H.
      - discriminate.
      - intros e H. now injection H as ->. }
  destruct (blank (question_text pq)) eqn:B.
  { split; [|split].
    - split; [eauto | reflexivity].
    - reflexivity.
    - discriminate. }
  assert (forall knobs,
            status_code
              (ask embed_texts retrieve_by_embedding generate_text knobs
                 (Some (question_text pq)) (Some k)) <> 400) as N.
  { intros knobs H.
    apply (ask_parsed_400_iff embed_texts retrieve_by_embedding generate_text)
      in H.
    cbn [get_or] in H. congruence. }
  destruct (parse_knobs env) as [knobs|e0]; cbn [bind].
  2:{ split; [|split]; try discriminate.
      split; [discriminate|]. intros [_ H]. discriminate H. }
  specialize (N knobs). unfold ask in N.
  destruct (ask_try embed_texts retrieve_by_embedding generate_text knobs
              (Some (question_text pq)) (Some k)) as [r|e0].
  - split; [|split]; try discriminate; try contradiction.
    split; [contradiction|]. intros [_ H]. discriminate H.
  - split; [|split]; try discriminate.
    split; [discriminate|]. intros [_ H]. discriminate H.
Qed.

(** X7.  [/ask] never raises and answers 200, 400 or 500.  It answers 500
    exactly when a conversion failed ([int(..)] of ["k"], read before the
    question is looked at, or, for a question that is not blank, [float(..)]
    or [int(..)] of a knob of the environment) or a collaborator did: the
    embedder failed or returned a number of vectors other than one, the
    index failed, or, the gate having passed, the generator failed.  The
    body is then [{"detail": str(e)}] for that exception. *)
Theorem ask_status_codes (env : RawEnv) (pq : option jval)
    (pk : option (result Z)) :
  let r := ask_request env pq pk in
  (status_code r = 200 \/ status_code r = 400 \/ status_code r = 500) /\
  (status_code r = 500 <-> exists e, ask_request_failure env pq pk e) /\
  (forall e, ask_request_failure env pq pk e ->
             r = JSONResponse [("detail", JStr (exn_str e))] 500).
Proof.
  intros r. subst r.
  assert (forall e, ask_request_failure env pq pk e ->
            ask_request env pq pk = JSONResponse [("detail", JStr (exn_str e))] 500)
    as F.
  { intros e H. apply ask_request_try_err_iff in H. unfold ask_request.
    now rewrite H. }
  split; [|split]; [| |exact F].
  - unfold ask_request. rewrite ask_request_try_parsed.
    destruct (get_or pk (Ok 6)) as [k|e0]; cbn [bind]; [|simpl; auto].
    destruct (blank (question_text pq)); [simpl; auto|].
    destruct (parse_knobs env) as [knobs|e0]; cbn [bind]; [|simpl; auto].
    exact (proj1 (ask_parsed_status_codes embed_texts retrieve_by_embedding
                    generate_text knobs (Some (question_text pq)) (Some k))).
  - split.
    + intros Hs.
      destruct (ask_request_try env pq pk) as [r|e] eqn:E.
      2:{ exists e. now apply ask_request_try_err_iff. }
      exfalso. unfold ask_request in Hs. rewrite E in Hs.
      rewrite ask_request_try_parsed in E.
      destruct (get_or pk (Ok 6)) as [k|e0]; cbn [bind] in E; [|discriminate E].
      destruct (blank (question_text pq)).
      { injection E as <-. discriminate Hs. }
      destruct (parse_knobs env) as [knobs|e0]; cbn [bind] in E;
        [|discriminate E].
      pose proof (ask_parsed_status_codes embed_texts retrieve_by_embedding
                    generate_text knobs (Some (question_text pq)) (Some k))
        as [_ [[H5 _] _]].
      unfold ask in H5. rewrite E in H5. destruct (H5 Hs) as [e He].
      apply (ask_try_err_iff embed_texts retrieve_by_embedding generate_text)
        in He.
      rewrite He in E. discriminate E.
    + intros [e H]. rewrite (F e H). reflexivity.
Qed.

End AskRequest.

(** A body without ["q"] whose ["k"] is not a number is answered with 500,
    not 400. *)
Lemma ask_rejects_malformed_k_example :
  ask_request stub_embed (stub_retrieve []) (stub_generate None)
    (fun _ => "None") (mkRawEnv None None None) None
    (Some (Err (ValueError "invalid literal for int() with base 10: 'abc'")))
  = JSONResponse
      [("detail", JStr "invalid literal for int() with base 10: 'abc'")] 500.
Proof.
  destruct (ask_rejects_exactly_blank_questions stub_embed (stub_retrieve [])
              (stub_generate None) (fun _ => "None")
              (mkRawEnv None None None) None
              (Some (Err (ValueError
                            "invalid literal for int() with base 10: 'abc'"))))
    as [_ [_ H]].
  exact (H _ eq_refl).
Defined.

(** A malformed knob in the environment is answered with 500 once the
    question is not blank. *)
Lemma ask_status_malformed_knob_example :
  ask_request stub_embed (stub_retrieve []) (stub_generate None)
    (fun _ => "None")
    (mkRawEnv (Some (Err (ValueError "could not convert string to float: 'x'")))
       None None)
    (Some (JStr "What is the capital of France?")) None
  = JSONResponse
      [("detail", JStr "could not convert string to float: 'x'")] 500.
Proof.
  destruct (ask_status_codes stub_embed (stub_retrieve [])
              (stub_generate None) (fun _ => "None")
              (mkRawEnv
                 (Some (Err (ValueError "could not convert string to float: 'x'")))
                 None None)
              (Some (JStr "What is the capital of France?")) None)
    as [_ [_ H]].
  apply (H (ValueError "could not convert string to float: 'x'")).
  right. exists 6. split; [reflexivity|]. split; [reflexivity|].
  left. reflexivity.
Defined.

Section RunQa.

Variable embed_texts : list string -> result (list (list Q)).
Variable retrieve_by_embedding : list Q -> Z -> result (list Hit).
Variable generate_text : string -> result (option string).

(** The ways [run_qa] can raise [e]. *)
Definition run_qa_failure (q : string) (k : Z) (t : Q) (m n : Z) (e : exn)
    : Prop :=
  embed_texts [q] = Err e \/
  (exists embs, embed_texts [q] = Ok embs /\ unpack1 embs = Err e) \/
  (exists emb,
     embed_texts [q] = Ok [emb] /\
     retrieve_by_embedding emb (Z.max k 12) = Err e) \/
  (exists emb,
     embed_texts [q] = Ok [emb] /\
     retrieve_by_embedding emb (Z.max k 12) = Ok [] /\
     flt t one_f || (0 <? m) = false /\
     e = KeyError "doc_hits") \/
  (exists emb hits d,
     embed_texts [q] = Ok [emb] /\
     retrieve_by_embedding emb (Z.max k 12) = Ok hits /\
     hits <> [] /\
     pick_best_doc (build_doc_min hits) (Counter (map doc_uri hits)) = Ok d /\
     flt t (best_dist_of (narrow d hits n)) || (len (narrow d hits n) <? m)
     = false /\
     generate_text (build_prompt (context_of (narrow d hits n)) q) = Err e).

Lemma run_qa_invoke_err (q : string) (k : Z) (t : Q) (m n : Z) (e : exn) :
  run_qa embed_texts retrieve_by_embedding generate_text q k t m n = Err e <->
  qa_graph_invoke embed_texts retrieve_by_embedding generate_text
    (initial_state q k t m n) = Err e.
Proof.
  unfold run_qa.
  destruct (qa_graph_invoke embed_texts retrieve_by_embedding generate_text
              (initial_state q k t m n)) as [out|e0] eqn:E; cbn [bind].
  - split; [|discriminate].
    destruct (invoke_cases embed_texts retrieve_by_embedding generate_text
                q k t m n out E)
      as [emb [hits [_ [_ [[_ [_ ->]]|[d [_ [_ [[_ ->]|[_ [r [_ ->]]]]]]]]]]]];
      discriminate.
  - split; intros H; injection H as ->; reflexivity.
Qed.

Lemma reason_node_generate_err (s : QAState) (dh : list Hit) (q : string)
    (e : exn) :
  st_doc_hits s = Some dh ->
  st_q s = Some q ->
  generate_text (build_prompt (context_of dh) q) = Err e ->
  _reason_node generate_text s = Err e.
Proof.
  intros Edh Eq E. unfold _reason_node. rewrite Edh, Eq. cbn [item bind].
  fold (context_of dh). now rewrite E.
Qed.

(** X10.  [run_qa] fails only in five ways: the embedder failed, it
    returned a number of vectors other than one, the index failed, the
    index returned no hit while [max_cosine_dist >= 1.0] and
    [min_hits <= 0] ([KeyError] on [doc_hits]), or, the gate having passed,
    the generator failed.  In every other case it returns a dictionary. *)
Theorem run_qa_fails_iff (q : string) (k : Z) (t : Q) (m n : Z) (e : exn) :
  run_qa embed_texts retrieve_by_embedding generate_text q k t m n = Err e
  <-> run_qa_failure q k t m n e.
Proof.
  rewrite run_qa_invoke_err. unfold run_qa_failure.
  destruct (embed_texts [q]) as [embs|e0] eqn:He.
  2:{ rewrite qa_graph_invoke_unfold. unfold _embed_node.
      cbn [initial_state st_q item bind]. rewrite He. cbn [bind]. split.
      - intros H. injection H as ->. now left.
      - intros [H|[[x [H _]]|[[x [H _]]|[[x [H _]]|[x [y [z [H _]]]]]]]];
          congruence. }
  destruct (unpack1 embs) as [emb|e0] eqn:Hu.
  2:{ rewrite qa_graph_invoke_unfold. unfold _embed_node.
      cbn [initial_state st_q item bind]. rewrite He. cbn [bind]. rewrite Hu.
      cbn [bind]. split.
      - intros H. injection H as ->. right. left. eauto.
      - intros [H|[[x [H H']]|[[x [H _]]|[[x [H _]]|[x [y [z [H _]]]]]]]];
          try discriminate H.
        + injection H as ->. congruence.
        + injection H as ->. discriminate Hu.
        + injection H as ->. discriminate Hu.
        + injection H as ->. discriminate Hu. }
  assert (embs = [emb]) as ->.
  { destruct embs as [|a [|b c]]; try discriminate Hu. now injection Hu as ->. }
  destruct (retrieve_by_embedding emb (Z.max k 12)) as [hits|e0] eqn:Hr.
  2:{ rewrite qa_graph_invoke_unfold. unfold _embed_node.
      cbn [initial_state st_q item bind]. rewrite He. cbn [bind unpack1].
      unfold _retrieve_node.
      cbn [set_coarse_k set_query_emb st_query_emb st_coarse_k st_k item bind
           get_or initial_state].
      rewrite Hr. cbn [bind]. split.
      - intros H. injection H as ->. right. right. left. eauto.
      - intros [H|[[x [H H']]|[[x [H H']]|[[x [H [H' _]]]|[x [y [z [H [H' _]]]]]]]]];
          try discriminate H.
        + injection H as <-. discriminate H'.
        + injection H as <-. congruence.
        + injection H as <-. congruence.
        + injection H as <-. congruence. }
  destruct hits as [|h0 r0].
  { rewrite (invoke_no_hits embed_texts retrieve_by_embedding generate_text
               q k t m n emb He Hr).
    destruct (flt t one_f || (0 <? m)) eqn:G.
    - rewrite abstain_out_node_eq. split; [discriminate|].
      intros [H|[[x [H H']]|[[x [H H']]|[[x [H [H' [G' _]]]]|[x [y [z [H [H' [N _]]]]]]]]]];
        try discriminate H.
      + injection H as <-. discriminate H'.
      + injection H as <-. congruence.
      + congruence.
      + injection H as <-. rewrite Hr in H'. injection H' as <-. congruence.
    - split.
      + intros H. injection H as <-. right. right. right. left.
        exists emb. auto.
      + intros [H|[[x [H H']]|[[x [H H']]|[[x [H [H' [G' ->]]]]|[x [y [z [H [H' [N _]]]]]]]]]];
          try discriminate H.
        * injection H as <-. discriminate H'.
        * injection H as <-. congruence.
        * reflexivity.
        * injection H as <-. rewrite Hr in H'. injection H' as <-. congruence. }
  assert (h0 :: r0 <> []) as N by discriminate.
  destruct (pick_best_doc_total (h0 :: r0) N) as [d Hd].
  rewrite (invoke_hits embed_texts retrieve_by_embedding generate_text
             q k t m n emb (h0 :: r0) d He Hr N Hd).
  destruct (flt _ _ || _) eqn:G.
  - rewrite abstain_out_node_eq. split; [discriminate|].
    intros [H|[[x [H H']]|[[x [H H']]|[[x [H [H' _]]]|[x [y [z [H [H' [_ [Hd' [G' _]]]]]]]]]]]];
      try discriminate H.
    + injection H as <-. discriminate H'.
    + injection H as <-. congruence.
    + injection H as <-. congruence.
    + injection H as <-. rewrite Hr in H'. injection H' as <-.
      rewrite Hd in Hd'. injection Hd' as <-. congruence.
  - destruct (generate_text
                (build_prompt (context_of (narrow d (h0 :: r0) n)) q))
      as [g|e0] eqn:Hg.
    + rewrite (reason_node_run generate_text
                 (set_abstain (chosen_state q k t m n emb (h0 :: r0) d) false)
                 (narrow d (h0 :: r0) n) q d g eq_refl eq_refl Hg eq_refl).
      split; [discriminate|].
      intros [H|[[x [H H']]|[[x [H H']]|[[x [H [H' _]]]|[x [y [z [H [H' [_ [Hd' [_ Hg']]]]]]]]]]]];
        try discriminate H.
      * injection H as <-. discriminate H'.
      * injection H as <-. congruence.
      * injection H as <-. congruence.
      * injection H as <-. rewrite Hr in H'. injection H' as <-.
        rewrite Hd in Hd'. injection Hd' as <-. congruence.
    + rewrite (reason_node_generate_err
                 (set_abstain (chosen_state q k t m n emb (h0 :: r0) d) false)
                 (narrow d (h0 :: r0) n) q e0 eq_refl eq_refl Hg).
      split.
      * intros H. injection H as <-. right. right. right. right.
        exists emb, (h0 :: r0), d. repeat split; auto.
      * intros [H|[[x [H H']]|[[x [H H']]|[[x [H [H' _]]]|[x [y [z [H [H' [_ [Hd' [_ Hg']]]]]]]]]]]];
          try discriminate H.
        -- injection H as <-. discriminate H'.
        -- injection H as <-. congruence.
        -- injection H as <-. congruence.
        -- injection H as <-. rewrite Hr in H'. injection H' as <-.
           rewrite Hd in Hd'. injection Hd' as <-. congruence.
Qed.

End RunQa.

Section Agreement.

Variable embed_texts : list string -> result (list (list Q)).
Variable retrieve_by_embedding : list Q -> Z -> result (list Hit).
Variable generate_text : string -> result (option string).

(** X8.  [run_qa] returns the answer and the citations of [/ask], but never
    its [abstained] flag.  For a question without surrounding whitespace
    and the same knobs, whenever [run_qa] returns a dictionary, [/ask]
    answers 200 with the same [answer] and the same [citations]; the
    dictionary of [run_qa] has no [abstained] entry, so the two bodies
    (answer, citations and debug trace) are the same exactly when [/ask]
    did not abstain. *)
Theorem run_qa_agrees_with_ask (q : string) (k : Z) (t : Q) (m n : Z)
    (res : dict jval) :
  strip q = q ->
  q <> "" ->
  run_qa embed_texts retrieve_by_embedding generate_text q k t m n = Ok res ->
  let r := ask embed_texts retrieve_by_embedding generate_text
             (mkEnv (Some t) (Some m) (Some n)) (Some q) (Some k) in
  status_code r = 200 /\
  dict_get (body r) "answer" = dict_get res "answer" /\
  dict_get (body r) "citations" = dict_get res "citations" /\
  dict_get res "abstained" = None /\
  (dict_get (body r) "abstained" = None <-> body r = res).
Proof.
  intros Hq Nq E r. subst r.
  set (env := mkEnv (Some t) (Some m) (Some n)).
  assert (ask_q (Some q) = q) as Aq by exact Hq.
  assert (ask_q (Some q) <> "") as Nq' by now rewrite Aq.
  destruct (qa_graph_invoke embed_texts retrieve_by_embedding generate_text
              (initial_state q k t m n)) as [out|e] eqn:Ei.
  2:{ apply (run_qa_invoke_err embed_texts retrieve_by_embedding generate_text)
        in Ei.
      rewrite Ei in E. discriminate E. }
  destruct (invoke_cases embed_texts retrieve_by_embedding generate_text
              q k t m n out Ei)
    as [emb [hits [He [Hr [[-> [G ->]]|[d [N [Hd [[G ->]|[G [g [Hg ->]]]]]]]]]]]].
  - rewrite (run_qa_of_invoke embed_texts retrieve_by_embedding generate_text
               q k t m n _ _ _ Ei eq_refl eq_refl) in E.
    injection E as <-.
    rewrite <- Aq in He.
    rewrite (ask_no_hits_abstains embed_texts retrieve_by_embedding generate_text
               env (Some q) (Some k) emb Nq' He Hr).
    split; [reflexivity|]. split; [reflexivity|]. split; [reflexivity|].
    split; [reflexivity|].
    split; intros H; discriminate H.
  - rewrite (run_qa_of_invoke embed_texts retrieve_by_embedding generate_text
               q k t m n _ _ _ Ei eq_refl eq_refl) in E.
    injection E as <-.
    rewrite <- Aq in He. unfold ask.
    rewrite (ask_try_hits embed_texts retrieve_by_embedding generate_text
               env (Some q) (Some k) emb hits d Nq' He Hr N Hd).
    cbn [env MAX_COSINE_DIST MIN_CTX_HITS DOC_CTX_CHUNKS get_or].
    rewrite G.
    split; [reflexivity|]. split; [reflexivity|]. split; [reflexivity|].
    split; [reflexivity|].
    split; intros H; discriminate H.
  - rewrite (run_qa_of_invoke embed_texts retrieve_by_embedding generate_text
               q k t m n _ _ _ Ei eq_refl eq_refl) in E.
    injection E as <-.
    rewrite <- Aq in He. unfold ask.
    rewrite (ask_try_hits embed_texts retrieve_by_embedding generate_text
               env (Some q) (Some k) emb hits d Nq' He Hr N Hd).
    cbn [env MAX_COSINE_DIST MIN_CTX_HITS DOC_CTX_CHUNKS get_or].
    rewrite G, Aq, Hg. cbn [bind].
    split; [reflexivity|]. split; [reflexivity|]. split; [reflexivity|].
    split; [reflexivity|].
    split.
    + intros _. cbn [body]. unfold answer_body, answered_of, reason_debug.
      cbn [get_or get_or_nil st_coarse_hits st_doc_hits st_best_doc st_best_dist
           st_debug set_debug set_citations set_answer
           set_abstain chosen_state fetched_state set_best_dist set_doc_hits
           set_best_doc set_coarse_hits opt_float opt_str map citation_json
           citation fst snd].
      rewrite Counter_len. reflexivity.
    + intros _. reflexivity.
Qed.

End Agreement.

Lemma run_qa_agrees_with_ask_example :
  let r := ask stub_embed (stub_retrieve example1_hits)
             (stub_generate (Some " Paris. "))
             (mkEnv (Some 0.65%Q) (Some 1) (Some 4))
             (Some "What is the capital of France?") (Some 6) in
  status_code r = 200 /\
  dict_get (body r) "answer" = Some (JStr "Paris.") /\
  dict_get (body r) "citations" = Some (JList [JDict [("doc_uri", JStr "B")]]).
Proof.
  intro r.
  destruct (run_qa_agrees_with_ask stub_embed (stub_retrieve example1_hits)
              (stub_generate (Some " Paris. "))
              "What is the capital of France?" 6 0.65 1 4
              [("answer", JStr "Paris.");
               ("citations", JList [JDict [("doc_uri", JStr "B")]]);
               ("debug", JDict [("best_dist", JFloat 0.30); ("hits", JInt 3);
                                ("unique_docs", JInt 2);
                                ("selected_doc", JStr "B");
                                ("chunks_used", JInt 1)])])
    as [H1 [H2 [H3 _]]].
  - vm_compute. reflexivity.
  - discriminate.
  - vm_compute. reflexivity.
  - split; [exact H1|]. split; [exact H2 | exact H3].
Defined.

(** * Strings as lists of characters *)

Definition chars (s : string) : list ascii := list_ascii_of_string s.

Lemma chars_inj (a b : string) : chars a = chars b -> a = b.
Proof.
  intros H. rewrite <- (string_of_list_ascii_of_string a),
    <- (string_of_list_ascii_of_string b). unfold chars in H. now rewrite H.
Qed.

Lemma chars_length (s : string) : Datatypes.length (chars s) = String.length s.
Proof. induction s as [|c r IH]; simpl; [reflexivity | now rewrite IH]. Qed.

Lemma chars_append (a b : string) : chars (a ++ b) = (chars a ++ chars b)%list.
Proof. induction a as [|c r IH]; simpl; [reflexivity | now rewrite IH]. Qed.

Lemma chars_substring (n m : nat) (s : string) :
  chars (substring n m s) = firstn m (skipn n (chars s)).
Proof.
  revert n m. induction s as [|c r IH]; intros n m.
  - destruct n, m; reflexivity.
  - destruct n as [|n].
    + destruct m as [|m]; simpl; [reflexivity|].
      f_equal. exact (IH 0%nat m).
    + simpl. apply IH.
Qed.

Lemma chars_rev_onto (s acc : string) :
  chars (string_rev_onto s acc) = (rev (chars s) ++ chars acc)%list.
Proof.
  revert acc. induction s as [|c r IH]; intros acc; simpl; [reflexivity|].
  rewrite IH. simpl. now rewrite <- app_assoc.
Qed.

Lemma chars_rev (s : string) : chars (string_rev s) = rev (chars s).
Proof. unfold string_rev. rewrite chars_rev_onto. simpl. apply app_nil_r. Qed.

(** Dropping leading whitespace. *)
Fixpoint drop_ws (l : list ascii) : list ascii :=
  match l with
  | [] => []
  | c :: r => if is_space c then drop_ws r else l
  end.

Lemma chars_lstrip (s : string) : chars (lstrip s) = drop_ws (chars s).
Proof.
  induction s as [|c r IH]; simpl; [reflexivity|].
  destruct (is_space c); [exact IH | reflexivity].
Qed.

Lemma chars_strip (s : string) :
  chars (strip s) = rev (drop_ws (rev (drop_ws (chars s)))).
Proof.
  unfold strip, rstrip. now rewrite chars_rev, chars_lstrip, chars_rev, chars_lstrip.
Qed.

(** [drop_ws l] is a suffix of [l], cut after a run of whitespace. *)
Lemma drop_ws_split (l : list ascii) :
  exists w, l = (w ++ drop_ws l)%list /\ Forall (fun c => is_space c = true) w.
Proof.
  induction l as [|c r IH]; simpl.
  - exists []. auto.
  - destruct (is_space c) eqn:E.
    + destruct IH as [w [H1 H2]]. exists (c :: w). split.
      * simpl. now rewrite <- H1.
      * now constructor.
    + exists []. auto.
Qed.

Lemma drop_ws_head (l : list ascii) (c : ascii) (r : list ascii) :
  drop_ws l = c :: r -> is_space c = false.
Proof.
  induction l as [|a t IH]; simpl; [discriminate|].
  destruct (is_space a) eqn:E; [exact IH|]. intros H. injection H as <- _. exact E.
Qed.

(** [s.strip()] is [s] without a whitespace prefix and a whitespace suffix,
    and what remains neither starts nor ends with whitespace. *)
Lemma strip_spec (s : string) :
  exists pre post,
    chars s = (pre ++ chars (strip s) ++ post)%list /\
    Forall (fun c => is_space c = true) pre /\
    Forall (fun c => is_space c = true) post /\
    (forall c r, chars (strip s) = c :: r -> is_space c = false) /\
    (forall c r, rev (chars (strip s)) = c :: r -> is_space c = false).
Proof.
  rewrite chars_strip.
  destruct (drop_ws_split (chars s)) as [pre [H1 H2]].
  destruct (drop_ws_split (rev (drop_ws (chars s)))) as [w [H3 H4]].
  exists pre, (rev w). repeat split.
  - rewrite H1 at 1. f_equal.
    rewrite <- (rev_involutive (drop_ws (chars s))) at 1.
    rewrite H3 at 1. now rewrite rev_app_distr.
  - exact H2.
  - apply Forall_forall. intros c Hc. apply in_rev in Hc.
    rewrite Forall_forall in H4. now apply H4.
  - intros c r E.
    set (x := drop_ws (chars s)) in *.
    destruct (drop_ws (rev x)) as [|a t] eqn:Ed; [discriminate E|].
    (* the kept part is a non-empty prefix of [x] *)
    assert (x = (rev (a :: t) ++ rev w)%list) as Ex.
    { rewrite <- (rev_involutive x), H3, rev_app_distr. reflexivity. }
    rewrite E in Ex. simpl in Ex.
    destruct x as [|x0 xr] eqn:Exx; [discriminate Ex|].
    injection Ex as <- _. exact (drop_ws_head (chars s) _ _ Exx).
  - intros c r E. rewrite rev_involutive in E.
    exact (drop_ws_head _ _ _ E).
Qed.

(** * [app/ingest_handler.py]: chunking *)

Module Ingest.

Definition DEFAULT_CHUNK_SIZE : Z := 900.
Definition DEFAULT_CHUNK_OVERLAP : Z := 150.

(** [len(s)] on strings. *)
Definition slen (s : string) : Z := Z.of_nat (String.length s).

(** [re.sub(r"\s+", " ", s)]: every maximal run of whitespace becomes one
    space.  [in_run] tells that the previous character was whitespace. *)
Fixpoint sub_ws (in_run : bool) (s : string) : string :=
  match s with
  | EmptyString => EmptyString
  | String c r =>
      if is_space c
      then (if in_run then sub_ws true r else String " "%char (sub_ws true r))
      else String c (sub_ws false r)
  end.

Definition re_sub_ws (s : string) : string := sub_ws false s.

(** A slice bound [x] of a sequence of length [n]: a negative bound counts
    from the end, and every bound is clamped to [0 .. n]. *)
Definition slice_index (n x : Z) : Z :=
  if x <? 0 then Z.max (x + n) 0 else Z.min x n.

(** [s[start:stop]] *)
Definition slice (s : string) (start stop : Z) : string :=
  let n := slen s in
  let a := slice_index n start in
  let b := slice_index n stop in
  substring (Z.to_nat a) (Z.to_nat (b - a)) s.

(** The [while i < len(t)] loop of [_chunk], within a budget of
    iterations; [None] when the budget runs out. *)
Fixpoint chunk_loop (budget : nat) (t : string) (size step i : Z)
    (out : list string) : option (list string) :=
  if i <? slen t then
    match budget with
    | O => None
    | S budget' =>
        chunk_loop budget' t size step (i + step)
          (out ++ [slice t i (i + size)])
    end
  else Some out.

(** The text [_chunk] cuts: whitespace runs collapsed, ends stripped. *)
Definition normalize (text : option string) : string :=
  strip (re_sub_ws (or_empty text)).

Definition _chunk (text : option string) (size overlap : Z)
    : option (list string) :=
  let t := normalize text in
  if String.eqb t "" then Some []
  else
    let step := Z.max 1 (size - overlap) in
    chunk_loop (String.length t) t size step 0 [].

(** The number of iterations from offset [i]. *)
Definition chunk_count (n step i : Z) : nat :=
  Z.to_nat ((n - i + step - 1) / step).

Lemma chunk_count_done (n step i : Z) :
  1 <= step -> n <= i -> chunk_count n step i = 0%nat.
Proof.
  intros Hs Hi. unfold chunk_count.
  assert ((n - i + step - 1) / step <= 0); [|lia].
  assert ((n - i + step - 1) / step < 1); [|lia].
  apply Z.div_lt_upper_bound; lia.
Qed.

Lemma chunk_count_step (n step i : Z) :
  1 <= step -> i < n ->
  chunk_count n step i = S (chunk_count n step (i + step)).
Proof.
  intros Hs Hi. unfold chunk_count.
  replace (n - i + step - 1) with ((n - (i + step) + step - 1) + 1 * step) by lia.
  rewrite Z.div_add by lia.
  assert (0 <= (n - (i + step) + step - 1) / step)
    by (apply Z.div_pos; lia).
  lia.
Qed.

Lemma chunk_loop_spec (budget : nat) (t : string) (size step i : Z)
    (out : list string) :
  1 <= step ->
  slen t - i <= Z.of_nat budget ->
  chunk_loop budget t size step i out =
  Some (out ++
        map (fun j => slice t (i + Z.of_nat j * step)
                        (i + Z.of_nat j * step + size))
          (seq 0 (chunk_count (slen t) step i)))%list.
Proof.
  intros Hs. revert i out.
  induction budget as [|b IH]; intros i out Hb.
  - simpl. destruct (i <? slen t) eqn:E.
    + apply Z.ltb_lt in E. lia.
    + apply Z.ltb_ge in E. rewrite chunk_count_done by lia.
      simpl. now rewrite app_nil_r.
  - simpl. destruct (i <? slen t) eqn:E.
    + apply Z.ltb_lt in E. rewrite IH by lia.
      rewrite (chunk_count_step (slen t) step i) by lia.
      f_equal. rewrite <- app_assoc. f_equal. simpl. f_equal.
      * f_equal; lia.
      * rewrite <- seq_shift, map_map. apply map_ext. intros j.
        f_equal; lia.
    + apply Z.ltb_ge in E. rewrite chunk_count_done by lia.
      simpl. now rewrite app_nil_r.
Qed.

Lemma blank_sub_ws (b : bool) (s : string) : blank (sub_ws b s) = blank s.
Proof.
  revert b. induction s as [|c r IH]; intros b; simpl; [reflexivity|].
  destruct (is_space c) eqn:E.
  - destruct b; simpl; now rewrite IH.
  - simpl. now rewrite E.
Qed.

Lemma normalize_empty_iff (text : option string) :
  normalize text = "" <-> blank (or_empty text) = true.
Proof.
  unfold normalize, re_sub_ws. rewrite strip_empty_iff. now rewrite blank_sub_ws.
Qed.

(** [_chunk] ends within its budget and returns the slices at the
    multiples of [step]. *)
Lemma chunk_slices (text : option string) (size overlap : Z) :
  let t := normalize text in
  let step := Z.max 1 (size - overlap) in
  _chunk text size overlap =
  Some (map (fun j => slice t (Z.of_nat j * step) (Z.of_nat j * step + size))
          (seq 0 (Z.to_nat ((slen t + step - 1) / step)))).
Proof.
  intros t step. unfold _chunk. fold t. fold step.
  destruct (String.eqb t "") eqn:E.
  - apply String.eqb_eq in E. rewrite E.
    assert ((slen "" + step - 1) / step = 0) as Z0
      by (apply Z.div_small; unfold slen, step; simpl; lia).
    rewrite Z0. reflexivity.
  - rewrite (chunk_loop_spec (String.length t) t size step 0 [])
      by (unfold slen, step; lia).
    unfold chunk_count. rewrite Z.sub_0_r. reflexivity.
Qed.

Lemma chunk_slices_of (text : option string) (size overlap : Z)
    (out : list string) :
  _chunk text size overlap = Some out ->
  out = map (fun j => slice (normalize text)
                        (Z.of_nat j * Z.max 1 (size - overlap))
                        (Z.of_nat j * Z.max 1 (size - overlap) + size))
          (seq 0 (Z.to_nat ((slen (normalize text) + Z.max 1 (size - overlap) - 1)
                            / Z.max 1 (size - overlap)))).
Proof.
  intros E. pose proof (chunk_slices text size overlap) as H. simpl in H.
  rewrite E in H. now injection H as ->.
Qed.

(** X11.  [_chunk] always returns.  The [k]-th chunk is the slice
    [t[k*step : k*step + size]] of the normalized text [t], with
    [step = max(1, size - overlap)], and there are [ceil(len(t) / step)]
    chunks; the list is empty exactly when the text is missing or
    whitespace only. *)
Theorem chunk_returns_slices (text : option string) (size overlap : Z) :
  let t := normalize text in
  let step := Z.max 1 (size - overlap) in
  exists out,
    _chunk text size overlap = Some out /\
    out = map (fun j => slice t (Z.of_nat j * step) (Z.of_nat j * step + size))
            (seq 0 (Z.to_nat ((slen t + step - 1) / step))) /\
    (out = [] <-> blank (or_empty text) = true).
Proof.
  intros t step. eexists. split; [apply chunk_slices|].
  fold t step. split; [reflexivity|].
  rewrite <- normalize_empty_iff. fold t. split.
  - intros H. destruct t as [|c r] eqn:Et; [reflexivity|]. exfalso.
    assert (0 < slen (String c r)) by (unfold slen; simpl; lia).
    assert (1 <= (slen (String c r) + step - 1) / step)
      by (apply Z.div_le_lower_bound; unfold step; lia).
    destruct (Z.to_nat ((slen (String c r) + step - 1) / step)) eqn:En; [lia|].
    simpl in H. discriminate H.
  - intros ->.
    assert ((slen "" + step - 1) / step = 0) as Z0
      by (apply Z.div_small; unfold slen, step; simpl; lia).
    rewrite Z0. reflexivity.
Qed.

Lemma chunk_empty_iff (text : option string) (size overlap : Z)
    (out : list string) :
  _chunk text size overlap = Some out ->
  (out = [] <-> blank (or_empty text) = true).
Proof.
  intros E. apply chunk_slices_of in E. rewrite <- normalize_empty_iff.
  set (t := normalize text) in *. set (step := Z.max 1 (size - overlap)) in *.
  split.
  - intros H. destruct t as [|c r] eqn:Et; [reflexivity|]. exfalso.
    assert (0 < slen (String c r)) by (unfold slen; simpl; lia).
    assert (1 <= (slen (String c r) + step - 1) / step)
      by (apply Z.div_le_lower_bound; unfold step; lia).
    rewrite H in E.
    destruct (Z.to_nat ((slen (String c r) + step - 1) / step)) eqn:En; [lia|].
    simpl in E. discriminate E.
  - intros Ht. rewrite Ht in E.
    assert ((slen "" + step - 1) / step = 0) as Z0
      by (apply Z.div_small; unfold slen, step; simpl; lia).
    rewrite Z0 in E. exact E.
Qed.

Lemma slen_chars (s : string) : slen s = Z.of_nat (Datatypes.length (chars s)).
Proof. unfold slen. now rewrite chars_length. Qed.

(** A slice that starts inside the text and has a non-negative width. *)
Lemma chars_slice (t : string) (a size : Z) :
  0 <= a -> a <= slen t -> 0 <= size ->
  chars (slice t a (a + size)) =
  firstn (Z.to_nat (Z.min size (slen t - a))) (skipn (Z.to_nat a) (chars t)).
Proof.
  intros Ha Hn Hs. unfold slice, slice_index.
  assert ((a <? 0) = false) as E1 by (apply Z.ltb_ge; lia).
  assert ((a + size <? 0) = false) as E2 by (apply Z.ltb_ge; lia).
  rewrite E1, E2, chars_substring. f_equal; [|f_equal]; lia.
Qed.

Lemma slen_slice (t : string) (a size : Z) :
  0 <= a -> a <= slen t -> 0 <= size ->
  slen (slice t a (a + size)) = Z.min size (slen t - a).
Proof.
  intros Ha Hn Hs. rewrite slen_chars, chars_slice by assumption.
  rewrite length_firstn, length_skipn. rewrite slen_chars in *. lia.
Qed.

Lemma nth_error_map_seq {B : Type} (f : nat -> B) (c j : nat) (x : B) :
  nth_error (map f (seq 0 c)) j = Some x -> (j < c)%nat /\ x = f j.
Proof.
  rewrite nth_error_map, nth_error_seq.
  destruct (Nat.ltb j c) eqn:E; simpl; [|discriminate].
  apply Nat.ltb_lt in E. intros H. injection H as <-. auto.
Qed.

(** The offsets of the chunks lie inside the text. *)
Lemma chunk_offset_in_range (n step : Z) (j : nat) :
  1 <= step ->
  (j < Z.to_nat ((n + step - 1) / step))%nat ->
  0 <= Z.of_nat j * step < n.
Proof.
  intros Hs Hj. split; [lia|].
  assert (Z.of_nat j < (n + step - 1) / step) as H by lia.
  assert (Z.of_nat j + 1 <= (n + step - 1) / step) as H' by lia.
  assert (step * ((n + step - 1) / step) <= n + step - 1)
    by (apply Z.mul_div_le; lia).
  nia.
Qed.

(** X12.  With [size >= 1] every chunk is non-empty and at most [size]
    characters long: the [k]-th chunk has
    [min(size, len(t) - k*step)] characters, so every chunk that does not
    reach the end of the text has exactly [size]. *)
Theorem chunk_lengths (text : option string) (size overlap : Z)
    (out : list string) (j : nat) (c : string) :
  1 <= size ->
  _chunk text size overlap = Some out ->
  nth_error out j = Some c ->
  let t := normalize text in
  let step := Z.max 1 (size - overlap) in
  slen c = Z.min size (slen t - Z.of_nat j * step) /\
  1 <= slen c <= size.
Proof.
  intros Hsize E Hn t step.
  pose proof (chunk_slices_of text size overlap out E) as Ho. fold t step in Ho.
  rewrite Ho in Hn. apply nth_error_map_seq in Hn. destruct Hn as [Hj ->].
  assert (0 <= Z.of_nat j * step < slen t) as R
    by (apply chunk_offset_in_range; [unfold step; lia | exact Hj]).
  rewrite slen_slice by lia. lia.
Qed.

Lemma chunk_lengths_example :
  slen "lo wo"
  = Z.min 5 (slen (normalize (Some "hello  world")) - Z.of_nat 1 * Z.max 1 (5 - 2)) /\
  1 <= slen "lo wo" <= 5.
Proof.
  apply (chunk_lengths (Some "hello  world") 5 2
           ["hello"; "lo wo"; "world"; "ld"] 1%nat "lo wo");
    [lia | reflexivity | reflexivity].
Defined.

(** Cutting a list into consecutive pieces of [s] elements and gluing the
    pieces gives the list back. *)
Lemma concat_pieces {T : Type} (l : list T) (s c i : nat) :
  (Datatypes.length l <= i + c * s)%nat ->
  List.concat (map (fun j => firstn s (skipn (i + j * s) l)) (seq 0 c))
  = skipn i l.
Proof.
  revert i. induction c as [|c IH]; intros i H.
  - simpl. symmetry. apply skipn_all2. lia.
  - cbn [seq map List.concat]. rewrite <- seq_shift, map_map.
    rewrite (map_ext _ (fun j => firstn s (skipn ((i + s) + j * s) l))).
    + rewrite IH by lia. replace (i + 0 * s)%nat with i by lia.
      replace (i + s)%nat with (s + i)%nat by lia.
      rewrite <- skipn_skipn. apply firstn_skipn.
    + intros j. do 2 f_equal. lia.
Qed.

Lemma chars_concat (l : list string) :
  chars (String.concat "" l) = List.concat (map chars l).
Proof.
  induction l as [|x r IH]; [reflexivity|].
  destruct r as [|y r'].
  - simpl. now rewrite app_nil_r.
  - change (String.concat "" (x :: y :: r'))
      with (x ++ "" ++ String.concat "" (y :: r')).
    rewrite chars_append.
    change ("" ++ String.concat "" (y :: r')) with (String.concat "" (y :: r')).
    rewrite IH. reflexivity.
Qed.

(** X13.  No text is lost when [size >= 1] and [overlap >= 0]: keeping of
    every chunk only its first [step] characters, what the next chunk does
    not repeat, and joining the pieces gives back the normalized text. *)
Theorem chunks_cover_text (text : option string) (size overlap : Z)
    (out : list string) :
  1 <= size ->
  0 <= overlap ->
  _chunk text size overlap = Some out ->
  let step := Z.max 1 (size - overlap) in
  String.concat "" (map (fun c => substring 0 (Z.to_nat step) c) out)
  = normalize text.
Proof.
  intros Hsize Hov E step.
  pose proof (chunk_slices_of text size overlap out E) as Ho.
  set (t := normalize text) in *. fold step in Ho.
  assert (1 <= step <= size) as Hstep by (unfold step; lia).
  apply chars_inj. rewrite chars_concat, map_map.
  set (cnt := Z.to_nat ((slen t + step - 1) / step)) in *.
  rewrite Ho, map_map.
  rewrite (map_ext_in _
             (fun j => firstn (Z.to_nat step)
                         (skipn (0 + j * Z.to_nat step) (chars t)))).
  - rewrite concat_pieces; [reflexivity|].
    assert (slen t <= step * ((slen t + step - 1) / step)).
    { pose proof (Z.mul_succ_div_gt (slen t + step - 1) step ltac:(lia)). lia. }
    assert (0 <= (slen t + step - 1) / step).
    { apply Z.div_pos; [|lia]. unfold slen. lia. }
    unfold cnt. apply Nat2Z.inj_le.
    rewrite Nat2Z.inj_add, Nat2Z.inj_mul, !Z2Nat.id by lia.
    rewrite <- slen_chars. simpl. lia.
  - intros j Hj. apply in_seq in Hj.
    assert (0 <= Z.of_nat j * step < slen t) as R
      by (apply chunk_offset_in_range; [lia | unfold cnt in Hj; lia]).
    rewrite chars_substring, skipn_O, chars_slice by lia.
    rewrite firstn_firstn.
    replace (Z.to_nat (Z.of_nat j * step)) with (0 + j * Z.to_nat step)%nat by nia.
    set (X := skipn (0 + j * Z.to_nat step) (chars t)).
    assert (Z.of_nat (Datatypes.length X) = slen t - Z.of_nat j * step) as LX.
    { unfold X. rewrite length_skipn, slen_chars. rewrite slen_chars in R. nia. }
    destruct (Z_le_gt_dec step (slen t - Z.of_nat j * step)) as [Hle|Hgt].
    + f_equal. lia.
    + rewrite !firstn_all2; [reflexivity | lia | lia].
Qed.

Lemma chunks_cover_text_example :
  String.concat ""
    (map (fun c => substring 0 (Z.to_nat (Z.max 1 (5 - 2))) c)
       ["hello"; "lo wo"; "world"; "ld"])
  = normalize (Some "hello  world").
Proof.
  apply (chunks_cover_text (Some "hello  world") 5 2
           ["hello"; "lo wo"; "world"; "ld"]); [lia | lia | reflexivity].
Defined.

(** No two adjacent characters are both whitespace. *)
Fixpoint single_spaced (l : list ascii) : bool :=
  match l with
  | a :: r =>
      match r with
      | b :: _ => negb (is_space a && is_space b) && single_spaced r
      | [] => true
      end
  | [] => true
  end.

(** The only whitespace character is the space. *)
Definition plain_spaces (l : list ascii) : Prop :=
  forall c, In c l -> is_space c = true -> c = " "%char.

Definition starts_ws (l : list ascii) : bool :=
  match l with
  | c :: _ => is_space c
  | [] => false
  end.

Lemma sub_ws_plain (b : bool) (s : string) : plain_spaces (chars (sub_ws b s)).
Proof.
  revert b. induction s as [|c r IH]; intros b ch; simpl; [tauto|].
  destruct (is_space c) eqn:E.
  - destruct b; [apply IH|]. simpl.
    intros [<-|H]; [reflexivity | exact (IH true ch H)].
  - simpl. intros [<-|H]; [congruence | exact (IH false ch H)].
Qed.

Lemma sub_ws_single (b : bool) (s : string) :
  single_spaced (chars (sub_ws b s)) = true /\
  (b = true -> starts_ws (chars (sub_ws b s)) = false).
Proof.
  revert b. induction s as [|c r IH]; intros b; [simpl; auto|].
  cbn [sub_ws]. destruct (is_space c) eqn:E.
  - destruct b.
    + apply IH.
    + destruct (IH true) as [H1 H2]. split; [|discriminate].
      change (chars (String " " (sub_ws true r)))
        with (" "%char :: chars (sub_ws true r)).
      specialize (H2 eq_refl). cbn [single_spaced].
      destruct (chars (sub_ws true r)) as [|x y] eqn:Ex; [reflexivity|].
      simpl in H2. rewrite H2, H1. reflexivity.
  - destruct (IH false) as [H1 _]. split.
    + change (chars (String c (sub_ws false r)))
        with (c :: chars (sub_ws false r)).
      cbn [single_spaced].
      destruct (chars (sub_ws false r)) as [|x y] eqn:Ex; [reflexivity|].
      rewrite E, H1. reflexivity.
    + intros _. simpl. exact E.
Qed.

Lemma single_spaced_tail (a : ascii) (l : list ascii) :
  single_spaced (a :: l) = true -> single_spaced l = true.
Proof.
  cbn [single_spaced]. destruct l as [|b r]; [reflexivity|].
  intros H. apply andb_true_iff in H. tauto.
Qed.

Lemma single_spaced_skipn (n : nat) (l : list ascii) :
  single_spaced l = true -> single_spaced (skipn n l) = true.
Proof.
  revert l. induction n as [|n IH]; intros l H; [exact H|].
  destruct l as [|a r]; [reflexivity|]. simpl. apply IH.
  now apply single_spaced_tail in H.
Qed.

Lemma single_spaced_firstn (n : nat) (l : list ascii) :
  single_spaced l = true -> single_spaced (firstn n l) = true.
Proof.
  revert l. induction n as [|n IH]; intros l H; [reflexivity|].
  destruct l as [|a r]; [reflexivity|].
  pose proof (single_spaced_tail a r H) as Ht. specialize (IH r Ht).
  cbn [firstn single_spaced].
  destruct n as [|n']; [reflexivity|].
  destruct r as [|b r']; [reflexivity|].
  cbn [firstn]. cbn [firstn] in IH. rewrite IH.
  cbn [single_spaced] in H. apply andb_true_iff in H. destruct H as [H _].
  now rewrite H.
Qed.

Lemma plain_spaces_infix (n m : nat) (l : list ascii) :
  plain_spaces l -> plain_spaces (firstn m (skipn n l)).
Proof.
  intros H c Hc. apply H. exact (in_skipn n l c (in_firstn m _ c Hc)).
Qed.

(** The characters of [s.strip()] are an infix of those of [s]. *)
Lemma strip_infix (s : string) :
  exists n m, chars (strip s) = firstn m (skipn n (chars s)).
Proof.
  destruct (strip_spec s) as [pre [post [E _]]].
  exists (Datatypes.length pre), (Datatypes.length (chars (strip s))).
  set (mid := chars (strip s)) in *. clearbody mid. rewrite E.
  rewrite skipn_app, skipn_all, Nat.sub_diag.
  cbn [app skipn]. rewrite firstn_app, firstn_all, Nat.sub_diag.
  cbn [firstn]. now rewrite app_nil_r.
Qed.

Lemma normalize_plain (text : option string) :
  plain_spaces (chars (normalize text)) /\
  single_spaced (chars (normalize text)) = true.
Proof.
  unfold normalize. destruct (strip_infix (re_sub_ws (or_empty text))) as [n [m E]].
  rewrite E. split.
  - apply plain_spaces_infix, sub_ws_plain.
  - apply single_spaced_firstn, single_spaced_skipn, sub_ws_single.
Qed.

(** X14.  Chunks hold normalized text: in every chunk the only whitespace
    character is the space (no tab, no newline) and no two spaces are
    adjacent; and the normalized text that is cut neither starts nor ends
    with whitespace. *)
Theorem chunks_are_normalized (text : option string) (size overlap : Z)
    (out : list string) :
  _chunk text size overlap = Some out ->
  (forall c, In c out ->
     plain_spaces (chars c) /\ single_spaced (chars c) = true) /\
  (forall c r, chars (normalize text) = c :: r -> is_space c = false) /\
  (forall c r, rev (chars (normalize text)) = c :: r -> is_space c = false).
Proof.
  intros E.
  pose proof (chunk_slices_of text size overlap out E) as Ho.
  destruct (normalize_plain text) as [P S]. split; [|split].
  - intros c Hc. rewrite Ho in Hc. apply in_map_iff in Hc.
    destruct Hc as [j [<- _]]. unfold slice. rewrite chars_substring. split.
    + now apply plain_spaces_infix.
    + now apply single_spaced_firstn, single_spaced_skipn.
  - unfold normalize. destruct (strip_spec (re_sub_ws (or_empty text)))
      as [pre [post [_ [_ [_ [H _]]]]]]. exact H.
  - unfold normalize. destruct (strip_spec (re_sub_ws (or_empty text)))
      as [pre [post [_ [_ [_ [_ H]]]]]]. exact H.
Qed.

Lemma chunks_are_normalized_example :
  plain_spaces (chars "lo wo") /\ single_spaced (chars "lo wo") = true.
Proof.
  destruct (chunks_are_normalized (Some "hello  world") 5 2
              ["hello"; "lo wo"; "world"; "ld"] eq_refl) as [H _].
  apply H. right. now left.
Defined.

End Ingest.

(** * [app/bedrock.py]: embeddings *)

Module Bedrock.

Definition EMBED_TEXT_MAX_CHARS : Z := 8000.

(** Truth value of a JSON value, as [or] and [if] test it. *)
Definition truthy (v : jval) : bool :=
  match v with
  | JNull => false
  | JBool b => b
  | JInt n => negb (n =? 0)
  | JFloat x => negb (Qeq_bool x 0)
  | JStr s => negb (String.eqb s "")
  | JList l => match l with [] => false | _ => true end
  | JDict d => match d with [] => false | _ => true end
  end.

(** [a or b] *)
Definition py_or (a b : jval) : jval := if truthy a then a else b.

(** [d.get(key)], [None] when the key is absent. *)
Definition jget (d : dict jval) (key : string) : jval :=
  match dict_get d key with
  | Some v => v
  | None => JNull
  end.

Section Embed.

(** The model id read from the environment, the Bedrock call [_invoke], and
    the rendering of [list(data.keys())[:5]] in the error message. *)
Variable EMBED_MODEL_ID : string.
Variable _invoke : string -> dict jval -> result (dict jval).
Variable keys_preview : dict jval -> string.

(** The body of the loop of [embed_texts] for one text. *)
Definition embed_one (t : string) : result jval :=
  let payload := [("inputText", JStr (Ingest.slice t 0 EMBED_TEXT_MAX_CHARS))] in
  data <- _invoke EMBED_MODEL_ID payload ;;
  let emb :=
    py_or (py_or (jget data "embedding") (jget data "vector"))
      (jget data "Embeddings") in
  match emb with
  | JNull =>
      Err (RuntimeError
             ("Unexpected embedding response from " ++ EMBED_MODEL_ID
              ++ "; keys=" ++ keys_preview data))
  | _ => Ok emb
  end.

Fixpoint embed_loop (texts : list string) (out : list jval)
    : result (list jval) :=
  match texts with
  | [] => Ok out
  | t :: rest =>
      emb <- embed_one t ;;
      embed_loop rest (out ++ [emb])
  end.

Definition embed_texts (texts : list string) : result (list jval) :=
  embed_loop texts [].

Lemma embed_one_not_null (t : string) (emb : jval) :
  embed_one t = Ok emb -> emb <> JNull.
Proof.
  unfold embed_one. destruct (_invoke _ _) as [data|e]; [|discriminate].
  cbn [bind].
  destruct (py_or (py_or (jget data "embedding") (jget data "vector"))
              (jget data "Embeddings")); try discriminate;
    intros H; injection H as <-; discriminate.
Qed.

Lemma embed_loop_spec (texts : list string) (out res : list jval) :
  embed_loop texts out = Ok res ->
  exists embs,
    res = (out ++ embs)%list /\
    Forall2 (fun t emb => embed_one t = Ok emb) texts embs.
Proof.
  revert out. induction texts as [|t rest IH]; intros out; simpl.
  - intros H. injection H as <-. exists []. split; [now rewrite app_nil_r|].
    constructor.
  - destruct (embed_one t) as [emb|e] eqn:E; [|discriminate]. cbn [bind].
    intros H. apply IH in H. destruct H as [embs [-> F]].
    exists (emb :: embs). split; [now rewrite <- app_assoc|]. now constructor.
Qed.

Lemma embed_texts_length (texts : list string) (res : list jval) :
  embed_texts texts = Ok res ->
  Datatypes.length res = Datatypes.length texts.
Proof.
  intros H. apply embed_loop_spec in H. destruct H as [embs [-> F]].
  simpl. symmetry. exact (Forall2_length F).
Qed.

(** X15.  [embed_texts] returns one embedding per text, in order, each the
    result of the call for that text and none of them [None]; so unpacking
    the result for a single text into one vector cannot fail. *)
Theorem embed_texts_one_per_text (texts : list string) (res : list jval) :
  embed_texts texts = Ok res ->
  Datatypes.length res = Datatypes.length texts /\
  Forall2 (fun t emb => embed_one t = Ok emb /\ emb <> JNull) texts res /\
  (forall t, texts = [t] -> exists emb, res = [emb]).
Proof.
  intros H. apply embed_loop_spec in H. destruct H as [embs [-> F]].
  simpl. split; [|split].
  - symmetry. exact (Forall2_length F).
  - induction F; constructor; auto. split; [assumption|].
    eapply embed_one_not_null; eassumption.
  - intros t ->. inversion F as [|? ? ? ? ? F']; subst. inversion F'; subst.
    eauto.
Qed.

Lemma chars_slice_prefix (t : string) (n : Z) :
  0 <= n ->
  chars (Ingest.slice t 0 n) = firstn (Z.to_nat (Z.min n (Ingest.slen t))) (chars t).
Proof.
  intros Hn. assert (0 <= Ingest.slen t) by (unfold Ingest.slen; lia).
  replace n with (0 + n) at 1 by lia.
  rewrite Ingest.chars_slice by lia. rewrite Z.sub_0_r. reflexivity.
Qed.

Lemma slice_prefix_idempotent (t : string) (n : Z) :
  0 <= n -> Ingest.slice (Ingest.slice t 0 n) 0 n = Ingest.slice t 0 n.
Proof.
  intros Hn. apply chars_inj.
  rewrite (chars_slice_prefix (Ingest.slice t 0 n)) by lia.
  rewrite Ingest.slen_chars, !chars_slice_prefix by lia.
  rewrite firstn_firstn. f_equal.
  rewrite length_firstn, Ingest.slen_chars. lia.
Qed.

(** What the loop does with the response [data] of a call. *)
Definition read_embedding (data : dict jval) : result jval :=
  match py_or (py_or (jget data "embedding") (jget data "vector"))
          (jget data "Embeddings") with
  | JNull =>
      Err (RuntimeError
             ("Unexpected embedding response from " ++ EMBED_MODEL_ID
              ++ "; keys=" ++ keys_preview data))
  | emb => Ok emb
  end.

Lemma chars_prefix_8000 (t : string) :
  chars (Ingest.slice t 0 8000) = firstn (Z.to_nat 8000) (chars t).
Proof.
  rewrite chars_slice_prefix by lia. rewrite Ingest.slen_chars.
  destruct (Z.min_spec 8000 (Z.of_nat (Datatypes.length (chars t))))
    as [[H ->]|[H ->]]; [reflexivity|].
  rewrite Nat2Z.id, firstn_all. symmetry. apply firstn_all2. lia.
Qed.

(** X16.  Exactly the first 8000 characters of a text reach the model: the
    [inputText] of the request for a text is its 8000-character prefix
    (the whole text when it is not longer), so two lists of texts that
    agree on these prefixes are embedded alike. *)
Theorem embed_texts_sees_prefix_only (texts texts' : list string) :
  map (fun t => firstn (Z.to_nat 8000) (chars t)) texts
  = map (fun t => firstn (Z.to_nat 8000) (chars t)) texts' ->
  embed_texts texts = embed_texts texts' /\
  Forall (fun t =>
            exists sent,
              chars sent = firstn (Z.to_nat 8000) (chars t) /\
              (Ingest.slen t <= 8000 -> sent = t) /\
              embed_one t =
              (data <- _invoke EMBED_MODEL_ID [("inputText", JStr sent)] ;;
               read_embedding data)) texts.
Proof.
  intros H. split.
  - unfold embed_texts. generalize (@nil jval) as out.
    revert texts' H. induction texts as [|t rest IH]; intros [|t' rest'] H out;
      try discriminate H; [reflexivity|].
    injection H as Ht Hr. cbn [embed_loop].
    assert (embed_one t = embed_one t') as E.
    { unfold embed_one. unfold EMBED_TEXT_MAX_CHARS.
      replace (Ingest.slice t 0 8000) with (Ingest.slice t' 0 8000);
        [reflexivity|].
      apply chars_inj. now rewrite !chars_prefix_8000. }
    rewrite E. destruct (embed_one t'); cbn [bind]; [now apply IH | reflexivity].
  - apply Forall_forall. intros t _. exists (Ingest.slice t 0 8000).
    split; [apply chars_prefix_8000|]. split.
    + intros L. apply chars_inj. rewrite chars_prefix_8000.
      apply firstn_all2. rewrite Ingest.slen_chars in L. lia.
    + unfold embed_one, read_embedding. unfold EMBED_TEXT_MAX_CHARS.
      destruct (_invoke _ _) as [data|e]; cbn [bind]; [|reflexivity].
      destruct (py_or _ _); reflexivity.
Qed.

End Embed.

End Bedrock.

(** * [app/retrieval.py] *)

Module Retrieval.

(** The condition appended for each filter. *)
Definition FILTER_CLAUSE : string := "(c.meta->>%s) = %s".

(** The f-string before and after [{wsql}]. *)
Definition SQL_HEAD : string :=
  nl ++ "        WITH q AS (SELECT %s::vector AS emb)" ++
  nl ++ "        SELECT" ++
  nl ++ "            d.doc_uri," ++
  nl ++ "            c.chunk," ++
  nl ++ "            c.meta," ++
  nl ++ "            (c.embedding <=> (SELECT emb FROM q)) AS dist  -- cosine distance" ++
  nl ++ "        FROM doc_chunks c" ++
  nl ++ "        JOIN docs d ON d.id = c.doc_id" ++
  nl ++ "        ".

Definition SQL_TAIL : string :=
  nl ++ "        ORDER BY dist" ++
  nl ++ "        LIMIT %s" ++
  nl ++ "    ".

(** A row of the result set: [(doc_uri, chunk, meta, dist)]. *)
Definition Row : Type := (string * string * jval * Q)%type.

Section Retrieve.

(** [str(val)] on filter values, and the execution of a statement with its
    parameters. *)
Variable py_str : jval -> string.
Variable db_fetchall : string -> list jval -> result (list Row).

(** The loop over [filters.items()]. *)
Fixpoint filter_loop (items : dict jval) (where_ params : list string)
    : list string * list string :=
  match items with
  | [] => (where_, params)
  | (key, val) :: rest =>
      filter_loop rest (where_ ++ [FILTER_CLAUSE]) (params ++ [key; py_str val])
  end.

Definition build_wsql (where_ : list string) : string :=
  match where_ with
  | [] => ""
  | _ => "WHERE " ++ join " AND " where_
  end.

(** The statement and the parameters handed to [cur.execute]. *)
Definition build_query (query_emb : list Q) (k : Z) (filters : option (dict jval))
    : string * list jval :=
  let filters := get_or filters [] in
  let (where_, params) := filter_loop filters [] [] in
  let wsql := build_wsql where_ in
  let sql := SQL_HEAD ++ wsql ++ SQL_TAIL in
  let exec_params :=
    ([JList (map JFloat query_emb)] ++ map JStr params ++ [JInt k])%list in
  (sql, exec_params).

Definition retrieve_by_embedding (query_emb : list Q) (k : Z)
    (filters : option (dict jval)) : result (list Hit) :=
  let (sql, exec_params) := build_query query_emb k filters in
  rows <- db_fetchall sql exec_params ;;
  Ok (map (fun row : Row =>
             let '(doc_uri, chunk, meta, dist) := row in
             mkHit doc_uri chunk meta dist) rows).

(** The number of [%s] placeholders of a statement. *)
Fixpoint count_placeholders (s : string) : nat :=
  match s with
  | EmptyString => 0
  | String c r =>
      if Ascii.eqb c "%"%char then
        match r with
        | String c' r' =>
            if Ascii.eqb c' "s"%char then S (count_placeholders r')
            else count_placeholders r
        | EmptyString => 0
        end
      else count_placeholders r
  end.

(** The last character is a percent sign. *)
Fixpoint ends_pct (s : string) : bool :=
  match s with
  | EmptyString => false
  | String c r =>
      match r with
      | EmptyString => Ascii.eqb c "%"%char
      | String _ _ => ends_pct r
      end
  end.

Lemma ends_pct_app (a b : string) : b <> "" -> ends_pct (a ++ b) = ends_pct b.
Proof.
  intros Hb. induction a as [|c r IH]; [reflexivity|].
  simpl. destruct (r ++ b) eqn:E; [|exact IH].
  destruct r; simpl in E; [congruence | discriminate].
Qed.

Lemma count_placeholders_app_len (n : nat) (a b : string) :
  (String.length a <= n)%nat ->
  ends_pct a = false ->
  count_placeholders (a ++ b) = (count_placeholders a + count_placeholders b)%nat.
Proof.
  revert a. induction n as [|n IH]; intros a Hn He.
  - destruct a; [reflexivity | simpl in Hn; lia].
  - destruct a as [|c r]; [reflexivity|].
    assert (ends_pct r = false \/ r = "") as Hr.
    { destruct r; [now right | left; exact He]. }
    assert (count_placeholders (r ++ b)
            = (count_placeholders r + count_placeholders b)%nat) as IHr.
    { destruct Hr as [Hr| ->]; [|reflexivity]. apply IH; [simpl in Hn; lia | exact Hr]. }
    cbn [String.append count_placeholders].
    destruct (Ascii.eqb c "%") eqn:Ec; [|exact IHr].
    destruct r as [|c' r'].
    + simpl in He. congruence.
    + cbn [String.append]. destruct (Ascii.eqb c' "s") eqn:Ec'; [|exact IHr].
      assert (ends_pct r' = false \/ r' = "") as Hr'.
      { destruct r'; [now right | left; exact He]. }
      destruct Hr' as [Hr'| ->]; [|reflexivity].
      rewrite IH; [reflexivity | simpl in Hn; lia | exact Hr'].
Qed.

Lemma count_placeholders_app (a b : string) :
  ends_pct a = false ->
  count_placeholders (a ++ b) = (count_placeholders a + count_placeholders b)%nat.
Proof. apply (count_placeholders_app_len (String.length a)). lia. Qed.

Lemma filter_loop_spec (items : dict jval) (where_ params : list string) :
  filter_loop items where_ params =
  ((where_ ++ repeat FILTER_CLAUSE (Datatypes.length items))%list,
   (params ++ flat_map (fun kv => [fst kv; py_str (snd kv)]) items)%list).
Proof.
  revert where_ params. induction items as [|[key val] rest IH];
    intros where_ params; simpl.
  - now rewrite !app_nil_r.
  - rewrite IH, <- !app_assoc. reflexivity.
Qed.

Lemma join_clauses_nonempty (n : nat) :
  join " AND " (repeat FILTER_CLAUSE (S n)) <> "".
Proof. destruct n; discriminate. Qed.

Lemma join_clauses (n : nat) :
  count_placeholders (join " AND " (repeat FILTER_CLAUSE (S n))) = (2 * S n)%nat /\
  ends_pct (join " AND " (repeat FILTER_CLAUSE (S n))) = false.
Proof.
  induction n as [|n [IH1 IH2]]; [split; reflexivity|].
  change (join " AND " (repeat FILTER_CLAUSE (S (S n))))
    with (FILTER_CLAUSE ++ " AND " ++ join " AND " (repeat FILTER_CLAUSE (S n))).
  split.
  - rewrite count_placeholders_app by reflexivity.
    rewrite count_placeholders_app by reflexivity.
    rewrite IH1. change (count_placeholders FILTER_CLAUSE) with 2%nat.
    change (count_placeholders " AND ") with 0%nat. lia.
  - rewrite ends_pct_app, ends_pct_app; [exact IH2 | |].
    + apply join_clauses_nonempty.
    + intros E. destruct (" AND " ++ join " AND " (repeat FILTER_CLAUSE (S n)))
        eqn:E'; discriminate.
Qed.

Lemma count_wsql (n : nat) :
  count_placeholders (build_wsql (repeat FILTER_CLAUSE n) ++ SQL_TAIL)
  = (2 * n + 1)%nat.
Proof.
  destruct n as [|n]; [reflexivity|].
  change (build_wsql (repeat FILTER_CLAUSE (S n)))
    with ("WHERE " ++ join " AND " (repeat FILTER_CLAUSE (S n))).
  destruct (join_clauses n) as [H1 H2].
  rewrite count_placeholders_app.
  - rewrite count_placeholders_app by reflexivity. rewrite H1.
    change (count_placeholders SQL_TAIL) with 1%nat.
    change (count_placeholders "WHERE ") with 0%nat. lia.
  - rewrite ends_pct_app; [exact H2 | apply join_clauses_nonempty].
Qed.

(** X17.  Filters are bound, never spliced.  The statement consists of the
    fixed text and one fixed clause per filter, so it depends on the number
    of filters only, not on their keys or values; these go to the parameter
    list, between the query vector and the limit; and the statement has
    exactly as many [%s] placeholders as there are parameters,
    [2 + 2 * len(filters)]. *)
Theorem query_binds_every_filter (query_emb : list Q) (k : Z)
    (filters : option (dict jval)) :
  let n := Datatypes.length (get_or filters []) in
  let sql := fst (build_query query_emb k filters) in
  let exec_params := snd (build_query query_emb k filters) in
  sql = SQL_HEAD ++ build_wsql (repeat FILTER_CLAUSE n) ++ SQL_TAIL /\
  exec_params =
  (JList (map JFloat query_emb)
   :: map JStr (flat_map (fun kv => [fst kv; py_str (snd kv)]) (get_or filters []))
   ++ [JInt k])%list /\
  count_placeholders sql = Datatypes.length exec_params /\
  Datatypes.length exec_params = (2 + 2 * n)%nat.
Proof.
  intros n sql exec_params. subst sql exec_params. unfold build_query.
  rewrite filter_loop_spec. cbn [fst snd app]. fold n.
  split; [reflexivity|]. split; [reflexivity|].
  assert (Datatypes.length
            (flat_map (fun kv : string * jval => [fst kv; py_str (snd kv)])
               (get_or filters [])) = (2 * n)%nat) as L.
  { unfold n. induction (get_or filters []) as [|kv r IH]; simpl; [reflexivity|].
    rewrite IH. lia. }
  split.
  - rewrite count_placeholders_app by reflexivity.
    rewrite count_wsql. change (count_placeholders SQL_HEAD) with 1%nat.
    cbn [Datatypes.length]. rewrite length_app, length_map, L. simpl. lia.
  - cbn [Datatypes.length]. rewrite length_app, length_map, L. simpl. lia.
Qed.

End Retrieve.

Section Upsert.

(** The type of embeddings, and the transaction of [upsert_doc_and_chunks]:
    upsert of the [docs] row, deletion of the document's chunks, one insert
    per (chunk, embedding) pair, commit. *)
Variable Emb : Type.
Variable db_replace_doc :
  string -> string -> dict jval -> list (string * Emb) -> result unit.

Definition upsert_doc_and_chunks (doc_uri preview : string)
    (chunks : list string) (embeddings : list Emb) (meta : dict jval)
    : result Z :=
  if negb (len chunks =? len embeddings) then
    Err (ValueError "chunks and embeddings length mismatch")
  else
    _ <- db_replace_doc doc_uri preview meta (combine chunks embeddings) ;;
    Ok (len (combine chunks embeddings)).

Lemma upsert_returns_chunk_count (doc_uri preview : string)
    (chunks : list string) (embeddings : list Emb) (meta : dict jval) (n : Z) :
  upsert_doc_and_chunks doc_uri preview chunks embeddings meta = Ok n ->
  n = len chunks /\ len embeddings = len chunks.
Proof.
  unfold upsert_doc_and_chunks.
  destruct (len chunks =? len embeddings) eqn:E; simpl; [|discriminate].
  apply Z.eqb_eq in E.
  destruct (db_replace_doc _ _ _ _); [|discriminate]. cbn [bind].
  intros H. injection H as <-. unfold len in *.
  rewrite length_combine. lia.
Qed.

End Upsert.

End Retrieval.

(** * [app/ingest_handler.py]: ingestion *)

Module IngestHandler.

(** [s.endswith(suffix)] *)
Definition endswith (s suffix : string) : bool :=
  String.eqb
    (substring (String.length s - String.length suffix)
       (String.length suffix) s)
    suffix
  && (String.length suffix <=? String.length s)%nat.

(** What iterating over [paginator.paginate(..)] yields: pages of keys,
    until the listing ends, raises [ClientError], or raises something
    else. *)
Inductive Listing : Type :=
| ListEnd
| ListPage (keys : list string) (rest : Listing)
| ListClientError
| ListRaise (e : exn).

Section Process.

Variable Emb : Type.
Variable _read_object :
  string -> string -> result (option string * option (dict jval)).
Variable embed_texts : list string -> result (list Emb).
Variable db_replace_doc :
  string -> string -> dict jval -> list (string * Emb) -> result unit.
Variable paginate : string -> string -> Listing.

(** The chunks of [_chunk], whose loop always ends within its budget. *)
Definition chunks_of (text : string) (size overlap : Z) : result (list string) :=
  match Ingest._chunk (Some text) size overlap with
  | Some chunks => Ok chunks
  | None => Err (RuntimeError "chunk loop did not end")
  end.

Definition SKIPPED_UNSUPPORTED : dict jval :=
  [("skipped", JBool true); ("reason", JStr "unsupported")].

Definition SKIPPED_EMPTY : dict jval :=
  [("skipped", JBool true); ("reason", JStr "empty")].

Definition process_one_s3_object (bucket key : string)
    (chunk_size chunk_overlap : Z) (source : string) : result (dict jval) :=
  read <- _read_object bucket key ;;
  let (text, meta) := read in
  match text with
  | None => Ok SKIPPED_UNSUPPORTED
  | Some text =>
      if String.eqb text "" then Ok SKIPPED_UNSUPPORTED
      else
        chunks <- chunks_of text chunk_size chunk_overlap ;;
        match chunks with
        | [] => Ok SKIPPED_EMPTY
        | _ :: _ =>
            embs <- embed_texts chunks ;;
            let meta :=
              dict_update (get_or meta [])
                [("source", JStr source); ("s3_key", JStr key);
                 ("bucket", JStr bucket)] in
            _ <- Retrieval.upsert_doc_and_chunks Emb db_replace_doc
                   ("s3://" ++ bucket ++ "/" ++ key)
                   (Ingest.slice text 0 2000) chunks embs meta ;;
            Ok [("ok", JBool true); ("chunks", JInt (len chunks))]
        end
  end.

(** [r.get("ok")] as a condition. *)
Definition is_ok (r : dict jval) : bool := Bedrock.truthy (Bedrock.jget r "ok").

(** The inner loop of [reconcile_and_ingest] over the items of a page. *)
Fixpoint ingest_keys (bucket : string) (keys : list string)
    (chunk_size chunk_overlap : Z) (source : string) (count : Z) : Z :=
  match keys with
  | [] => count
  | key :: rest =>
      if endswith key "/" then
        ingest_keys bucket rest chunk_size chunk_overlap source count
      else
        match process_one_s3_object bucket key chunk_size chunk_overlap source with
        | Ok r =>
            ingest_keys bucket rest chunk_size chunk_overlap source
              (if is_ok r then count + 1 else count)
        | Err _ =>
            ingest_keys bucket rest chunk_size chunk_overlap source count
        end
  end.

(** The outer loop over the pages. *)
Fixpoint ingest_pages (bucket : string) (pages : Listing)
    (chunk_size chunk_overlap : Z) (source : string) (count : Z) : result Z :=
  match pages with
  | ListEnd => Ok count
  | ListPage keys rest =>
      ingest_pages bucket rest chunk_size chunk_overlap source
        (ingest_keys bucket keys chunk_size chunk_overlap source count)
  | ListClientError => Ok count
  | ListRaise e => Err e
  end.

Definition reconcile_and_ingest (bucket prefix : string)
    (chunk_size chunk_overlap : Z) (source : string) : result Z :=
  ingest_pages bucket (paginate bucket prefix) chunk_size chunk_overlap source 0.

Lemma chunks_of_total (text : string) (size overlap : Z) :
  exists chunks,
    chunks_of text size overlap = Ok chunks /\
    Ingest._chunk (Some text) size overlap = Some chunks /\
    (chunks = [] <-> blank text = true).
Proof.
  pose proof (Ingest.chunk_slices (Some text) size overlap) as E. simpl in E.
  eexists. unfold chunks_of. rewrite E. split; [reflexivity|].
  split; [reflexivity|].
  exact (Ingest.chunk_empty_iff (Some text) size overlap _ E).
Qed.

(** The metadata written with a document. *)
Definition doc_meta (meta : option (dict jval)) (bucket key source : string)
    : dict jval :=
  dict_update (get_or meta [])
    [("source", JStr source); ("s3_key", JStr key); ("bucket", JStr bucket)].

(** X18.  What [process_one_s3_object] returns.  An object without text
    ([None] or empty) is skipped as unsupported, and a text of whitespace
    only as empty, in both cases without calling the embedder or the
    database.  Any other returned result is [{"ok": True, "chunks": n}]
    with [n >= 1] the number of chunks, each of which was embedded, and the
    chunks were written with their embeddings under [s3://bucket/key] with
    a preview of at most 2000 characters. *)
Theorem process_one_outcomes (bucket key : string) (size overlap : Z)
    (source : string) :
  (forall meta,
     _read_object bucket key = Ok (None, meta) \/
     _read_object bucket key = Ok (Some "", meta) ->
     process_one_s3_object bucket key size overlap source
     = Ok [("skipped", JBool true); ("reason", JStr "unsupported")]) /\
  (forall text meta,
     _read_object bucket key = Ok (Some text, meta) ->
     text <> "" ->
     blank text = true ->
     process_one_s3_object bucket key size overlap source
     = Ok [("skipped", JBool true); ("reason", JStr "empty")]) /\
  (forall r,
     process_one_s3_object bucket key size overlap source = Ok r ->
     r = [("skipped", JBool true); ("reason", JStr "unsupported")] \/
     r = [("skipped", JBool true); ("reason", JStr "empty")] \/
     exists text meta chunks embs,
       _read_object bucket key = Ok (Some text, meta) /\
       blank text = false /\
       Ingest._chunk (Some text) size overlap = Some chunks /\
       embed_texts chunks = Ok embs /\
       Datatypes.length embs = Datatypes.length chunks /\
       db_replace_doc ("s3://" ++ bucket ++ "/" ++ key)
         (Ingest.slice text 0 2000) (doc_meta meta bucket key source)
         (combine chunks embs) = Ok tt /\
       Ingest.slen (Ingest.slice text 0 2000) <= 2000 /\
       1 <= len chunks /\
       r = [("ok", JBool true); ("chunks", JInt (len chunks))]).
Proof.
  split; [|split].
  - intros meta [H|H]; unfold process_one_s3_object; rewrite H; reflexivity.
  - intros text meta H Nt Hb. unfold process_one_s3_object. rewrite H.
    cbn [bind]. apply String.eqb_neq in Nt. rewrite Nt.
    destruct (chunks_of_total text size overlap) as [chunks [E [_ Hc]]].
    rewrite E. cbn [bind]. apply Hc in Hb. now subst chunks.
  - intros r. unfold process_one_s3_object.
    destruct (_read_object bucket key) as [[text meta]|e] eqn:Hr; [|discriminate].
    cbn [bind]. destruct text as [text|].
    2:{ intros H. injection H as <-. now left. }
    destruct (String.eqb text "") eqn:Nt.
    { intros H. injection H as <-. now left. }
    destruct (chunks_of_total text size overlap) as [chunks [E [Ec Hc]]].
    rewrite E. cbn [bind]. destruct chunks as [|c0 cs].
    { intros H. injection H as <-. right. now left. }
    destruct (embed_texts (c0 :: cs)) as [embs|e] eqn:He; [|discriminate].
    cbn [bind]. fold (doc_meta meta bucket key source).
    destruct (Retrieval.upsert_doc_and_chunks Emb db_replace_doc _ _ _ _ _)
      as [n|e] eqn:Hu; [|discriminate].
    cbn [bind]. intros H. injection H as <-. right. right.
    exists text, meta, (c0 :: cs), embs.
    pose proof (Retrieval.upsert_returns_chunk_count Emb db_replace_doc
                  _ _ _ _ _ _ Hu) as [_ Hl].
    split; [reflexivity|]. split.
    { destruct (blank text); [|reflexivity].
      destruct Hc as [_ Hc]. discriminate (Hc eq_refl). }
    split; [exact Ec|]. split; [exact He|]. split.
    { unfold len in Hl. lia. }
    split.
    { unfold Retrieval.upsert_doc_and_chunks in Hu.
      destruct (negb _); [discriminate Hu|].
      destruct (db_replace_doc _ _ _ _) as [[]|]; [reflexivity | discriminate Hu]. }
    split.
    { assert (0 <= Ingest.slen text) by (unfold Ingest.slen; lia).
      replace 2000 with (0 + 2000) at 1 by lia.
      rewrite Ingest.slen_slice by lia. lia. }
    split; [unfold len; simpl; lia | reflexivity].
Qed.

(** The keys seen before the listing ends or fails. *)
Fixpoint listed (pages : Listing) : list string :=
  match pages with
  | ListPage keys rest => (keys ++ listed rest)%list
  | _ => []
  end.

(** How the listing ended: [Some e] when it raised something other than
    [ClientError]. *)
Fixpoint listing_raised (pages : Listing) : option exn :=
  match pages with
  | ListPage _ rest => listing_raised rest
  | ListRaise e => Some e
  | _ => None
  end.

(** An object that counts: not a folder marker, and processed to an
    [ok] result. *)
Definition ingested (bucket : string) (size overlap : Z) (source key : string)
    : bool :=
  negb (endswith key "/") &&
  match process_one_s3_object bucket key size overlap source with
  | Ok r => is_ok r
  | Err _ => false
  end.

Lemma ingest_keys_count (bucket : string) (keys : list string)
    (size overlap : Z) (source : string) (count : Z) :
  ingest_keys bucket keys size overlap source count
  = count + len (filter (ingested bucket size overlap source) keys).
Proof.
  revert count. induction keys as [|key rest IH]; intros count.
  - unfold len. simpl. lia.
  - cbn [ingest_keys filter].
    assert (ingested bucket size overlap source key =
            negb (endswith key "/") &&
            match process_one_s3_object bucket key size overlap source with
            | Ok r => is_ok r
            | Err _ => false
            end) as Ei by reflexivity.
    destruct (endswith key "/").
    { rewrite Ei. cbn [negb andb]. apply IH. }
    destruct (process_one_s3_object bucket key size overlap source) as [r|e].
    + rewrite Ei, IH. cbn [negb andb].
      destruct (is_ok r); unfold len; cbn [Datatypes.length]; lia.
    + rewrite Ei. cbn [negb andb]. apply IH.
Qed.

Lemma ingest_pages_count (bucket : string) (pages : Listing)
    (size overlap : Z) (source : string) (count : Z) :
  ingest_pages bucket pages size overlap source count =
  match listing_raised pages with
  | Some e => Err e
  | None =>
      Ok (count + len (filter (ingested bucket size overlap source) (listed pages)))
  end.
Proof.
  revert count. induction pages as [|keys rest IH| |e]; intros count; simpl.
  - f_equal. unfold len. simpl. lia.
  - rewrite IH, ingest_keys_count.
    destruct (listing_raised rest); [reflexivity|].
    f_equal. rewrite filter_app. unfold len. rewrite length_app. lia.
  - f_equal. unfold len. simpl. lia.
  - reflexivity.
Qed.

(** X19.  [reconcile_and_ingest] counts the listed objects, folder markers
    (keys ending in [/]) apart, whose processing returned an [ok] result.
    An object that is skipped or whose processing raises is not counted and
    does not stop the walk; a [ClientError] of the listing ends the walk
    with the count reached; only another exception of the listing is
    raised.  The count is between 0 and the number of listed keys. *)
Theorem reconcile_counts_ingested (bucket prefix : string) (size overlap : Z)
    (source : string) :
  let pages := paginate bucket prefix in
  let n := len (filter (ingested bucket size overlap source) (listed pages)) in
  reconcile_and_ingest bucket prefix size overlap source =
  match listing_raised pages with
  | Some e => Err e
  | None => Ok n
  end /\
  0 <= n <= len (listed pages).
Proof.
  intros pages n. unfold reconcile_and_ingest. fold pages.
  rewrite ingest_pages_count. split; [reflexivity|].
  unfold n, len. split; [lia|].
  apply Nat2Z.inj_le, filter_length_le.
Qed.

(** An [ok] result is counted, a skipped one is not. *)
Lemma is_ok_outcomes (n : Z) :
  is_ok [("ok", JBool true); ("chunks", JInt n)] = true /\
  is_ok SKIPPED_UNSUPPORTED = false /\
  is_ok SKIPPED_EMPTY = false.
Proof. repeat split. Qed.

End Process.

Section WithBedrock.

Variable _read_object :
  string -> string -> result (option string * option (dict jval)).
Variable EMBED_MODEL_ID : string.
Variable _invoke : string -> dict jval -> result (dict jval).
Variable keys_preview : dict jval -> string.
Variable db_replace_doc :
  string -> string -> dict jval -> list (string * jval) -> result unit.

(** X20.  With the embedder of [bedrock.py], [process_one_s3_object] fails
    only because reading the object, an embedding call or the database
    transaction failed: [embed_texts] returns one embedding per chunk, so
    the length check of [upsert_doc_and_chunks] never raises. *)
Theorem process_with_bedrock_fails_only_outside
    (bucket key : string) (size overlap : Z) (source : string) (e : exn) :
  process_one_s3_object jval _read_object
    (Bedrock.embed_texts EMBED_MODEL_ID _invoke keys_preview)
    db_replace_doc bucket key size overlap source = Err e ->
  _read_object bucket key = Err e \/
  exists text meta chunks,
    _read_object bucket key = Ok (Some text, meta) /\
    Ingest._chunk (Some text) size overlap = Some chunks /\
    (Bedrock.embed_texts EMBED_MODEL_ID _invoke keys_preview chunks = Err e \/
     exists embs,
       Bedrock.embed_texts EMBED_MODEL_ID _invoke keys_preview chunks = Ok embs /\
       db_replace_doc ("s3://" ++ bucket ++ "/" ++ key)
         (Ingest.slice text 0 2000) (doc_meta meta bucket key source)
         (combine chunks embs) = Err e).
Proof.
  unfold process_one_s3_object.
  destruct (_read_object bucket key) as [[text meta]|e0] eqn:Hr.
  2:{ intros H. injection H as ->. now left. }
  cbn [bind]. destruct text as [text|]; [|discriminate].
  destruct (String.eqb text ""); [discriminate|].
  destruct (chunks_of_total text size overlap) as [chunks [E [Ec _]]].
  rewrite E. cbn [bind]. destruct chunks as [|c0 cs]; [discriminate|].
  intros H. right. exists text, meta, (c0 :: cs).
  split; [reflexivity|]. split; [exact Ec|].
  destruct (Bedrock.embed_texts EMBED_MODEL_ID _invoke keys_preview (c0 :: cs))
    as [embs|e0] eqn:He.
  2:{ injection H as ->. now left. }
  right. exists embs. split; [reflexivity|].
  cbn [bind] in H. fold (doc_meta meta bucket key source) in H.
  unfold Retrieval.upsert_doc_and_chunks in H.
  apply Bedrock.embed_texts_length in He. rename He into Hl.
  assert ((len (c0 :: cs) =? len embs) = true) as El
    by (apply Z.eqb_eq; unfold len; now rewrite Hl).
  rewrite El in H. cbn [negb] in H.
  destruct (db_replace_doc _ _ _ _) as [u|e0]; [discriminate H|].
  cbn [bind] in H. now injection H as ->.
Qed.

End WithBedrock.

End IngestHandler.

(** * The answer text *)

(** A string that neither starts nor ends with whitespace. *)
Definition trimmed (s : string) : Prop :=
  (forall c r, chars s = c :: r -> is_space c = false) /\
  (forall c r, rev (chars s) = c :: r -> is_space c = false).

Lemma strip_trimmed (s : string) : trimmed (strip s).
Proof.
  destruct (strip_spec s) as [pre [post [_ [_ [_ [H1 H2]]]]]]. now split.
Qed.

Section AnswerText.

Variable embed_texts : list string -> result (list (list Q)).
Variable retrieve_by_embedding : list Q -> Z -> result (list Hit).
Variable generate_text : string -> result (option string).

(** X9.  The answer of a non-abstaining result is the generator's output
    for the prompt built from the question and from the narrowed chunks,
    each stripped and joined by a blank line, with [None] read as the empty
    text and surrounding whitespace removed; so it never starts or ends
    with whitespace.  This holds for the final state of the graph and for
    the body of [/ask]. *)
Theorem answer_is_trimmed
    (q : string) (k : Z) (t : Q) (m n : Z) (out : QAState)
    (env : Env) (pq : option string) (pk : option Z) :
  (qa_graph_invoke embed_texts retrieve_by_embedding generate_text
     (initial_state q k t m n) = Ok out ->
   st_abstain out = Some false ->
   exists dh g,
     st_doc_hits out = Some dh /\
     generate_text
       (build_prompt (join (nl ++ nl) (map (fun h => strip (chunk h)) dh)) q)
     = Ok g /\
     st_answer out = Some (strip (or_empty g)) /\
     trimmed (strip (or_empty g))) /\
  (let r := ask embed_texts retrieve_by_embedding generate_text env pq pk in
   status_code r = 200 ->
   dict_get (body r) "abstained" = None ->
   exists emb hits d g,
     embed_texts [strip (get_or pq "")] = Ok [emb] /\
     retrieve_by_embedding emb (Z.max (get_or pk 6) 12) = Ok hits /\
     pick_best_doc (build_doc_min hits) (Counter (map doc_uri hits)) = Ok d /\
     generate_text
       (build_prompt
          (join (nl ++ nl)
             (map (fun h => strip (chunk h))
                (narrow d hits (get_or (DOC_CTX_CHUNKS env) 4))))
          (strip (get_or pq ""))) = Ok g /\
     dict_get (body r) "answer" = Some (JStr (strip (or_empty g))) /\
     trimmed (strip (or_empty g))).
Proof.
  split.
  - intros E Ha.
    destruct (invoke_cases embed_texts retrieve_by_embedding generate_text
                q k t m n out E)
      as [emb [hits [_ [_ [[_ [_ ->]]|[d [N [Hd [[_ ->]|[_ [g [Hg ->]]]]]]]]]]]];
      try discriminate Ha.
    exists (narrow d hits n), g.
    split; [reflexivity|]. split; [exact Hg|]. split; [reflexivity|].
    apply strip_trimmed.
  - intros r. subst r.
    destruct (ask_outcome_total embed_texts retrieve_by_embedding generate_text
                env pq pk)
      as [ | | | |emb hits d g Nq He Hr N Hd G Hg]; intros Hs Hb;
      try discriminate Hs; try discriminate Hb.
    exists emb, hits, d, g.
    split; [exact He|]. split; [exact Hr|]. split; [exact Hd|].
    split; [exact Hg|]. split; [reflexivity | apply strip_trimmed].
Qed.

End AnswerText.

Lemma answer_is_trimmed_example :
  exists emb hits d g,
    stub_embed [strip "What is the capital of France?"] = Ok [emb] /\
    stub_retrieve example1_hits emb (Z.max 6 12) = Ok hits /\
    pick_best_doc (build_doc_min hits) (Counter (map doc_uri hits)) = Ok d /\
    stub_generate (Some " Paris. ")
      (build_prompt
         (join (nl ++ nl) (map (fun h => strip (chunk h)) (narrow d hits 4)))
         (strip "What is the capital of France?")) = Ok g /\
    dict_get
      (body (ask stub_embed (stub_retrieve example1_hits)
               (stub_generate (Some " Paris. ")) default_env
               (Some "What is the capital of France?") None))
      "answer" = Some (JStr (strip (or_empty g))) /\
    trimmed (strip (or_empty g)).
Proof.
  destruct (answer_is_trimmed stub_embed (stub_retrieve example1_hits)
              (stub_generate (Some " Paris. "))
              "q" 6 0.65 1 4 (initial_state "q" 6 0.65 1 4)
              default_env (Some "What is the capital of France?") None)
    as [_ H].
  apply H; vm_compute; reflexivity.
Defined.

(** * Ingestion with stub collaborators *)

(** A Bedrock call that returns one fixed embedding. *)
Definition stub_invoke (model_id : string) (payload : dict jval)
    : result (dict jval) :=
  Ok [("embedding", JList [JFloat 0.1; JFloat 0.2])].

Definition stub_read (text : string) (bucket key : string)
    : result (option string * option (dict jval)) :=
  Ok (Some text, Some [("etag", JStr "e1"); ("size", JInt 12);
                       ("content_type", JStr "text/plain")]).

Definition stub_db (doc_uri preview : string) (meta : dict jval)
    (rows : list (string * jval)) : result unit :=
  Ok tt.

Lemma embed_texts_one_per_text_example :
  Datatypes.length
    [JList [JFloat 0.1; JFloat 0.2]; JList [JFloat 0.1; JFloat 0.2]]
  = Datatypes.length ["hello"; "world"].
Proof.
  destruct (Bedrock.embed_texts_one_per_text "amazon.titan-embed-text-v2:0"
              stub_invoke (fun _ => "[]") ["hello"; "world"]
              [JList [JFloat 0.1; JFloat 0.2]; JList [JFloat 0.1; JFloat 0.2]]
              eq_refl) as [H _].
  exact H.
Defined.

(** A Bedrock call that returns the text it was sent as its embedding. *)
Definition echo_invoke (model_id : string) (payload : dict jval)
    : result (dict jval) :=
  Ok [("embedding", JList [Bedrock.jget payload "inputText"])].

(** A text of 8000 characters [a] followed by [tail]. *)
Definition long_text (tail : string) : string :=
  string_of_list_ascii (repeat "a"%char (Z.to_nat 8000)) ++ tail.

Lemma embed_texts_sees_prefix_only_example :
  Bedrock.embed_texts "amazon.titan-embed-text-v2:0" echo_invoke
    (fun _ => "[]") [long_text "x"; "short"]
  = Bedrock.embed_texts "amazon.titan-embed-text-v2:0" echo_invoke
      (fun _ => "[]") [long_text "y"; "short"].
Proof.
  destruct (Bedrock.embed_texts_sees_prefix_only "amazon.titan-embed-text-v2:0"
              echo_invoke (fun _ => "[]")
              [long_text "x"; "short"] [long_text "y"; "short"]) as [H _].
  - reflexivity.
  - exact H.
Defined.

Lemma process_one_outcomes_example :
  exists text meta chunks embs,
    stub_read "hello  world" "docs" "a.txt" = Ok (Some text, meta) /\
    blank text = false /\
    Ingest._chunk (Some text) 5 2 = Some chunks /\
    Bedrock.embed_texts "amazon.titan-embed-text-v2:0" stub_invoke
      (fun _ => "[]") chunks = Ok embs /\
    Datatypes.length embs = Datatypes.length chunks /\
    1 <= len chunks.
Proof.
  destruct (IngestHandler.process_one_outcomes jval (stub_read "hello  world")
              (Bedrock.embed_texts "amazon.titan-embed-text-v2:0" stub_invoke
                 (fun _ => "[]"))
              stub_db "docs" "a.txt" 5 2 "corp") as [_ [_ H]].
  destruct (H [("ok", JBool true); ("chunks", JInt 4)] eq_refl)
    as [H1|[H1|[text [meta [chunks [embs [A [B [C [D [E [_ [_ [F _]]]]]]]]]]]]]].
  - discriminate H1.
  - discriminate H1.
  - exists text, meta, chunks, embs. auto 10.
Defined.

(** A Bedrock call that is throttled. *)
Definition failing_invoke (model_id : string) (payload : dict jval)
    : result (dict jval) :=
  Err (RuntimeError "throttled").

Lemma process_with_bedrock_example :
  stub_read "hello  world" "docs" "a.txt" = Err (RuntimeError "throttled") \/
  exists text meta chunks,
    stub_read "hello  world" "docs" "a.txt" = Ok (Some text, meta) /\
    Ingest._chunk (Some text) 5 2 = Some chunks /\
    (Bedrock.embed_texts "amazon.titan-embed-text-v2:0" failing_invoke
       (fun _ => "[]") chunks = Err (RuntimeError "throttled") \/
     exists embs,
       Bedrock.embed_texts "amazon.titan-embed-text-v2:0" failing_invoke
         (fun _ => "[]") chunks = Ok embs /\
       stub_db ("s3://" ++ "docs" ++ "/" ++ "a.txt")
         (Ingest.slice text 0 2000)
         (IngestHandler.doc_meta meta "docs" "a.txt" "corp")
         (combine chunks embs) = Err (RuntimeError "throttled")).
Proof.
  apply (IngestHandler.process_with_bedrock_fails_only_outside
           (stub_read "hello  world")
           "amazon.titan-embed-text-v2:0" failing_invoke (fun _ => "[]") stub_db
           "docs" "a.txt" 5 2 "corp" (RuntimeError "throttled")).
  reflexivity.
Defined.

(** * [app/ingest_handler.py]: reading an object *)

Module ReadObject.

(** [c.lower()] on a character below 256: the letters [A] to [Z] and the
    accented capitals 192 to 222, the multiplication sign 215 apart, move
    up by 32. *)
Definition lower_char (c : ascii) : ascii :=
  let n := nat_of_ascii c in
  if ((65 <=? n) && (n <=? 90)
      || (192 <=? n) && (n <=? 222) && negb (n =? 215))%nat
  then ascii_of_nat (n + 32) else c.

(** [s.lower()] *)
Fixpoint lower (s : string) : string :=
  match s with
  | EmptyString => EmptyString
  | String c r => String (lower_char c) (lower r)
  end.

(** [s.strip(q)] for [q] the double-quote character: double quotes are
    removed at both ends. *)
Fixpoint lstrip_quotes (s : string) : string :=
  match s with
  | EmptyString => EmptyString
  | String c r => if Ascii.eqb c "034"%char then lstrip_quotes r else s
  end.

Definition strip_quotes (s : string) : string :=
  string_rev (lstrip_quotes (string_rev (lstrip_quotes s))).

(** [s.endswith((a, b))] *)
Definition endswith_any (s : string) (suffixes : list string) : bool :=
  existsb (IngestHandler.endswith s) suffixes.

Section Read.

(** The bytes of a body, and what S3 and the parsers do. *)
Variable Bytes : Type.

(** The response of [s3.get_object]: the result of reading its body and the
    three optional headers. *)
Record S3Object : Type := mkS3Object {
  Body : result Bytes;
  ETag : option string;
  ContentLength : option Z;
  ContentType : option string
}.

(** [s3.get_object] returns, raises [ClientError], or raises something
    else. *)
Inductive GetResult : Type :=
| Got (obj : S3Object)
| GetClientError
| GetRaise (e : exn).

Variable get_object : string -> string -> GetResult.

(** [body.decode("utf-8", "ignore")], the BeautifulSoup extraction of the
    text elements, and the pypdf extraction of the page texts. *)
Variable decode_utf8 : Bytes -> result string.
Variable html_text : Bytes -> result string.
Variable pdf_text : Bytes -> result string.

(** A [try: return reader(body), meta / except Exception: return None, None]
    block. *)
Definition try_read (reader : Bytes -> result string) (body : Bytes)
    (meta : dict jval) : option string * option (dict jval) :=
  match reader body with
  | Ok text => (Some text, Some meta)
  | Err _ => (None, None)
  end.

Definition _read_object (bucket key : string)
    : result (option string * option (dict jval)) :=
  match get_object bucket key with
  | GetClientError => Ok (None, None)
  | GetRaise e => Err e
  | Got obj =>
      body <- Body obj ;;
      let etag := strip_quotes (get_or (ETag obj) "") in
      let size := get_or (ContentLength obj) 0 in
      let ctype := get_or (ContentType obj) "application/octet-stream" in
      let k := lower key in
      let meta :=
        [("etag", JStr etag); ("size", JInt size); ("content_type", JStr ctype)] in
      if endswith_any k [".txt"; ".md"] then Ok (try_read decode_utf8 body meta)
      else if endswith_any k [".html"; ".htm"] then Ok (try_read html_text body meta)
      else if IngestHandler.endswith k ".pdf" then Ok (try_read pdf_text body meta)
      else Ok (try_read decode_utf8 body meta)
  end.

(** ** The reader of a key *)

(** The parser a key is read with: HTML and PDF by their extension,
    whatever the case of its letters, and UTF-8 text for every other key. *)
Definition reader_for (key : string) : Bytes -> result string :=
  if endswith_any (lower key) [".html"; ".htm"] then html_text
  else if IngestHandler.endswith (lower key) ".pdf" then pdf_text
  else decode_utf8.

(** The metadata recorded for an object. *)
Definition object_meta (obj : S3Object) : dict jval :=
  [("etag", JStr (strip_quotes (get_or (ETag obj) "")));
   ("size", JInt (get_or (ContentLength obj) 0));
   ("content_type",
    JStr (get_or (ContentType obj) "application/octet-stream"))].

(** A string that ends with [suffix] ends with the characters of
    [suffix]. *)
Lemma endswith_chars (s suffix : string) :
  IngestHandler.endswith s suffix = true ->
  exists pre, rev (chars s) = (rev (chars suffix) ++ pre)%list.
Proof.
  unfold IngestHandler.endswith. intros H.
  apply andb_true_iff in H. destruct H as [E L].
  apply String.eqb_eq in E. apply Nat.leb_le in L.
  apply (f_equal chars) in E. rewrite chars_substring in E.
  set (n := (String.length s - String.length suffix)%nat) in *.
  assert (skipn n (chars s) = chars suffix) as K.
  { rewrite <- E. symmetry. apply firstn_all2.
    rewrite length_skipn, chars_length. lia. }
  exists (rev (firstn n (chars s))).
  rewrite <- rev_app_distr, <- K. now rewrite firstn_skipn.
Qed.

(** A key with a text extension has neither an HTML nor a PDF extension,
    so testing for the text extensions first changes nothing. *)
Lemma text_extension_is_no_other (k : string) :
  endswith_any k [".txt"; ".md"] = true ->
  endswith_any k [".html"; ".htm"] = false /\
  IngestHandler.endswith k ".pdf" = false.
Proof.
  unfold endswith_any. cbn [existsb]. rewrite orb_false_r.
  intros H.
  assert (exists c pre, rev (chars k) = c :: pre /\
                        (c = "t"%char \/ c = "d"%char)) as [c [pre [R C]]].
  { apply orb_true_iff in H. destruct H as [H|H];
      apply endswith_chars in H; destruct H as [pre H]; simpl in H; eauto. }
  assert (forall suffix c',
            rev (chars suffix) <> [] ->
            hd c (rev (chars suffix)) = c' ->
            c <> c' ->
            IngestHandler.endswith k suffix = false) as N.
  { intros suffix c' Hne Hhd Hc.
    destruct (IngestHandler.endswith k suffix) eqn:E; [|reflexivity].
    exfalso. apply endswith_chars in E. destruct E as [pre' E].
    rewrite R in E. destruct (rev (chars suffix)) as [|x xs]; [congruence|].
    simpl in E, Hhd. injection E as E _. congruence. }
  rewrite orb_false_r.
  rewrite (N ".html" "l"%char), (N ".htm" "m"%char), (N ".pdf" "f"%char);
    try (simpl; discriminate); try reflexivity;
    try (destruct C as [-> | ->]; discriminate).
  split; reflexivity.
Qed.

(** [_read_object] reads every key with the reader of its extension. *)
Lemma read_object_reader (bucket key : string) :
  _read_object bucket key =
  match get_object bucket key with
  | GetClientError => Ok (None, None)
  | GetRaise e => Err e
  | Got obj =>
      body <- Body obj ;;
      Ok (try_read (reader_for key) body (object_meta obj))
  end.
Proof.
  unfold _read_object, reader_for, object_meta.
  destruct (get_object bucket key) as [obj| |e]; try reflexivity.
  destruct (Body obj) as [body|e]; cbn [bind]; [|reflexivity].
  destruct (endswith_any (lower key) [".txt"; ".md"]) eqn:T.
  - destruct (text_extension_is_no_other _ T) as [-> ->]. reflexivity.
  - destruct (endswith_any (lower key) [".html"; ".htm"]); [reflexivity|].
    destruct (IngestHandler.endswith (lower key) ".pdf"); reflexivity.
Qed.

(** ** The recorded ETag *)

(** Dropping leading double quotes. *)
Fixpoint drop_quotes (l : list ascii) : list ascii :=
  match l with
  | [] => []
  | c :: r => if Ascii.eqb c "034"%char then drop_quotes r else l
  end.

Lemma chars_lstrip_quotes (s : string) :
  chars (lstrip_quotes s) = drop_quotes (chars s).
Proof.
  induction s as [|c r IH]; simpl; [reflexivity|].
  destruct (Ascii.eqb c "034"%char); [exact IH | reflexivity].
Qed.

Lemma chars_strip_quotes (s : string) :
  chars (strip_quotes s) = rev (drop_quotes (rev (drop_quotes (chars s)))).
Proof.
  unfold strip_quotes.
  now rewrite chars_rev, chars_lstrip_quotes, chars_rev, chars_lstrip_quotes.
Qed.

Lemma drop_quotes_split (l : list ascii) :
  exists w, l = (w ++ drop_quotes l)%list.
Proof.
  induction l as [|c r IH]; simpl.
  - now exists [].
  - destruct (Ascii.eqb c "034"%char).
    + destruct IH as [w H]. exists (c :: w). simpl. now rewrite <- H.
    + now exists [].
Qed.

Lemma drop_quotes_head (l : list ascii) (c : ascii) (r : list ascii) :
  drop_quotes l = c :: r -> c <> "034"%char.
Proof.
  induction l as [|a t IH]; simpl; [discriminate|].
  destruct (Ascii.eqb a "034"%char) eqn:E; [exact IH|].
  intros H. injection H as <- _. now apply Ascii.eqb_neq.
Qed.

Lemma drop_quotes_id (l : list ascii) :
  (forall c r, l = c :: r -> c <> "034"%char) -> drop_quotes l = l.
Proof.
  destruct l as [|c r]; [reflexivity|]. intros H. simpl.
  destruct (Ascii.eqb c "034"%char) eqn:E; [|reflexivity].
  apply Ascii.eqb_eq in E. now destruct (H c r eq_refl).
Qed.

(** A string that neither starts nor ends with a double quote. *)
Definition unquoted (s : string) : Prop :=
  (forall c r, chars s = c :: r -> c <> "034"%char) /\
  (forall c r, rev (chars s) = c :: r -> c <> "034"%char).

Lemma strip_quotes_unquoted (s : string) : unquoted (strip_quotes s).
Proof.
  unfold unquoted. rewrite chars_strip_quotes, rev_involutive.
  set (l := drop_quotes (chars s)).
  split.
  - intros c r E.
    destruct (drop_quotes_split (rev l)) as [w H].
    apply (f_equal (@rev ascii)) in H.
    rewrite rev_involutive, rev_app_distr, E in H. simpl in H.
    exact (drop_quotes_head (chars s) _ _ H).
  - intros c r E. exact (drop_quotes_head _ _ _ E).
Qed.

Lemma drop_quotes_quote (l : list ascii) :
  drop_quotes ("034"%char :: l) = drop_quotes l.
Proof. reflexivity. Qed.

Lemma strip_quoted_chars (l : list ascii) :
  (forall c r, l = c :: r -> c <> "034"%char) ->
  (forall c r, rev l = c :: r -> c <> "034"%char) ->
  rev (drop_quotes (rev (drop_quotes ("034"%char :: l ++ ["034"%char])))) = l.
Proof.
  intros H1 H2. rewrite drop_quotes_quote. destruct l as [|c r].
  - reflexivity.
  - rewrite (drop_quotes_id ((c :: r) ++ ["034"%char])).
    2:{ intros c0 r0 H. simpl in H. injection H as <- _.
        exact (H1 c r eq_refl). }
    rewrite rev_app_distr.
    change (rev ["034"%char] ++ rev (c :: r))%list
      with ("034"%char :: rev (c :: r)).
    rewrite drop_quotes_quote, drop_quotes_id by exact H2.
    apply rev_involutive.
Qed.

(** Stripping the quotes of a quoted value gives the value back. *)
Lemma strip_quotes_quoted (x : string) :
  unquoted x -> strip_quotes (dquote ++ x ++ dquote) = x.
Proof.
  intros [H1 H2]. apply chars_inj.
  rewrite chars_strip_quotes, !chars_append.
  exact (strip_quoted_chars (chars x) H1 H2).
Qed.

(** X21.  [_read_object] returns a text together with its metadata, or
    neither.  The metadata is exactly [etag], [size] and [content_type];
    the recorded [etag] never starts or ends with a double quote, is the
    value between the quotes when S3 sent a quoted ETag, and is empty when
    S3 sent none; [size] and [content_type] default to [0] and
    [application/octet-stream]. *)
Theorem read_object_text_with_meta (bucket key : string)
    (text : option string) (meta : option (dict jval)) :
  _read_object bucket key = Ok (text, meta) ->
  (text = None /\ meta = None) \/
  exists obj t etag,
    get_object bucket key = Got obj /\
    text = Some t /\
    meta = Some [("etag", JStr etag);
                 ("size", JInt (get_or (ContentLength obj) 0));
                 ("content_type",
                  JStr (get_or (ContentType obj) "application/octet-stream"))] /\
    unquoted etag /\
    (forall x, ETag obj = Some (dquote ++ x ++ dquote) -> unquoted x ->
               etag = x) /\
    (ETag obj = None -> etag = "").
Proof.
  rewrite read_object_reader.
  destruct (get_object bucket key) as [obj| |e]; [| |discriminate].
  2:{ intros H. injection H as <- <-. now left. }
  destruct (Body obj) as [body|e]; cbn [bind]; [|discriminate].
  unfold try_read. destruct (reader_for key body) as [t|e].
  2:{ intros H. injection H as <- <-. now left. }
  intros H. injection H as <- <-. right.
  exists obj, t, (strip_quotes (get_or (ETag obj) "")).
  split; [reflexivity|]. split; [reflexivity|]. split; [reflexivity|].
  split; [apply strip_quotes_unquoted|]. split.
  - intros x -> Hx. cbn [get_or]. now apply strip_quotes_quoted.
  - intros ->. reflexivity.
Qed.

End Read.

Section ReadAndProcess.

Variable Bytes : Type.
Variable get_object : string -> string -> GetResult Bytes.
Variable decode_utf8 : Bytes -> result string.
Variable html_text : Bytes -> result string.
Variable pdf_text : Bytes -> result string.
Variable Emb : Type.
Variable embed_texts : list string -> result (list Emb).
Variable db_replace_doc :
  string -> string -> dict jval -> list (string * Emb) -> result unit.

(** X22.  No file type is unsupported.  [process_one_s3_object] skips an
    object with reason [unsupported] exactly when S3 refused it with a
    [ClientError], or the parser chosen for its key raised or extracted the
    empty text; that parser is the HTML one for [.html] and [.htm], the PDF
    one for [.pdf], and the UTF-8 decoder for every other key, upper-case
    extensions included. *)
Theorem skipped_unsupported_iff (bucket key : string) (size overlap : Z)
    (source : string) :
  IngestHandler.process_one_s3_object Emb
    (_read_object Bytes get_object decode_utf8 html_text pdf_text)
    embed_texts db_replace_doc bucket key size overlap source
  = Ok [("skipped", JBool true); ("reason", JStr "unsupported")]
  <->
  get_object bucket key = GetClientError Bytes \/
  exists obj body,
    get_object bucket key = Got Bytes obj /\
    Body Bytes obj = Ok body /\
    ((exists e,
        reader_for Bytes decode_utf8 html_text pdf_text key body = Err e) \/
     reader_for Bytes decode_utf8 html_text pdf_text key body = Ok "").
Proof.
  unfold IngestHandler.process_one_s3_object.
  rewrite read_object_reader.
  destruct (get_object bucket key) as [obj| |e]; cbn [bind].
  - destruct (Body Bytes obj) as [body|e] eqn:Hb; cbn [bind].
    2:{ split; [discriminate|].
        intros [H|[obj' [body' [H [H' _]]]]]; [discriminate H|].
        injection H as <-. congruence. }
    unfold try_read.
    destruct (reader_for Bytes decode_utf8 html_text pdf_text key body)
      as [text|e] eqn:Hr.
    2:{ split; [|reflexivity]. intros _. right. exists obj, body.
        split; [reflexivity|]. split; [exact Hb|]. left. eauto. }
    destruct (String.eqb text "") eqn:Et.
    { apply String.eqb_eq in Et. subst text. split; [|reflexivity].
      intros _. right. exists obj, body. rewrite Hr. auto. }
    split.
    + intros H. exfalso.
      destruct (IngestHandler.chunks_of text size overlap) as [chunks|e];
        cbn [bind] in H; [|discriminate H].
      destruct chunks as [|c0 cs]; [discriminate H|].
      destruct (embed_texts (c0 :: cs)); cbn [bind] in H; [|discriminate H].
      destruct (Retrieval.upsert_doc_and_chunks _ _ _ _ _ _ _);
        cbn [bind] in H; discriminate H.
    + intros [H|[obj' [body' [H [H' [[e He]|He]]]]]]; [discriminate H| |].
      * injection H as <-. rewrite Hb in H'. injection H' as <-.
        rewrite Hr in He. discriminate He.
      * injection H as <-. rewrite Hb in H'. injection H' as <-.
        rewrite Hr in He. injection He as ->. discriminate Et.
  - split; [|reflexivity]. intros _. now left.
  - split; [discriminate|].
    intros [H|[obj [body [H _]]]]; discriminate H.
Qed.

End ReadAndProcess.

End ReadObject.

(** An object that S3 returns with a quoted ETag and the text as its
    body. *)
Definition stub_get_object (text : string) (bucket key : string)
    : ReadObject.GetResult string :=
  ReadObject.Got string
    (ReadObject.mkS3Object string (Ok text)
       (Some (dquote ++ "9b2cf535f27731c974343645a3985328" ++ dquote))
       (Some 12) None).

Lemma read_object_text_with_meta_example :
  exists etag,
    ReadObject._read_object string (stub_get_object "hello  world")
      (fun b => Ok b) (fun b => Ok b) (fun b => Ok b) "docs" "Notes.TXT"
    = Ok (Some "hello  world",
          Some [("etag", JStr etag); ("size", JInt 12);
                ("content_type", JStr "application/octet-stream")]) /\
    ReadObject.unquoted etag.
Proof.
  destruct (ReadObject.read_object_text_with_meta string
              (stub_get_object "hello  world")
              (fun b => Ok b) (fun b => Ok b) (fun b => Ok b)
              "docs" "Notes.TXT"
              (Some "hello  world")
              (Some [("etag", JStr "9b2cf535f27731c974343645a3985328");
                     ("size", JInt 12);
                     ("content_type", JStr "application/octet-stream")]))
    as [[H _]|[obj [t [etag [_ [_ [Hm [Hu _]]]]]]]].
  - vm_compute. reflexivity.
  - discriminate H.
  - exists etag. split; [|exact Hu].
    injection Hm as <-. vm_compute. reflexivity.
Defined.
